(** * es6-helpers: the [ajax] Promise helper, version 1.1 (Comet support)

    A shallow embedding of the function [ajax] (the Comet-capable variant;
    the two earlier variants are the same function without the polling
    reader) and the properties of its request side, its completion handler
    and its polling reader.

    The function is one closure over a request object, a timer and a
    promise.  It is embedded as
    - an executor, run once when [ajax] is called,
    - the [readystatechange] listener,
    - the interval callback of Comet mode,
    all three acting on one invocation state, and a host that delivers
    events to the last two. *)

From Stdlib Require Import ZArith Ascii String List Bool Lia.
From stdpp Require Import base option list gmap strings pretty.

Set Warnings "-register-all".

Open Scope Z_scope.

(** ** JavaScript values *)

(** The primitive values the function handles.  Numbers are the integral
    ones, and [PNaN]. *)
Inductive prim :=
| PUndefined
| PNull
| PBool (b : bool)
| PNum (n : Z)
| PNaN
| PStr (s : string).

(** Values: primitives, plain data objects given by their own enumerable
    entries in enumeration order (the keys are distinct), [FormData]
    payloads and functions.  [VFun] is a function whose constructor is
    [Function] and that can be called: a function declaration or
    expression, an arrow function, a method.  [VAsync] is an async
    function or a generator, whose
    constructor is [AsyncFunction], [GeneratorFunction] or
    [AsyncGeneratorFunction].  [VFunction] is the global [Function]. *)
Inductive value :=
| VPrim (p : prim)
| VObj (entries : list (string * value))
| VFormData (fields : list (string * string))
| VFun (name : string)
| VAsync (name : string)
| VFunction.

Abbreviation VUndefined := (VPrim PUndefined).
Abbreviation VNull := (VPrim PNull).
Abbreviation VBool b := (VPrim (PBool b)).
Abbreviation VNum n := (VPrim (PNum n)).
Abbreviation VStr s := (VPrim (PStr s)).

Definition string_eqb (a b : string) : bool := bool_decide (a = b).

(** ToBoolean. *)
Definition truthy_prim (p : prim) : bool :=
  match p with
  | PUndefined | PNull | PNaN => false
  | PBool b => b
  | PNum n => negb (n =? 0)
  | PStr s => negb (string_eqb s "")
  end.

Definition truthy (v : value) : bool :=
  match v with
  | VPrim p => truthy_prim p
  | VObj _ | VFormData _ | VFun _ | VAsync _ | VFunction => true
  end.

(** [a || b]. *)
Definition js_or (a b : value) : value := if truthy a then a else b.

(** [a !== b] is [negb (strict_eq a b)], on primitives. *)
Definition strict_eq (a b : prim) : bool :=
  match a, b with
  | PUndefined, PUndefined => true
  | PNull, PNull => true
  | PBool x, PBool y => Bool.eqb x y
  | PNum x, PNum y => x =? y
  | PStr x, PStr y => string_eqb x y
  | _, _ => false
  end.

Definition typeof (v : value) : string :=
  match v with
  | VPrim PUndefined => "undefined"
  | VPrim PNull => "object"
  | VPrim (PBool _) => "boolean"
  | VPrim (PNum _) | VPrim PNaN => "number"
  | VPrim (PStr _) => "string"
  | VObj _ | VFormData _ => "object"
  | VFun _ | VAsync _ | VFunction => "function"
  end.

(** [o[k]] for a plain object: its own property, if it has one. *)
Fixpoint own_property (k : string) (es : list (string * value))
    : option value :=
  match es with
  | [] => None
  | (k', v) :: r => if string_eqb k k' then Some v else own_property k r
  end.

(** [v.constructor === Function], for a [v] that is not [null] or
    [undefined].  A plain object has the property of its own, or the one
    of [Object.prototype], which is [Object]; a primitive and a [FormData]
    have the one of their prototype: [String], [Number], [Boolean],
    [FormData]. *)
Definition constructor_is_Function (v : value) : bool :=
  match v with
  | VFun _ | VFunction => true
  | VAsync _ => false
  | VObj es =>
      match own_property "constructor" es with
      | Some VFunction => true
      | _ => false
      end
  | VFormData _ | VPrim _ => false
  end.

(** [v(...)] calls [v] if it is a function, and is a [TypeError] if it is
    not. *)
Definition callable (v : value) : bool :=
  match v with
  | VFun _ | VAsync _ | VFunction => true
  | VPrim _ | VObj _ | VFormData _ => false
  end.

(** [v instanceof FormData]. *)
Definition instanceof_FormData (v : value) : bool :=
  match v with VFormData _ => true | _ => false end.

(** A string-valued optional field: [None] is [undefined]. *)
Definition opt_value (o : option string) : value :=
  match o with Some s => VStr s | None => VUndefined end.

(** [o || dflt] for a string-valued optional field. *)
Definition str_or (o : option string) (dflt : string) : string :=
  match o with
  | Some s => if string_eqb s "" then dflt else s
  | None => dflt
  end.

(** [o || null] for a string-valued optional field; [None] is [null]. *)
Definition str_or_null (o : option string) : option string :=
  match o with
  | Some s => if string_eqb s "" then None else Some s
  | None => None
  end.

(** ** Strings *)

Definition LF : ascii := ascii_of_nat 10.
Definition CR : ascii := ascii_of_nat 13.

(** The character class [[\n\r]]. *)
Definition is_newline (c : ascii) : bool :=
  bool_decide (c = LF) || bool_decide (c = CR).

(** [s.split(/[\n\r]+/)]: the pieces of [s] between maximal runs of newline
    characters.  [in_run] tells that the character before was part of a
    separator.  A separator at the start or at the end leaves an empty
    piece there, and the empty string splits into one empty piece. *)
Fixpoint split_go (in_run : bool) (s : string) : list string :=
  match s with
  | EmptyString => [EmptyString]
  | String c r =>
      if is_newline c then
        if in_run then split_go true r
        else EmptyString :: split_go true r
      else
        match split_go false r with
        | piece :: pieces => String c piece :: pieces
        | [] => [String c EmptyString]
        end
  end.

Definition split_newlines (s : string) : list string := split_go false s.

(** [a[i]] for an integer [i]: [undefined] out of range. *)
Definition index_at (a : list string) (i : Z) : prim :=
  if i <? 0 then PUndefined
  else match a !! Z.to_nat i with
       | Some x => PStr x
       | None => PUndefined
       end.

(** [s.substr(n)]. *)
Fixpoint substr (n : nat) (s : string) : string :=
  match n, s with
  | O, _ => s
  | S n', String _ r => substr n' r
  | S _, EmptyString => EmptyString
  end.

(** [parts.join(sep)]. *)
Fixpoint join (sep : string) (parts : list string) : string :=
  match parts with
  | [] => ""
  | [p] => p
  | p :: ps => p +:+ sep +:+ join sep ps
  end.

(** ** The host's codecs

    [toUpperCase], [encodeURIComponent], the string coercion of a value and
    the JSON codec belong to the host.  The function uses them through their
    contracts only: [JSON_parse] fails ([None], a [SyntaxError]) on a text
    that is not JSON; [JSON_stringify] answers [undefined] ([None]) or a
    text, and on a value of type ["object"] a text that is not empty
    (["null"], or a text in braces). *)
Class Host := {
  toUpperCase : string -> string;
  encodeURIComponent : string -> string;
  ToString : value -> string;
  JSON_stringify : value -> option string;
  JSON_parse : string -> option value;
  JSON_stringify_object :
    forall v, typeof v = "object" ->
      exists t, JSON_stringify v = Some t /\ t <> ""
}.

(** ** Descriptors, objects and the heap *)

Definition loc := positive.

(** The fields of an options object, typed as the function documents them.
    [None] is a field that is not there ([undefined]); [headers] holds a
    reference to the headers object. *)
Record options := Options {
  method : option string;
  url : string;
  data : value;
  headers : option loc;
  contentType : option string;
  async : value;
  user : option string;
  password : option string;
  comet : value;
  cometPollRate : value
}.

(** [{ url: s }]. *)
Definition url_only (s : string) : options :=
  {| method := None; url := s; data := VUndefined; headers := None;
     contentType := None; async := VUndefined; user := None;
     password := None; comet := VUndefined; cometPollRate := VUndefined |}.

Definition set_headers (h : option loc) (o : options) : options :=
  {| method := method o; url := url o; data := data o; headers := h;
     contentType := contentType o; async := async o; user := user o;
     password := password o; comet := comet o;
     cometPollRate := cometPollRate o |}.

Definition set_data (d : value) (o : options) : options :=
  {| method := method o; url := url o; data := d; headers := headers o;
     contentType := contentType o; async := async o; user := user o;
     password := password o; comet := comet o;
     cometPollRate := cometPollRate o |}.

(** Objects that are shared with the caller live on the heap. *)
Inductive object :=
| OOptions (o : options)
| OHeaders (h : gmap string string).

(** The argument of [ajax]: a URL, or a reference to an options object. *)
Inductive descriptor :=
| DString (s : string)
| DObject (l : loc).

(** ** The request object, the promise and the effects *)

Inductive error :=
| Error (msg : string)
| TypeError (msg : string)
| SyntaxError (msg : string).

(** The fields of the [XMLHttpRequest] the function reads or writes.
    [responseContentType] is [getResponseHeader('Content-Type')], [None]
    being [null].  [responseJSON] and [responseComet] are the properties the
    function adds; [None] is a property that is not there.  With the default
    response type, [response] is [responseText]. *)
Record xhr := Xhr {
  readyState : Z;
  status : Z;
  statusText : string;
  responseText : string;
  responseContentType : option string;
  responseJSON : option value;
  responseComet : option string;
  requestHeaders : gmap string string;
  sendFlag : bool
}.

Definition new_XMLHttpRequest : xhr :=
  {| readyState := 0; status := 0; statusText := ""; responseText := "";
     responseContentType := None; responseJSON := None;
     responseComet := None; requestHeaders := ∅; sendFlag := false |}.

Inductive promise_state :=
| Pending
| Fulfilled (x : xhr)
| Rejected (e : error).

(** What the function does to its surroundings, in the order it does it. *)
Inductive effect :=
| EOpen (m u : string) (a : value) (usr pw : option string)
| ESetInterval (id : positive) (rate : value)
| ESend (payload : value)
| EClearInterval (id : positive)
| EComet (arg : prim)
| EResolve (x : xhr)
| EReject (e : error)
| EUncaught (e : error).

(** The state of one invocation: the heap, the request, the variables of
    the closure ([cometTimer], [cometLength], [lastLine]), the host's live
    interval and the callback given to it, the promise, and the effects so
    far (oldest first).  The callback of the interval is a closure of the
    function; what it does not share with the listener is the variable
    [options], so [callback] holds the options object that variable refers
    to. *)
Record state := State {
  heap : gmap loc object;
  req : xhr;
  cometTimer : option positive;
  cometLength : nat;
  lastLine : prim;
  interval : option positive;
  callback : option loc;
  promise : promise_state;
  trace : list effect
}.

Definition with_heap (h : gmap loc object) (s : state) : state :=
  {| heap := h; req := req s; cometTimer := cometTimer s;
     cometLength := cometLength s; lastLine := lastLine s;
     interval := interval s; callback := callback s;
     promise := promise s; trace := trace s |}.

Definition with_req (x : xhr) (s : state) : state :=
  {| heap := heap s; req := x; cometTimer := cometTimer s;
     cometLength := cometLength s; lastLine := lastLine s;
     interval := interval s; callback := callback s;
     promise := promise s; trace := trace s |}.

Definition with_cometTimer (t : option positive) (s : state) : state :=
  {| heap := heap s; req := req s; cometTimer := t;
     cometLength := cometLength s; lastLine := lastLine s;
     interval := interval s; callback := callback s;
     promise := promise s; trace := trace s |}.

Definition with_cometLength (n : nat) (s : state) : state :=
  {| heap := heap s; req := req s; cometTimer := cometTimer s;
     cometLength := n; lastLine := lastLine s;
     interval := interval s; callback := callback s;
     promise := promise s; trace := trace s |}.

Definition with_lastLine (p : prim) (s : state) : state :=
  {| heap := heap s; req := req s; cometTimer := cometTimer s;
     cometLength := cometLength s; lastLine := p;
     interval := interval s; callback := callback s;
     promise := promise s; trace := trace s |}.

Definition with_interval (i : option positive) (s : state) : state :=
  {| heap := heap s; req := req s; cometTimer := cometTimer s;
     cometLength := cometLength s; lastLine := lastLine s;
     interval := i; callback := callback s; promise := promise s;
     trace := trace s |}.

Definition with_callback (c : option loc) (s : state) : state :=
  {| heap := heap s; req := req s; cometTimer := cometTimer s;
     cometLength := cometLength s; lastLine := lastLine s;
     interval := interval s; callback := c; promise := promise s;
     trace := trace s |}.

Definition with_promise (p : promise_state) (s : state) : state :=
  {| heap := heap s; req := req s; cometTimer := cometTimer s;
     cometLength := cometLength s; lastLine := lastLine s;
     interval := interval s; callback := callback s; promise := p;
     trace := trace s |}.

Definition log (e : effect) (s : state) : state :=
  {| heap := heap s; req := req s; cometTimer := cometTimer s;
     cometLength := cometLength s; lastLine := lastLine s;
     interval := interval s; callback := callback s;
     promise := promise s;
     trace := trace s ++ [e] |}.

Definition set_readyState (n : Z) (x : xhr) : xhr :=
  {| readyState := n; status := status x; statusText := statusText x;
     responseText := responseText x;
     responseContentType := responseContentType x;
     responseJSON := responseJSON x; responseComet := responseComet x;
     requestHeaders := requestHeaders x; sendFlag := sendFlag x |}.

Definition set_response (st : Z) (txt : string) (ct : option string)
    (x : xhr) : xhr :=
  {| readyState := readyState x; status := st; statusText := txt;
     responseText := responseText x; responseContentType := ct;
     responseJSON := responseJSON x; responseComet := responseComet x;
     requestHeaders := requestHeaders x; sendFlag := sendFlag x |}.

Definition set_responseText (t : string) (x : xhr) : xhr :=
  {| readyState := readyState x; status := status x;
     statusText := statusText x; responseText := t;
     responseContentType := responseContentType x;
     responseJSON := responseJSON x; responseComet := responseComet x;
     requestHeaders := requestHeaders x; sendFlag := sendFlag x |}.

Definition set_responseJSON (v : option value) (x : xhr) : xhr :=
  {| readyState := readyState x; status := status x;
     statusText := statusText x; responseText := responseText x;
     responseContentType := responseContentType x;
     responseJSON := v; responseComet := responseComet x;
     requestHeaders := requestHeaders x; sendFlag := sendFlag x |}.

Definition set_responseComet (t : option string) (x : xhr) : xhr :=
  {| readyState := readyState x; status := status x;
     statusText := statusText x; responseText := responseText x;
     responseContentType := responseContentType x;
     responseJSON := responseJSON x; responseComet := t;
     requestHeaders := requestHeaders x; sendFlag := sendFlag x |}.

Definition set_requestHeaders (m : gmap string string) (x : xhr) : xhr :=
  {| readyState := readyState x; status := status x;
     statusText := statusText x; responseText := responseText x;
     responseContentType := responseContentType x;
     responseJSON := responseJSON x; responseComet := responseComet x;
     requestHeaders := m; sendFlag := sendFlag x |}.

Definition set_sendFlag (b : bool) (x : xhr) : xhr :=
  {| readyState := readyState x; status := status x;
     statusText := statusText x; responseText := responseText x;
     responseContentType := responseContentType x;
     responseJSON := responseJSON x; responseComet := responseComet x;
     requestHeaders := requestHeaders x; sendFlag := b |}.

(** ** The monad of the function's code: state and exceptions *)

Inductive outcome (A : Type) :=
| Ret (a : A)
| Throw (e : error).
Arguments Ret {A} a.
Arguments Throw {A} e.

Definition M (A : Type) : Type := state -> outcome A * state.

#[global] Instance M_ret : MRet M := fun A a s => (Ret a, s).

#[global] Instance M_bind : MBind M := fun A B f m s =>
  match m s with
  | (Ret a, s') => f a s'
  | (Throw e, s') => (Throw e, s')
  end.

Definition throw {A} (e : error) : M A := fun s => (Throw e, s).
Definition get : M state := fun s => (Ret s, s).
Definition modify (f : state -> state) : M unit := fun s => (Ret tt, f s).

(** *** Heap accesses *)

(** Reading through a reference that holds no object of the expected kind is
    a [TypeError], as a property access on [undefined] is. *)
Definition read_options (l : loc) : M options := fun s =>
  match heap s !! l with
  | Some (OOptions o) => (Ret o, s)
  | _ => (Throw (TypeError "options"), s)
  end.

Definition write_options (l : loc) (o : options) : M unit :=
  modify (fun s => with_heap (<[l := OOptions o]> (heap s)) s).

Definition read_headers (h : loc) : M (gmap string string) := fun s =>
  match heap s !! h with
  | Some (OHeaders m) => (Ret m, s)
  | _ => (Throw (TypeError "headers"), s)
  end.

Definition write_headers (h : loc) (m : gmap string string) : M unit :=
  modify (fun s => with_heap (<[h := OHeaders m]> (heap s)) s).

(** [options.headers = h] and [options.data = d], for the options object
    at [l]. *)
Definition assign_headers (l h : loc) : M unit :=
  o ← read_options l;
  write_options l (set_headers (Some h) o).

Definition assign_data (l : loc) (d : value) : M unit :=
  o ← read_options l;
  write_options l (set_data d o).

(** A new object, at a location of the heap that holds nothing. *)
Definition alloc (o : object) : M loc := fun s =>
  let l := fresh (dom (heap s)) in
  (Ret l, with_heap (<[l := o]> (heap s)) s).

(** [options.headers], which the following property access needs to be an
    object. *)
Definition headers_of (l : loc) : M loc :=
  o ← read_options l;
  match headers o with
  | Some h => mret h
  | None => throw (TypeError "headers of undefined")
  end.

(** *** The host's operations *)

Definition xhr_open (m u : string) (a : value) (usr pw : option string)
    : M unit :=
  modify (fun s => log (EOpen m u a usr pw)
                    (with_req (set_readyState 1 (req s)) s)).

(** [xhr.setRequestHeader(key, value)]. *)
Definition setRequestHeader (k v : string) : M unit :=
  modify (fun s =>
    with_req (set_requestHeaders (<[k := v]> (requestHeaders (req s)))
                (req s)) s).

(** [xhr.send(payload)]. *)
Definition xhr_send (payload : value) : M unit :=
  modify (fun s => log (ESend payload)
                    (with_req (set_sendFlag true (req s)) s)).

(** [setInterval(callback, rate)], for the callback whose [options] is the
    object at [l], the host answering the handle [id]. *)
Definition setInterval (l : loc) (id : positive) (rate : value)
    : M positive :=
  fun s => (Ret id, log (ESetInterval id rate)
                      (with_callback (Some l) (with_interval (Some id) s))).

(** [clearInterval(id)]. *)
Definition clearInterval (id : positive) : M unit :=
  modify (fun s =>
    log (EClearInterval id)
      (if bool_decide (interval s = Some id) then with_interval None s
       else s)).

(** [resolve(x)] and [reject(e)]: a promise settles once, later calls
    change nothing. *)
Definition settle (p : promise_state) (s : state) : state :=
  match promise s with
  | Pending => with_promise p s
  | _ => s
  end.

Definition resolve (x : xhr) : M unit :=
  modify (fun s => settle (Fulfilled x) (log (EResolve x) s)).

Definition reject (e : error) : M unit :=
  modify (fun s => settle (Rejected e) (log (EReject e) s)).

(** The entries of a string: its characters under their indices. *)
Fixpoint char_entries (i : nat) (s : string) : list (string * value) :=
  match s with
  | EmptyString => []
  | String c r =>
      (pretty i, VStr (String c EmptyString)) :: char_entries (S i) r
  end.

(** [Object.entries(v)]; it throws on [null] and [undefined]. *)
Definition Object_entries (v : value) : M (list (string * value)) :=
  match v with
  | VObj es => mret es
  | VPrim PNull | VPrim PUndefined =>
      throw (TypeError "Cannot convert undefined or null to object")
  | VPrim (PStr s) => mret (char_entries 0 s)
  | _ => mret []
  end.

(** ** The function *)

Section Ajax.
Context `{Host}.

(** [`${encodeURIComponent(key)}=${encodeURIComponent(value)}`]. *)
Definition encode_pair (kv : string * value) : string :=
  encodeURIComponent (fst kv) +:+ "=" +:+ encodeURIComponent (ToString (snd kv)).

(** [Object.entries(d).map(...).join('&')]. *)
Definition url_encode (entries : list (string * value)) : string :=
  join "&" (map encode_pair entries).

(** [options.headers['Content-Type'] == 'application/json']. *)
Definition content_type_is_json (l : loc) : M bool :=
  h ← headers_of l;
  m ← read_headers h;
  mret (bool_decide (m !! "Content-Type" = Some "application/json")).

(** [Object.keys(options.headers || {}).forEach(key => ...)]. *)
Definition apply_headers (m : gmap string string) : M unit :=
  map_fold (fun k v rest => setRequestHeader k v ;; rest) (mret tt) m.

(** [options.comet && options.comet.constructor === Function]. *)
Definition is_comet_callback (v : value) : bool :=
  truthy v && constructor_is_Function v.

(** The body of the promise executor, block by block, for the options
    object at [l]. *)

(** [xhr.open(...)].  The listener, which is attached by now, ignores the
    change to the ready state 1. *)
Definition open_request (l : loc) : M unit :=
  o ← read_options l;
  xhr_open (toUpperCase (str_or (method o) "GET")) (url o)
           (js_or (async o) (VBool true))
           (str_or_null (user o)) (str_or_null (password o)).

(** [if (typeof options.headers === 'undefined') options.headers = {};] *)
Definition default_headers (l : loc) : M unit :=
  o ← read_options l;
  match headers o with
  | None => h ← alloc (OHeaders ∅); assign_headers l h
  | Some _ => mret tt
  end.

(** [if (options.contentType)
       options.headers['Content-Type'] = options.contentType;] *)
Definition content_type_shorthand (l : loc) : M unit :=
  o ← read_options l;
  match contentType o with
  | Some ct =>
      if truthy (VStr ct) then
        h ← headers_of l;
        m ← read_headers h;
        write_headers h (<["Content-Type" := ct]> m)
      else mret tt
  | None => mret tt
  end.

(** [Object.keys(options.headers || {}).forEach(key => {
       xhr.setRequestHeader(key, options.headers[key]); });] *)
Definition set_request_headers (l : loc) : M unit :=
  o ← read_options l;
  m ← match headers o with
      | Some h => read_headers h
      | None => mret ∅
      end;
  apply_headers m.

(** The two ways to serialize a data object:
    [if (typeof options.data == 'object'
         && options.headers['Content-Type'] == 'application/json')]
    and
    [else if (typeof options.data == 'object'
              && !(options.data instanceof FormData))]. *)
Definition serialize_data (l : loc) : M unit :=
  o ← read_options l;
  json ← (if string_eqb (typeof (data o)) "object"
          then content_type_is_json l else mret false);
  if json : bool then
    assign_data l (opt_value (JSON_stringify (data o)))
  else if string_eqb (typeof (data o)) "object"
          && negb (instanceof_FormData (data o)) then
    es ← Object_entries (data o);
    assign_data l (VStr (url_encode es))
  else mret tt.

(** [if (options.comet && options.comet.constructor === Function)]: the
    interval is started; [tid] is the handle the host gives to it. *)
Definition start_comet (l : loc) (tid : positive) : M unit :=
  o ← read_options l;
  if is_comet_callback (comet o) then
    modify (with_lastLine PNull) ;;
    id ← setInterval l tid (js_or (cometPollRate o) (VNum 100));
    modify (with_cometTimer (Some id))
  else mret tt.

(** [xhr.send(options.data || null);] *)
Definition send_request (l : loc) : M unit :=
  o ← read_options l;
  xhr_send (js_or (data o) VNull).

Definition executor (l : loc) (tid : positive) : M unit :=
  open_request l ;;
  default_headers l ;;
  content_type_shorthand l ;;
  set_request_headers l ;;
  serialize_data l ;;
  start_comet l tid ;;
  send_request l.

(** [options.comet(line)], in the callback of the interval.  The value
    is read when the call is made; what is no function cannot be called.
    What a function of the caller does when it is called is the caller's:
    [r] is [None] if it returns, and [Some e] if it throws [e]. *)
Definition call_comet (line : prim) (r : option error) : M unit :=
  s ← get;
  o ← match callback s with
      | Some l => read_options l
      | None => throw (TypeError "options")
      end;
  if callable (comet o) then
    modify (log (EComet line)) ;;
    match r with
    | Some e => throw e
    | None => mret tt
    end
  else throw (TypeError "options.comet is not a function").

(** The interval callback of Comet mode.  An exception of the call leaves
    the callback before [lastLine = line]. *)
Definition comet_tick (r : option error) : M unit :=
  s ← get;
  modify (with_cometLength (String.length (responseText (req s)))) ;;
  let lines := split_newlines (responseText (req s)) in
  let line := index_at lines (Z.of_nat (length lines) - 2) in
  (if truthy_prim line && negb (strict_eq line (lastLine s))
   then call_comet line r
   else mret tt) ;;
  modify (with_lastLine line).

(** The [readystatechange] listener. *)
Definition on_readystatechange : M unit :=
  s ← get;
  if readyState (req s) =? 4 then
    match cometTimer s with
    | Some id =>
        clearInterval id ;;
        modify (fun s =>
          with_req (set_responseComet
                      (Some (substr (cometLength s) (responseText (req s))))
                      (req s)) s)
    | None => mret tt
    end ;;
    s ← get;
    if (200 <=? status (req s)) && (status (req s) <=? 299) then
      (if bool_decide (responseContentType (req s) = Some "application/json")
       then match JSON_parse (responseText (req s)) with
            | Some v =>
                modify (fun s =>
                  with_req (set_responseJSON (Some v) (req s)) s)
            | None => throw (SyntaxError "JSON.parse")
            end
       else mret tt) ;;
      s ← get;
      resolve (req s)
    else
      reject (Error (statusText (req s)))
  else mret tt.

(** *** The host *)

(** The state in which [ajax] starts: the caller's heap, a new request, the
    closure's variables as they are declared. *)
Definition initial (h : gmap loc object) : state :=
  {| heap := h; req := new_XMLHttpRequest; cometTimer := None;
     cometLength := 0%nat; lastLine := PNull; interval := None;
     callback := None; promise := Pending; trace := [] |}.

(** [ajax(options)]: the state when the call returns.  A string becomes a
    new options object; an exception of the executor rejects the promise. *)
Definition ajax (d : descriptor) (tid : positive) (h : gmap loc object)
    : state :=
  let body :=
    l ← match d with
        | DString u => alloc (OOptions (url_only u))
        | DObject l => mret l
        end;
    executor l tid in
  match body (initial h) with
  | (Ret _, s) => s
  | (Throw e, s) => settle (Rejected e) (log (EReject e) s)
  end.

(** The options object the call works on. *)
Definition target (d : descriptor) (h : gmap loc object) : loc :=
  match d with
  | DString _ => fresh (dom h)
  | DObject l => l
  end.

(** What the host delivers after the call: the interval firing, more
    response text, an intermediate change of the ready state, the end of the
    transaction with its status line and content type, or its failure in
    the network.  A tick comes with what the caller's Comet callback does
    if the tick calls it: it returns ([None]) or throws ([Some e]). *)
Inductive event :=
| EvTick (r : option error)
| EvData (chunk : string)
| EvReadyState (n : Z)
| EvDone (st : Z) (txt : string) (ct : option string)
| EvError.

(** A listener or a callback of an interval that throws leaves an uncaught
    exception with the host. *)
Definition fire (m : M unit) (s : state) : state :=
  match m s with
  | (Ret _, s') => s'
  | (Throw e, s') => log (EUncaught e) s'
  end.

(** The transaction is under way: sent, and not done. *)
Definition open_transaction (s : state) : bool :=
  sendFlag (req s) && (readyState (req s) <? 4).

(** The host's contract: the interval fires while it is live; the request
    receives text and changes state from [send] until it is done, and then
    no more. *)
Definition step (e : event) (s : state) : state :=
  match e with
  | EvTick r =>
      if bool_decide (interval s = None) then s else fire (comet_tick r) s
  | EvData chunk =>
      if open_transaction s then
        fire on_readystatechange
          (with_req (set_readyState 3
             (set_responseText (responseText (req s) +:+ chunk) (req s))) s)
      else s
  | EvReadyState n =>
      if open_transaction s && (n <? 4) then
        fire on_readystatechange (with_req (set_readyState n (req s)) s)
      else s
  | EvDone st txt ct =>
      if open_transaction s then
        fire on_readystatechange
          (with_req (set_readyState 4 (set_response st txt ct (req s))) s)
      else s
  | EvError =>
      if open_transaction s then
        fire on_readystatechange
          (with_req (set_readyState 4
             (set_responseText "" (set_response 0 "" None (req s)))) s)
      else s
  end.

Definition run (es : list event) (s : state) : state :=
  fold_left (fun s e => step e s) es s.

End Ajax.

(** ** A host to run the function on

    The codecs of a browser on ASCII texts, integers below [2^53] in
    magnitude, and the values above.  [JSON_parse] reads the JSON texts
    whose value is among them (no array, fraction, exponent, [\u] escape or
    key made of digits) and answers [None] on every other text. *)
Module Browser.

Definition DQ : ascii := ascii_of_nat 34.
Definition BSL : ascii := ascii_of_nat 92.

Definition code (c : ascii) : N := N_of_ascii c.

Definition between (lo hi : N) (c : ascii) : bool :=
  ((lo <=? code c) && (code c <=? hi))%N.

Definition is_lower (c : ascii) : bool := between 97 122 c.
Definition is_upper (c : ascii) : bool := between 65 90 c.
Definition is_digit (c : ascii) : bool := between 48 57 c.

Fixpoint upper (s : string) : string :=
  match s with
  | EmptyString => EmptyString
  | String c r =>
      String (if is_lower c then ascii_of_N (code c - 32) else c) (upper r)
  end.

Definition hex_digit (n : N) : ascii :=
  if (n <? 10)%N then ascii_of_N (48 + n) else ascii_of_N (55 + n).

(** [%XX] for the byte [b]. *)
Definition percent (b : N) : string :=
  String "%" (String (hex_digit (b / 16)) (String (hex_digit (b mod 16)) "")).

(** The characters [encodeURIComponent] keeps: letters, digits and
    [- _ . ! ~ * ' ( )]. *)
Definition is_unreserved (c : ascii) : bool :=
  is_lower c || is_upper c || is_digit c
  || bool_decide (code c ∈ [45; 95; 46; 33; 126; 42; 39; 40; 41]%N).

(** The bytes of a character in UTF-8. *)
Definition utf8 (c : ascii) : list N :=
  if (code c <? 128)%N then [code c]
  else [192 + code c / 64; 128 + code c mod 64]%N.

Fixpoint encode (s : string) : string :=
  match s with
  | EmptyString => EmptyString
  | String c r =>
      (if is_unreserved c then String c ""
       else String.concat "" (map percent (utf8 c))) +:+ encode r
  end.

Definition to_string (v : value) : string :=
  match v with
  | VPrim PUndefined => "undefined"
  | VPrim PNull => "null"
  | VPrim (PBool b) => if b then "true" else "false"
  | VPrim (PNum n) => pretty n
  | VPrim PNaN => "NaN"
  | VPrim (PStr s) => s
  | VObj _ => "[object Object]"
  | VFormData _ => "[object FormData]"
  | VFun name => "function " +:+ name +:+ "() { [native code] }"
  | VAsync name => "async function " +:+ name +:+ "() { [native code] }"
  | VFunction => "function Function() { [native code] }"
  end.

(** The text of a string in JSON. *)
Fixpoint quote_chars (s : string) : string :=
  match s with
  | EmptyString => EmptyString
  | String c r =>
      (if bool_decide (c = DQ) then String BSL (String DQ "")
       else if bool_decide (c = BSL) then String BSL (String BSL "")
       else if bool_decide (code c = 8%N) then String BSL "b"
       else if bool_decide (code c = 9%N) then String BSL "t"
       else if bool_decide (code c = 10%N) then String BSL "n"
       else if bool_decide (code c = 12%N) then String BSL "f"
       else if bool_decide (code c = 13%N) then String BSL "r"
       else if (code c <? 32)%N then
         String BSL ("u00" +:+ String (hex_digit (code c / 16))
                       (String (if (code c mod 16 <? 10)%N
                                then hex_digit (code c mod 16)
                                else ascii_of_N (87 + code c mod 16)) ""))
       else String c "") +:+ quote_chars r
  end.

Definition quote (s : string) : string :=
  String DQ (quote_chars s +:+ String DQ "").

(** [JSON.stringify(v)]: a property whose value has no JSON text is left
    out. *)
Fixpoint stringify (v : value) : option string :=
  match v with
  | VPrim PUndefined => None
  | VPrim PNull => Some "null"
  | VPrim (PBool b) => Some (if b then "true" else "false")
  | VPrim (PNum n) => Some (pretty n)
  | VPrim PNaN => Some "null"
  | VPrim (PStr s) => Some (quote s)
  | VObj es =>
      let members :=
        (fix go (es : list (string * value)) : list string :=
           match es with
           | [] => []
           | (k, v) :: r =>
               match stringify v with
               | Some t => (quote k +:+ ":" +:+ t) :: go r
               | None => go r
               end
           end) es in
      Some ("{" +:+ join "," members +:+ "}")
  | VFormData _ => Some "{}"
  | VFun _ | VAsync _ | VFunction => None
  end.

Definition is_space (c : ascii) : bool :=
  bool_decide (code c ∈ [32; 9; 10; 13]%N).

Fixpoint skip_space (s : string) : string :=
  match s with
  | String c r => if is_space c then skip_space r else s
  | EmptyString => EmptyString
  end.

Fixpoint digits (acc : Z) (s : string) : Z * string :=
  match s with
  | String c r =>
      if is_digit c then digits (acc * 10 + Z.of_N (code c - 48)) r
      else (acc, s)
  | EmptyString => (acc, EmptyString)
  end.

(** An integer: digits without a leading zero, and nothing of a fraction
    or an exponent behind them. *)
Definition unsigned (s : string) : option (Z * string) :=
  match s with
  | String c r =>
      if negb (is_digit c) then None
      else
        let '(n, rest) := digits 0 s in
        let leading_zero :=
          bool_decide (code c = 48%N)
          && match r with String d _ => is_digit d | _ => false end in
        let more :=
          match rest with
          | String d _ => bool_decide (code d ∈ [46; 101; 69]%N)
          | _ => false
          end in
        if leading_zero || more || (2 ^ 53 <? n) then None
        else Some (n, rest)
  | EmptyString => None
  end.

(** The characters of a string up to its closing quote. *)
Fixpoint string_body (s : string) : option (string * string) :=
  match s with
  | EmptyString => None
  | String c r =>
      if bool_decide (c = DQ) then Some (EmptyString, r)
      else if bool_decide (c = BSL) then
        match r with
        | String e r' =>
            let unescaped :=
              if bool_decide (e = DQ) then Some DQ
              else if bool_decide (e = BSL) then Some BSL
              else if bool_decide (e = "/"%char) then Some "/"%char
              else if bool_decide (e = "b"%char) then Some (ascii_of_N 8)
              else if bool_decide (e = "t"%char) then Some (ascii_of_N 9)
              else if bool_decide (e = "n"%char) then Some (ascii_of_N 10)
              else if bool_decide (e = "f"%char) then Some (ascii_of_N 12)
              else if bool_decide (e = "r"%char) then Some (ascii_of_N 13)
              else None in
            match unescaped, string_body r' with
            | Some u, Some (t, rest) => Some (String u t, rest)
            | _, _ => None
            end
        | EmptyString => None
        end
      else if (code c <? 32)%N || (127 <? code c)%N then None
      else
        match string_body r with
        | Some (t, rest) => Some (String c t, rest)
        | None => None
        end
  end.

Fixpoint all_digits (s : string) : bool :=
  match s with
  | EmptyString => true
  | String c r => is_digit c && all_digits r
  end.

(** [o[k] = v]: a key that is there keeps its place. *)
Fixpoint put (k : string) (v : value) (es : list (string * value))
    : list (string * value) :=
  match es with
  | [] => [(k, v)]
  | (k', v') :: r =>
      if string_eqb k k' then (k, v) :: r else (k', v') :: put k v r
  end.

Definition literal (word : string) (v : value) (s : string)
    : option (value * string) :=
  if String.prefix word s
  then Some (v, substr (String.length word) s)
  else None.

(** The members of an object after its opening brace, [pv] reading a
    value. *)
Fixpoint members (pv : string -> option (value * string)) (fuel : nat)
    (acc : list (string * value)) (s : string) : option (value * string) :=
  match fuel with
  | O => None
  | S f =>
      match skip_space s with
      | String c r =>
          if negb (bool_decide (c = DQ)) then None
          else
            match string_body r with
            | Some (k, r1) =>
                if all_digits k then None
                else
                  match skip_space r1 with
                  | String ":" r2 =>
                      match pv r2 with
                      | Some (v, r3) =>
                          match skip_space r3 with
                          | String "," r4 => members pv f (put k v acc) r4
                          | String "}" r4 => Some (VObj (put k v acc), r4)
                          | _ => None
                          end
                      | None => None
                      end
                  | _ => None
                  end
            | None => None
            end
      | EmptyString => None
      end
  end.

Fixpoint parse_value (fuel : nat) (s : string) : option (value * string) :=
  match fuel with
  | O => None
  | S f =>
      match skip_space s with
      | String c r =>
          if bool_decide (c = DQ) then
            match string_body r with
            | Some (t, rest) => Some (VStr t, rest)
            | None => None
            end
          else if bool_decide (c = "{"%char) then
            match skip_space r with
            | String "}" rest => Some (VObj [], rest)
            | _ => members (parse_value f) f [] r
            end
          else if bool_decide (c = "-"%char) then
            match unsigned r with
            | Some (n, rest) => Some (VNum (- n), rest)
            | None => None
            end
          else if is_digit c then
            match unsigned (String c r) with
            | Some (n, rest) => Some (VNum n, rest)
            | None => None
            end
          else
            match literal "null" VNull (String c r) with
            | Some a => Some a
            | None =>
                match literal "true" (VBool true) (String c r) with
                | Some a => Some a
                | None => literal "false" (VBool false) (String c r)
                end
            end
      | EmptyString => None
      end
  end.

(** [JSON.parse(s)]. *)
Definition parse (s : string) : option value :=
  match parse_value (S (String.length s)) s with
  | Some (v, rest) =>
      if string_eqb (skip_space rest) "" then Some v else None
  | None => None
  end.

End Browser.

(** The browser's codecs as a host; its JSON text of a value of type
    ["object"] is ["null"] or starts with a brace. *)
#[global, refine] Instance browser : Host := {|
  toUpperCase := Browser.upper;
  encodeURIComponent := Browser.encode;
  ToString := Browser.to_string;
  JSON_stringify := Browser.stringify;
  JSON_parse := Browser.parse;
  JSON_stringify_object := _
|}.
Proof.
  intros v. destruct v as [[| | | | |]| | | | |]; simpl; try discriminate;
    intros _; eexists; (split; [reflexivity | discriminate]).
Defined.

(** ** What a trace shows *)

(** The calls of [resolve] and [reject], as the outcomes they ask for. *)
Definition settlements (tr : list effect) : list promise_state :=
  omap (fun e => match e with
                 | EResolve x => Some (Fulfilled x)
                 | EReject e => Some (Rejected e)
                 | _ => None
                 end) tr.

(** The arguments of the calls of the Comet callback. *)
Definition comet_args (tr : list effect) : list prim :=
  omap (fun e => match e with EComet a => Some a | _ => None end) tr.

(** The payloads given to [send]. *)
Definition payloads (tr : list effect) : list value :=
  omap (fun e => match e with ESend p => Some p | _ => None end) tr.

(** The async flags given to [open]. *)
Definition async_flags (tr : list effect) : list value :=
  omap (fun e => match e with EOpen _ _ a _ _ => Some a | _ => None end) tr.

(** The uncaught exceptions. *)
Definition faults (tr : list effect) : list error :=
  omap (fun e => match e with EUncaught e => Some e | _ => None end) tr.

(** The element of the split the interval callback looks at:
    [lines[lines.length-2]]. *)
Definition second_to_last (text : string) : prim :=
  index_at (split_newlines text)
           (Z.of_nat (length (split_newlines text)) - 2).

(** No two successive elements are the same. *)
Definition no_repeat (l : list prim) : Prop :=
  forall i a b, l !! i = Some a -> l !! S i = Some b -> a <> b.

(** In a trace, every interval that was set is cleared before the promise
    is settled, and the Comet callback is not called after that. *)
Definition settles_after_clearing (tr : list effect) : Prop :=
  forall pre e post,
    tr = pre ++ e :: post ->
    settlements [e] <> [] ->
    (forall id rate, ESetInterval id rate ∈ tr -> EClearInterval id ∈ pre)
    /\ comet_args post = [].

(** A successful status. *)
Definition is_success (st : Z) : bool := (200 <=? st) && (st <=? 299).

(** A successful response that declares JSON and whose body is none. *)
Definition json_fault `{Host} (x : xhr) : Prop :=
  is_success (status x) = true
  /\ responseContentType x = Some "application/json"
  /\ JSON_parse (responseText x) = None.

(** The options object and the headers it refers to are on the heap; [m]
    is the headers as the caller supplied them, empty if there are none. *)
Definition supplied (h : gmap loc object) (l : loc) (o : options)
    (m : gmap string string) : Prop :=
  h !! l = Some (OOptions o) /\
  match headers o with
  | Some hl => h !! hl = Some (OHeaders m)
  | None => m = ∅
  end.

(** The headers once the shorthand is applied. *)
Definition active_headers (o : options) (m : gmap string string)
    : gmap string string :=
  match contentType o with
  | Some ct => if truthy (VStr ct) then <["Content-Type" := ct]> m else m
  | None => m
  end.

(** The headers object the function works on: the caller's, or a new
    one. *)
Definition headers_loc (h : gmap loc object) (o : options) : loc :=
  match headers o with
  | Some hl => hl
  | None => fresh (dom h)
  end.

(** ** What the proofs speak of *)

(** A call of [open]. *)
Definition is_open (e : effect) : Prop :=
  match e with EOpen _ _ _ _ _ => True | _ => False end.

(** [s'] comes from [s] by steps that touch nothing but the heap, the
    ready state and the request headers, and call nothing but [open]. *)
Record quiet (s s' : state) : Prop := Quiet {
  quiet_interval : interval s' = interval s;
  quiet_timer : cometTimer s' = cometTimer s;
  quiet_length : cometLength s' = cometLength s;
  quiet_line : lastLine s' = lastLine s;
  quiet_promise : promise s' = promise s;
  quiet_send : sendFlag (req s') = sendFlag (req s);
  quiet_text : responseText (req s') = responseText (req s);
  quiet_json : responseJSON (req s') = responseJSON (req s);
  quiet_comet : responseComet (req s') = responseComet (req s);
  quiet_ready :
    readyState (req s') = readyState (req s) \/ readyState (req s') = 1;
  quiet_trace : exists opens,
    trace s' = trace s ++ opens /\ Forall is_open opens
}.

(** A computation that takes such steps only, whether it returns or
    throws. *)
Definition within {A} (m : M A) : Prop := forall s, quiet s (m s).2.

(** [options.comet], as the callback of the interval finds it. *)
Definition comet_of (s : state) : option value :=
  match callback s with
  | Some l =>
      match heap s !! l with
      | Some (OOptions o) => Some (comet o)
      | _ => None
      end
  | None => None
  end.

(** The [TypeError] of a call of what is no function. *)
Definition not_a_function : error :=
  TypeError "options.comet is not a function".

(** An event in which the caller's callback does not throw. *)
Definition tick_returns (e : event) : Prop :=
  match e with
  | EvTick (Some _) => False
  | _ => True
  end.

(** The state the callback of the interval leaves. *)
Definition ticked (r : option error) (s : state) : state :=
  let line := second_to_last (responseText (req s)) in
  let s1 := with_cometLength (String.length (responseText (req s))) s in
  if truthy_prim line && negb (strict_eq line (lastLine s)) then
    match comet_of s with
    | Some v =>
        if callable v then
          match r with
          | None => with_lastLine line (log (EComet line) s1)
          | Some e => log (EUncaught e) (log (EComet line) s1)
          end
        else log (EUncaught not_a_function) s1
    | None => log (EUncaught (TypeError "options")) s1
    end
  else with_lastLine line s1.

(** An invocation that is under way: the request is sent and not done,
    the promise is pending, the interval is the one of [cometTimer], and
    its callback finds the value that has started it. *)
Record active `{Host} (s : state) : Prop := Active {
  active_open : open_transaction s = true;
  active_pending : promise s = Pending;
  active_unsettled : settlements (trace s) = [];
  active_json : responseJSON (req s) = None;
  active_timer : interval s = cometTimer s;
  active_set : forall id rate,
    ESetInterval id rate ∈ trace s -> cometTimer s = Some id;
  active_comet : interval s <> None ->
    exists v, comet_of s = Some v /\ is_comet_callback v = true
}.

(** While every call of the callback returns, [lastLine] is the line
    delivered last, if one was, and no line is delivered twice in a row. *)
Record orderly (s : state) : Prop := Orderly {
  orderly_norepeat : no_repeat (comet_args (trace s));
  orderly_last : forall a,
    last (comet_args (trace s)) = Some a ->
    lastLine s = a /\
    truthy_prim (second_to_last (responseText (req s))) = true;
  orderly_none : comet_args (trace s) = [] -> truthy_prim (lastLine s) = false
}.

(** An invocation that is over: no transaction under way, no interval,
    and a promise settled once or, after the parser's exception, not at
    all. *)
Record finished `{Host} (s : state) : Prop := Finished {
  finished_closed : open_transaction s = false;
  finished_interval : interval s = None;
  finished_once : (length (settlements (trace s)) <= 1)%nat;
  finished_promise :
    promise s = default Pending (head (settlements (trace s)));
  finished_order : settles_after_clearing (trace s);
  finished_fault :
    readyState (req s) = 4 -> json_fault (req s) ->
    settlements (trace s) = []
    /\ last (trace s) = Some (EUncaught (SyntaxError "JSON.parse"));
  finished_clean :
    readyState (req s) = 4 -> ~ json_fault (req s) ->
    length (settlements (trace s)) = 1%nat
}.

(** The effects of the listener at the ready state 4: the interval is
    cleared if there is one, then the promise is settled or the parser's
    exception escapes. *)
Definition clears (s : state) : list effect :=
  match cometTimer s with
  | Some id => [EClearInterval id]
  | None => []
  end.

(** [responseComet] as the listener leaves it. *)
Definition comet_tail (s : state) (x : xhr) : option string :=
  match cometTimer s with
  | Some _ => Some (substr (cometLength s) (responseText x))
  | None => responseComet x
  end.

(** The states the last two blocks lead to. *)
Definition started (l : loc) (tid : positive) (o : options) (s : state)
    : state :=
  if is_comet_callback (comet o) then
    with_cometTimer (Some tid)
      (log (ESetInterval tid (js_or (cometPollRate o) (VNum 100)))
         (with_callback (Some l)
            (with_interval (Some tid) (with_lastLine PNull s))))
  else s.

(** The state [send] leaves. *)
Definition sent (o : options) (s : state) : state :=
  log (ESend (js_or (data o) VNull)) (with_req (set_sendFlag true (req s)) s).

(** The heap the executor starts on. *)
Definition entry_heap (d : descriptor) (h : gmap loc object)
    : gmap loc object :=
  match d with
  | DString u => <[fresh (dom h) := OOptions (url_only u)]> h
  | DObject _ => h
  end.

(** The state [open] leaves. *)
Definition opened `{Host} (o : options) (s : state) : state :=
  log (EOpen (toUpperCase (str_or (method o) "GET")) (url o)
             (js_or (async o) (VBool true))
             (str_or_null (user o)) (str_or_null (password o)))
      (with_req (set_readyState 1 (req s)) s).

(** The data once the serialization block is through; [None] where the
    block throws. *)
Definition serialized `{Host} (d : value) (m : gmap string string)
    : option value :=
  if string_eqb (typeof d) "object"
     && bool_decide (m !! "Content-Type" = Some "application/json")
  then Some (opt_value (JSON_stringify d))
  else if string_eqb (typeof d) "object" && negb (instanceof_FormData d)
  then match d with
       | VObj es => Some (VStr (url_encode es))
       | _ => None
       end
  else Some d.

(** The options object at [l] refers to the headers at [hl]. *)
Record view (hp : gmap loc object) (l : loc) (o : options) (hl : loc)
    (m : gmap string string) : Prop := View {
  view_options : hp !! l = Some (OOptions o);
  view_ref : headers o = Some hl;
  view_headers : hp !! hl = Some (OHeaders m)
}.

(** Nothing but the two objects has changed. *)
Definition frame (l hl : loc) (hp hp' : gmap loc object) : Prop :=
  forall l', l' <> l -> l' <> hl -> hp' !! l' = hp !! l'.

(** The options object once the call is through. *)
Definition options_after (h : gmap loc object) (o : options) (d : value)
    : options :=
  set_data d (set_headers (Some (headers_loc h o)) o).

(** The effects of a call that does not throw. *)
Definition call_trace `{Host} (tid : positive) (o : options) (d : value)
    : list effect :=
  [EOpen (toUpperCase (str_or (method o) "GET")) (url o)
         (js_or (async o) (VBool true))
         (str_or_null (user o)) (str_or_null (password o))]
  ++ (if is_comet_callback (comet o)
      then [ESetInterval tid (js_or (cometPollRate o) (VNum 100))]
      else [])
  ++ [ESend (js_or d VNull)].

(** The options object a descriptor stands for. *)
Definition describes (d : descriptor) (h : gmap loc object) (o : options)
    : Prop :=
  match d with
  | DString u => o = url_only u
  | DObject l => h !! l = Some (OOptions o)
  end.

(** The events that end a transaction. *)
Definition is_terminal (e : event) : Prop :=
  match e with
  | EvDone _ _ _ | EvError => True
  | _ => False
  end.

(** A header of a headers object on the heap. *)
Definition header_at (hp : gmap loc object) (hl : loc) (k : string)
    : option string :=
  match hp !! hl with
  | Some (OHeaders m) => m !! k
  | _ => None
  end.

(** The data field of an options object on the heap. *)
Definition data_at (hp : gmap loc object) (l : loc) : option value :=
  match hp !! l with
  | Some (OOptions o) => Some (data o)
  | _ => None
  end.

(** ** Inputs to run the function on *)

(** A line break. *)
Definition nl : string := String LF "".

(** [{ url: '/feed', method: 'post', data: {foo: "a b", bar: 2},
       async: false, comet: line => ... }] *)
Definition feed : options :=
  {| method := Some "post"; url := "/feed";
     data := VObj [("foo", VStr "a b"); ("bar", VNum 2)];
     headers := None; contentType := None; async := VBool false;
     user := None; password := None; comet := VFun "line";
     cometPollRate := VUndefined |}.

(** The caller's heap: that object at 1. *)
Definition feed_heap : gmap loc object := {[ 1%positive := OOptions feed ]}.

(** [{ url: '/form', data: d, headers: { 'Content-Type': t },
       contentType: c }], the headers object at 2. *)
Definition form (d : value) (c : option string) : options :=
  {| method := None; url := "/form"; data := d;
     headers := Some 2%positive; contentType := c; async := VUndefined;
     user := None; password := None; comet := VUndefined;
     cometPollRate := VUndefined |}.

(** The caller's heap: that object at 1, its headers at 2. *)
Definition form_heap (d : value) (t : string) (c : option string)
    : gmap loc object :=
  {[ 1%positive := OOptions (form d c);
     2%positive := OHeaders {[ "Content-Type" := t ]} ]}.

(** [{ url: '/poll', comet: c }], and the caller's heap with that object
    at 1. *)
Definition poll (c : value) : options :=
  {| method := None; url := "/poll"; data := VUndefined; headers := None;
     contentType := None; async := VUndefined; user := None;
     password := None; comet := c; cometPollRate := VUndefined |}.

Definition poll_heap (c : value) : gmap loc object :=
  {[ 1%positive := OOptions (poll c) ]}.

(** [{ url: '/x', async: a }]. *)
Definition with_async (a : value) : options :=
  {| method := None; url := "/x"; data := VUndefined; headers := None;
     contentType := None; async := a; user := None; password := None;
     comet := VUndefined; cometPollRate := VUndefined |}.

(** Two lines and the start of a third have arrived, and the interval has
    fired once. *)
Definition two_lines : list event :=
  [EvData ("one" +:+ nl); EvTick None; EvData ("two" +:+ nl +:+ "thr")].

(** One line has arrived. *)
Definition one_line : list event := [EvData ("one" +:+ nl)].

(** A line and the start of the next arrive. *)
Definition more_text : list event :=
  [EvData ("two" +:+ nl); EvReadyState 3; EvData "thr"].

(** Two lines and the start of a third arrive at once. *)
Definition lines_at_once : list event :=
  [EvData ("one" +:+ nl +:+ "two" +:+ nl +:+ "thr")].

(** Two options objects, at 1 and 3, that refer to the headers at 2: the
    first has the shorthand [application/json], the second has none. *)
Definition shared_heap : gmap loc object :=
  <[ 3%positive := OOptions (form (VObj [("a", VNum 1)]) None) ]>
    (form_heap (VStr "x") "text/plain" (Some "application/json")).

(** The text [{"a":1}]. *)
Definition a_is_1 : string :=
  "{" +:+ String Browser.DQ ("a" +:+ String Browser.DQ ":1}").

(** ** Version 1.0

    The function of [ajax.js], before Comet support: the same blocks,
    without the one that starts the interval in the executor and the one
    that clears it in the listener.  The variables of the later closure
    stay as [initial] has them. *)

Section AjaxV1.
Context `{Host}.

Definition executor_v1 (l : loc) : M unit :=
  open_request l ;;
  default_headers l ;;
  content_type_shorthand l ;;
  set_request_headers l ;;
  serialize_data l ;;
  send_request l.

(** The [readystatechange] listener of version 1.0. *)
Definition on_readystatechange_v1 : M unit :=
  s ← get;
  if readyState (req s) =? 4 then
    if (200 <=? status (req s)) && (status (req s) <=? 299) then
      (if bool_decide (responseContentType (req s) = Some "application/json")
       then match JSON_parse (responseText (req s)) with
            | Some v =>
                modify (fun s =>
                  with_req (set_responseJSON (Some v) (req s)) s)
            | None => throw (SyntaxError "JSON.parse")
            end
       else mret tt) ;;
      s ← get;
      resolve (req s)
    else
      reject (Error (statusText (req s)))
  else mret tt.

Definition ajax_v1 (d : descriptor) (h : gmap loc object) : state :=
  let body :=
    l ← match d with
        | DString u => alloc (OOptions (url_only u))
        | DObject l => mret l
        end;
    executor_v1 l in
  match body (initial h) with
  | (Ret _, s) => s
  | (Throw e, s) => settle (Rejected e) (log (EReject e) s)
  end.

(** The host of version 1.0 has no interval to fire. *)
Definition step_v1 (e : event) (s : state) : state :=
  match e with
  | EvTick _ => s
  | EvData chunk =>
      if open_transaction s then
        fire on_readystatechange_v1
          (with_req (set_readyState 3
             (set_responseText (responseText (req s) +:+ chunk) (req s))) s)
      else s
  | EvReadyState n =>
      if open_transaction s && (n <? 4) then
        fire on_readystatechange_v1 (with_req (set_readyState n (req s)) s)
      else s
  | EvDone st txt ct =>
      if open_transaction s then
        fire on_readystatechange_v1
          (with_req (set_readyState 4 (set_response st txt ct (req s))) s)
      else s
  | EvError =>
      if open_transaction s then
        fire on_readystatechange_v1
          (with_req (set_readyState 4
             (set_responseText "" (set_response 0 "" None (req s)))) s)
      else s
  end.

Definition run_v1 (es : list event) (s : state) : state :=
  fold_left (fun s e => step_v1 e s) es s.

End AjaxV1.

(** ** More to say about runs *)

(** The text the events bring. *)
Fixpoint arrived (es : list event) : string :=
  match es with
  | [] => ""
  | EvData chunk :: es => chunk +:+ arrived es
  | _ :: es => arrived es
  end.

(** The events that are no tick of the interval. *)
Definition is_no_tick (e : event) : Prop :=
  match e with EvTick _ => False | _ => True end.

(** A text without a newline character. *)
Fixpoint newline_free (s : string) : bool :=
  match s with
  | EmptyString => true
  | String c r => negb (is_newline c) && newline_free r
  end.

(** A text of newline characters only. *)
Fixpoint all_newlines (s : string) : bool :=
  match s with
  | EmptyString => true
  | String c r => is_newline c && all_newlines r
  end.

(** A text after which a line starts: the empty text, or one that ends in
    a newline character. *)
Fixpoint line_start (s : string) : bool :=
  match s with
  | EmptyString => true
  | String c r =>
      match r with
      | EmptyString => is_newline c
      | String _ _ => line_start r
      end
  end.

(** What a settled promise tells. *)
Definition sound_outcome `{Host} (s : state) : Prop :=
  match promise s with
  | Pending => True
  | Fulfilled x =>
      x = req s /\ readyState x = 4 /\ is_success (status x) = true
      /\ (responseContentType x = Some "application/json" ->
          responseJSON x = JSON_parse (responseText x)
          /\ responseJSON x <> None)
      /\ (responseContentType x <> Some "application/json" ->
          responseJSON x = None)
  | Rejected e =>
      sendFlag (req s) = false
      \/ (readyState (req s) = 4 /\ is_success (status (req s)) = false
          /\ e = Error (statusText (req s)))
  end.

(** The error of [Object.entries(null)]. *)
Definition entries_of_null : error :=
  TypeError "Cannot convert undefined or null to object".

(** * Properties *)

(** ** Splitting a text that grows *)

Section Split.

Lemma split_go_nonempty b s : split_go b s <> [].
Proof.
  revert b; induction s as [|c r IH]; intros b; simpl; [done|].
  destruct (is_newline c); [destruct b; [apply IH | done]|].
  destruct (split_go false r); done.
Qed.




Lemma index_at_second_to_last (a : list string) x :
  index_at a (Z.of_nat (length a) - 2) = PStr x <->
  exists n, length a = S (S n) /\ a !! n = Some x.
Proof.
  unfold index_at. split.
  - destruct (Z.ltb_spec (Z.of_nat (length a) - 2) 0); [done|].
    destruct (a !! Z.to_nat (Z.of_nat (length a) - 2)) eqn:E; [|done].
    intros [= ->]. exists (Z.to_nat (Z.of_nat (length a) - 2)).
    split; [lia | done].
  - intros (n & Hlen & Hn). rewrite Hlen.
    destruct (Z.ltb_spec (Z.of_nat (S (S n)) - 2) 0); [lia|].
    replace (Z.to_nat (Z.of_nat (S (S n)) - 2)) with n by lia.
    by rewrite Hn.
Qed.

Lemma index_at_cases (a : list string) i :
  index_at a i = PUndefined \/ exists x, index_at a i = PStr x.
Proof.
  unfold index_at. destruct (i <? 0); [by left|].
  destruct (a !! Z.to_nat i); [right; eauto | by left].
Qed.

Lemma truthy_prim_str (p : prim) :
  (exists x, p = PStr x /\ x <> "") -> truthy_prim p = true.
Proof.
  intros (x & -> & Hx). simpl. unfold string_eqb.
  by rewrite bool_decide_eq_false_2.
Qed.

Lemma second_to_last_truthy text :
  truthy_prim (second_to_last text) = true <->
  exists x, second_to_last text = PStr x /\ x <> "".
Proof.
  split; [|apply truthy_prim_str].
  unfold second_to_last.
  destruct (index_at_cases (split_newlines text)
              (Z.of_nat (length (split_newlines text)) - 2)) as [->|[x ->]];
    simpl; [done|].
  unfold string_eqb. case_bool_decide; [done|]. eauto.
Qed.


End Split.

(** ** The executor up to the start of the interval

    The first five blocks touch the heap, the ready state and the request
    headers, and call nothing but [open]. *)

Lemma quiet_refl s : quiet s s.
Proof. split; try done; [by left|]. exists []. by rewrite app_nil_r. Qed.

Lemma quiet_trans s1 s2 s3 : quiet s1 s2 -> quiet s2 s3 -> quiet s1 s3.
Proof.
  intros [? ? ? ? ? ? ? ? ? R1 (o1 & T1 & F1)]
         [? ? ? ? ? ? ? ? ? R2 (o2 & T2 & F2)].
  split; try congruence.
  - destruct R2 as [R2|R2]; [rewrite R2; exact R1 | by right].
  - exists (o1 ++ o2). split; [by rewrite T2, T1, app_assoc|].
    by apply Forall_app.
Qed.

Lemma within_bind {A B} (m : M A) (f : A -> M B) :
  within m -> (forall a, within (f a)) -> within (m ≫= f).
Proof.
  intros Hm Hf s. specialize (Hm s). unfold mbind, M_bind.
  destruct (m s) as [[a|e] s']; simpl in *; [|done].
  eapply quiet_trans; [exact Hm | apply Hf].
Qed.

Lemma within_ret {A} (a : A) : within (mret a).
Proof. intros s. apply quiet_refl. Qed.

Lemma within_throw {A} e : within (@throw A e).
Proof. intros s. apply quiet_refl. Qed.

Lemma within_heap (g : state -> gmap loc object) :
  within (modify (fun s => with_heap (g s) s)).
Proof.
  intros s. split; try done; [by left|]. exists []. by rewrite app_nil_r.
Qed.

Lemma within_read_options l : within (read_options l).
Proof.
  intros s. unfold read_options.
  destruct (heap s !! l) as [[]|]; apply quiet_refl.
Qed.

Lemma within_read_headers h : within (read_headers h).
Proof.
  intros s. unfold read_headers.
  destruct (heap s !! h) as [[]|]; apply quiet_refl.
Qed.

Lemma within_alloc o : within (alloc o).
Proof.
  intros s. split; try done; [by left|]. exists []. by rewrite app_nil_r.
Qed.

Lemma within_xhr_open m u a usr pw : within (xhr_open m u a usr pw).
Proof.
  intros s. split; try done; [by right|]. exists [EOpen m u a usr pw].
  split; [done|]. by repeat constructor.
Qed.

Lemma within_setRequestHeader k v : within (setRequestHeader k v).
Proof.
  intros s. split; try done; [by left|]. exists []. by rewrite app_nil_r.
Qed.

Lemma within_Object_entries v : within (Object_entries v).
Proof.
  intros s. destruct v as [[| | | | |]| | | | |]; apply quiet_refl.
Qed.

Create HintDb within.

#[local] Hint Resolve within_ret within_throw within_heap
  within_read_options within_read_headers within_alloc within_xhr_open
  within_setRequestHeader within_Object_entries : within.

Ltac within_steps :=
  repeat first
    [ apply within_bind; [|intros ?]
    | solve [eauto with within]
    | match goal with
      | |- within (match ?x with _ => _ end) => destruct x
      | |- within (if ?x then _ else _) => destruct x
      end ].

Section Quiet.
Context `{Host}.

Lemma within_write_options l o : within (write_options l o).
Proof. apply within_heap. Qed.

Lemma within_write_headers h m : within (write_headers h m).
Proof. apply within_heap. Qed.

Lemma within_assign_headers l h : within (assign_headers l h).
Proof. unfold assign_headers. within_steps. Qed.

Lemma within_assign_data l d : within (assign_data l d).
Proof. unfold assign_data. within_steps. Qed.

Lemma within_headers_of l : within (headers_of l).
Proof. unfold headers_of. within_steps. Qed.

#[local] Hint Resolve within_write_options within_write_headers
  within_assign_headers within_assign_data within_headers_of : within.

Lemma within_content_type_is_json l : within (content_type_is_json l).
Proof. unfold content_type_is_json. within_steps. Qed.

Lemma within_apply_headers m : within (apply_headers m).
Proof.
  unfold apply_headers.
  apply (map_fold_weak_ind (fun r _ => within r)); [apply within_ret|].
  intros k v m' r _ IH. within_steps.
Qed.

#[local] Hint Resolve within_content_type_is_json within_apply_headers
  : within.

Lemma within_open_request l : within (open_request l).
Proof. unfold open_request. within_steps. Qed.

Lemma within_default_headers l : within (default_headers l).
Proof. unfold default_headers. within_steps. Qed.

Lemma within_content_type_shorthand l : within (content_type_shorthand l).
Proof. unfold content_type_shorthand. within_steps. Qed.

Lemma within_set_request_headers l : within (set_request_headers l).
Proof. unfold set_request_headers. within_steps. Qed.

Lemma within_serialize_data l : within (serialize_data l).
Proof. unfold serialize_data. within_steps. Qed.

End Quiet.

(** ** The states an invocation goes through

    After the call an invocation is under way, until the transaction is
    done; then, or when the executor has thrown, it is over and nothing
    changes any more. *)

Section Lifecycle.
Context `{Host}.

#[local] Arguments second_to_last : simpl never.

Lemma no_repeat_nil : no_repeat [].
Proof. intros i a b Hi. by rewrite lookup_nil in Hi. Qed.


Lemma settlements_app t1 t2 :
  settlements (t1 ++ t2) = settlements t1 ++ settlements t2.
Proof. apply omap_app. Qed.

Lemma comet_args_app t1 t2 :
  comet_args (t1 ++ t2) = comet_args t1 ++ comet_args t2.
Proof. apply omap_app. Qed.

Lemma payloads_app t1 t2 : payloads (t1 ++ t2) = payloads t1 ++ payloads t2.
Proof. apply omap_app. Qed.

Lemma async_flags_app t1 t2 :
  async_flags (t1 ++ t2) = async_flags t1 ++ async_flags t2.
Proof. apply omap_app. Qed.

Lemma faults_app t1 t2 : faults (t1 ++ t2) = faults t1 ++ faults t2.
Proof. apply omap_app. Qed.

(** Once an invocation is over, no event changes its state. *)
Lemma finished_step s e : finished s -> step e s = s.
Proof.
  intros [Hc Hi _ _ _ _ _]. destruct e; simpl; rewrite ?Hc, ?Hi; done.
Qed.

Lemma finished_run s es : finished s -> run es s = s.
Proof.
  intros Hs. induction es as [|e es IH]; simpl; [done|].
  by rewrite finished_step.
Qed.

Lemma strict_eq_true a b :
  truthy_prim a = true -> strict_eq a b = true -> a = b.
Proof.
  destruct a, b; simpl; try done.
  - intros _ Hb. apply Bool.eqb_prop in Hb. by subst.
  - intros _ Hn. apply Z.eqb_eq in Hn. by subst.
  - unfold string_eqb. intros _ Hs. case_bool_decide; by subst.
Qed.

Lemma strict_eq_refl_str x : strict_eq (PStr x) (PStr x) = true.
Proof. simpl. unfold string_eqb. by rewrite bool_decide_eq_true_2. Qed.

(** The interval callback, in terms of the element it looks at. *)
Lemma comet_tick_unfold s r : fire (comet_tick r) s = ticked r s.
Proof.
  unfold fire, comet_tick, call_comet, ticked, comet_of, read_options,
    second_to_last, not_a_function, mbind, M_bind, get, modify, throw,
    mret, M_ret.
  simpl.
  destruct (truthy_prim _ && negb _); [|done]. simpl.
  destruct (callback s) as [l|]; [|done]. simpl.
  destruct (heap s !! l) as [[o|m]|]; try done.
  destruct (callable (comet o)); [|done]. by destruct r.
Qed.

(** What the callback of the interval leaves as it is, and what it adds to
    the trace: at most one call, and at most one exception. *)
Lemma ticked_keeps s r :
  req (ticked r s) = req s /\ heap (ticked r s) = heap s
  /\ callback (ticked r s) = callback s /\ promise (ticked r s) = promise s
  /\ interval (ticked r s) = interval s
  /\ cometTimer (ticked r s) = cometTimer s
  /\ cometLength (ticked r s) = String.length (responseText (req s))
  /\ exists ex,
       trace (ticked r s) = trace s ++ ex
       /\ Forall (fun e => match e with
                           | EComet _ | EUncaught _ => True
                           | _ => False
                           end) ex.
Proof.
  unfold ticked.
  destruct (truthy_prim _ && negb _);
    [destruct (comet_of s) as [v|]; [destruct (callable v); [destruct r|]|]|];
    simpl; repeat split; try done;
    try (eexists; split; [reflexivity | by repeat constructor]).
  - eexists. split; [by rewrite <- app_assoc | by repeat constructor].
  - exists []. by rewrite app_nil_r.
Qed.

Lemma ticked_trace s r :
  settlements (trace (ticked r s)) = settlements (trace s)
  /\ payloads (trace (ticked r s)) = payloads (trace s)
  /\ (forall id rate,
        ESetInterval id rate ∈ trace (ticked r s) ->
        ESetInterval id rate ∈ trace s).
Proof.
  destruct (ticked_keeps s r) as (_ & _ & _ & _ & _ & _ & _ & ex & -> & Hex).
  assert (settlements ex = [] /\ payloads ex = []
          /\ forall id rate, ESetInterval id rate ∉ ex) as (H0 & H1 & Hno).
  { induction Hex as [|e ex He _ IH]; [repeat split; by inversion 1|].
    destruct IH as (? & ? & IH).
    destruct e; try done; (repeat split; try done;
      intros id rate Hin; apply elem_of_cons in Hin as [?|Hin]; [done|];
      by apply (IH id rate)). }
  rewrite settlements_app, payloads_app, H0, H1, !app_nil_r.
  split; [done|]. split; [done|].
  intros id rate Hin. apply elem_of_app in Hin as [|Hin]; [done|].
  by apply Hno in Hin.
Qed.

Lemma ticked_comet_of s r : comet_of (ticked r s) = comet_of s.
Proof.
  destruct (ticked_keeps s r) as (_ & Hh & Hc & _).
  unfold comet_of. by rewrite Hh, Hc.
Qed.

(** The interval callback keeps an invocation under way. *)
Lemma active_tick s r : active s -> active (ticked r s).
Proof.
  intros [Ho Hp Hu Hj Ht Hs Hc].
  destruct (ticked_keeps s r) as (Hreq & _ & _ & Hpr & Hi & Htm & _).
  destruct (ticked_trace s r) as (Hset & _ & Hin).
  split.
  - unfold open_transaction. by rewrite Hreq.
  - by rewrite Hpr.
  - by rewrite Hset.
  - by rewrite Hreq.
  - by rewrite Hi, Htm.
  - intros id rate Hi'. rewrite Htm. eauto.
  - rewrite Hi, ticked_comet_of. done.
Qed.


End Lifecycle.

Section Listener.
Context `{Host}.

Lemma settled_nowhere tr :
  settlements tr = [] -> settles_after_clearing tr.
Proof.
  intros Hs pre e post -> He. exfalso.
  rewrite settlements_app in Hs. apply app_eq_nil in Hs as [_ Hs].
  change (e :: post) with ([e] ++ post) in Hs.
  rewrite settlements_app in Hs. apply app_eq_nil in Hs as [Hs _]. done.
Qed.

Lemma settled_last tr f pre e post :
  tr ++ [f] = pre ++ e :: post ->
  settlements tr = [] -> settlements [e] <> [] ->
  pre = tr /\ e = f /\ post = [].
Proof.
  intros Heq Hs He.
  destruct post as [|z post'] using rev_ind.
  - apply app_inj_tail in Heq as [-> ->]. done.
  - clear IHpost'. exfalso.
    change (pre ++ e :: post' ++ [z]) with (pre ++ (e :: post') ++ [z]) in Heq.
    rewrite app_assoc in Heq. apply app_inj_tail in Heq as [-> _].
    rewrite settlements_app in Hs. apply app_eq_nil in Hs as [_ Hs].
    change (e :: post') with ([e] ++ post') in Hs.
    rewrite settlements_app in Hs. apply app_eq_nil in Hs as [Hs _]. done.
Qed.

(** The listener does nothing before the ready state 4. *)
Lemma listener_idle s :
  readyState (req s) <> 4 -> fire on_readystatechange s = s.
Proof.
  intros Hr. unfold fire, on_readystatechange, mbind, M_bind, get. simpl.
  destruct (Z.eqb_spec (readyState (req s)) 4); done.
Qed.

Lemma listener_done s x0 :
  active s ->
  let s' := fire on_readystatechange (with_req (set_readyState 4 x0) s) in
  let x := req s' in
  let json := bool_decide (responseContentType x0 = Some "application/json") in
  (readyState x = 4 /\ status x = status x0
   /\ statusText x = statusText x0 /\ responseText x = responseText x0
   /\ responseContentType x = responseContentType x0)
  /\ responseComet x = comet_tail s x0
  /\ interval s' = None /\ cometLength s' = cometLength s
  /\ (heap s' = heap s /\ cometTimer s' = cometTimer s)
  /\ (is_success (status x0) = false ->
      trace s' = trace s ++ clears s ++ [EReject (Error (statusText x0))]
      /\ promise s' = Rejected (Error (statusText x0))
      /\ responseJSON x = responseJSON x0)
  /\ (is_success (status x0) = true -> json = false ->
      trace s' = trace s ++ clears s ++ [EResolve x]
      /\ promise s' = Fulfilled x
      /\ responseJSON x = responseJSON x0)
  /\ (is_success (status x0) = true -> json = true ->
      forall v, JSON_parse (responseText x0) = Some v ->
      trace s' = trace s ++ clears s ++ [EResolve x]
      /\ promise s' = Fulfilled x
      /\ responseJSON x = Some v)
  /\ (is_success (status x0) = true -> json = true ->
      JSON_parse (responseText x0) = None ->
      trace s' = trace s ++ clears s ++ [EUncaught (SyntaxError "JSON.parse")]
      /\ promise s' = Pending
      /\ responseJSON x = responseJSON x0).
Proof.
  intros [Ho Hp Hu Hj Ht Hs Hc].
  unfold fire, on_readystatechange, mbind, M_bind, get, modify, clearInterval,
    resolve, reject, settle, throw, mret, M_ret, clears, comet_tail.
  simpl. fold (is_success (status x0)).
  destruct (cometTimer s) as [id|] eqn:Hid; simpl;
    rewrite ?Ht, ?bool_decide_eq_true_2 by done; simpl;
    fold (is_success (status x0));
    destruct (is_success (status x0)) eqn:Hst; simpl;
    try (destruct (bool_decide (responseContentType x0
                                = Some "application/json")) eqn:Hct; simpl);
    try (destruct (JSON_parse (responseText x0)) as [v|] eqn:Hv; simpl);
    rewrite ?Hp; simpl; rewrite <- ?app_assoc; simpl;
    repeat split; try done; try congruence;
    intros; simplify_eq; repeat split; try done; congruence.
Qed.

(** The listener leaves the variables of the interval callback as they
    are. *)
Lemma listener_closure s :
  callback (fire on_readystatechange s) = callback s
  /\ lastLine (fire on_readystatechange s) = lastLine s
  /\ cometLength (fire on_readystatechange s) = cometLength s.
Proof.
  unfold fire, on_readystatechange, mbind, M_bind, get, modify, clearInterval,
    resolve, reject, settle, throw, mret, M_ret.
  simpl. destruct (readyState (req s) =? 4); [|done].
  destruct (cometTimer s) as [id|]; simpl;
    try destruct (bool_decide (interval s = Some id)); simpl;
    destruct ((200 <=? status (req s)) && (status (req s) <=? 299)); simpl;
    try (destruct (bool_decide (responseContentType (req s)
                                = Some "application/json")); simpl);
    try (destruct (JSON_parse (responseText (req s))); simpl);
    by destruct (promise s).
Qed.

End Listener.

Section Reachable.
Context `{Host}.

#[local] Arguments second_to_last : simpl never.

Lemma clears_quiet s :
  settlements (clears s) = [] /\ comet_args (clears s) = []
  /\ faults (clears s) = [].
Proof. unfold clears. by destruct (cometTimer s). Qed.

Lemma listener_done_last s x0 :
  active s ->
  let s' := fire on_readystatechange (with_req (set_readyState 4 x0) s) in
  exists f,
    trace s' = trace s ++ clears s ++ [f] /\ comet_args [f] = [] /\
    ((settlements [f] = [] /\ promise s' = Pending)
     \/ exists p, settlements [f] = [p] /\ promise s' = p).
Proof.
  intros Hs s'.
  destruct (listener_done s x0 Hs)
    as (_ & _ & _ & _ & _ & Hrej & Hplain & Hjson & Hfault).
  fold s' in Hrej, Hplain, Hjson, Hfault.
  destruct (is_success (status x0)).
  - destruct (bool_decide (responseContentType x0 = Some "application/json")).
    + destruct (JSON_parse (responseText x0)) as [v|] eqn:Hv.
      * destruct (Hjson eq_refl eq_refl v eq_refl) as (-> & -> & _).
        eexists. split; [done|]. split; [done|]. right. by eexists.
      * destruct (Hfault eq_refl eq_refl eq_refl) as (-> & -> & _).
        eexists. split; [done|]. split; [done|]. by left.
    + destruct (Hplain eq_refl eq_refl) as (-> & -> & _).
      eexists. split; [done|]. split; [done|]. right. by eexists.
  - destruct (Hrej eq_refl) as (-> & -> & _).
    eexists. split; [done|]. split; [done|]. right. by eexists.
Qed.

(** The end of the transaction ends the invocation. *)
Lemma active_done s x0 :
  active s ->
  finished (fire on_readystatechange (with_req (set_readyState 4 x0) s)).
Proof.
  intros Hs.
  destruct (listener_done s x0 Hs)
    as ((Hr & Hst & _ & Htxt & Hct) & _ & Hi & _ & _
        & Hrej & Hplain & Hjson & Hfault).
  destruct (listener_done_last s x0 Hs) as (f & Htr & Hf & Hout).
  destruct (clears_quiet s) as (Hcs & Hcc & _).
  destruct Hs as [Ho Hp Hu Hj Ht Hset Hc].
  set (s' := fire on_readystatechange (with_req (set_readyState 4 x0) s)) in *.
  assert (settlements (trace s') = settlements [f]) as Hsett
    by (by rewrite Htr, !settlements_app, Hu, Hcs).
  split.
  - unfold open_transaction. rewrite Hr. simpl. apply andb_false_r.
  - done.
  - rewrite Hsett. destruct Hout as [[-> _]|(p & -> & _)]; simpl; lia.
  - rewrite Hsett. by destruct Hout as [[-> ->]|(p & -> & ->)].
  - destruct Hout as [[Hno _]|(p & Hp' & _)].
    { apply settled_nowhere. by rewrite Hsett. }
    intros pre e post Heq He'. rewrite Htr, app_assoc in Heq.
    apply settled_last in Heq as (-> & -> & ->);
      [|by rewrite settlements_app, Hu, Hcs|done].
    split; [|done].
    intros id rate Hin. rewrite Htr in Hin.
    assert (ESetInterval id rate ∈ trace s) as Hin'.
    { rewrite !elem_of_app in Hin. destruct Hin as [|[Hin|Hin]]; [done| |].
      - unfold clears in Hin. destruct (cometTimer s); [|by inversion Hin].
        apply list_elem_of_singleton in Hin. done.
      - apply list_elem_of_singleton in Hin. subst f. done. }
    apply elem_of_app. right. unfold clears.
    rewrite (Hset id rate Hin'). apply list_elem_of_singleton. done.
  - intros _ (Hsucc & Hjs & Hparse). rewrite Hst in Hsucc.
    rewrite Hct in Hjs. rewrite Htxt in Hparse.
    destruct (Hfault Hsucc (bool_decide_eq_true_2 _ Hjs) Hparse)
      as (Htr' & _ & _).
    rewrite Htr', !settlements_app, Hu, Hcs. split; [done|].
    by rewrite app_assoc, last_snoc.
  - intros _ Hnf. rewrite Hsett.
    destruct Hout as [[Hno Hpend]|(p & -> & _)]; [|done].
    exfalso. apply Hnf. unfold json_fault. rewrite Hst, Hct, Htxt.
    destruct (is_success (status x0)) eqn:Hsucc.
    + destruct (decide (responseContentType x0 = Some "application/json"))
        as [Hjs|Hjs].
      * destruct (JSON_parse (responseText x0)) as [v|] eqn:Hv; [|done].
        destruct (Hjson eq_refl (bool_decide_eq_true_2 _ Hjs) v eq_refl)
          as (_ & Hp' & _). congruence.
      * destruct (Hplain eq_refl (bool_decide_eq_false_2 _ Hjs))
          as (_ & Hp' & _). congruence.
    + destruct (Hrej eq_refl) as (_ & Hp' & _). congruence.
Qed.

(** Every event keeps an invocation under way or ends it. *)
Lemma active_step s e : active s -> active (step e s) \/ finished (step e s).
Proof.
  intros Hs. pose proof Hs as [Ho Hp Hu Hj Ht Hset Hc].
  destruct e as [r|chunk|n|st txt ct|]; simpl; rewrite ?Ho.
  - case_bool_decide; [by left|]. left. rewrite comet_tick_unfold.
    by apply active_tick.
  - left. rewrite listener_idle by done.
    apply andb_true_iff in Ho as [Hsend _].
    split; simpl; try done.
    unfold open_transaction. simpl. by rewrite Hsend.
  - simpl. destruct (Z.ltb_spec n 4); simpl; [|by left].
    left. rewrite listener_idle by (simpl; lia).
    apply andb_true_iff in Ho as [Hsend _].
    split; simpl; try done.
    unfold open_transaction. simpl. rewrite Hsend. simpl. by apply Z.ltb_lt.
  - right. by apply active_done.
  - right. by apply active_done.
Qed.


Lemma run_cons e es s : run (e :: es) s = run es (step e s).
Proof. done. Qed.

Lemma run_app es1 es2 s : run (es1 ++ es2) s = run es2 (run es1 s).
Proof. apply fold_left_app. Qed.

Lemma run_reachable es : forall s,
  active s \/ finished s -> active (run es s) \/ finished (run es s).
Proof.
  induction es as [|e es IH]; intros s Hs; [done|].
  rewrite run_cons. apply IH. destruct Hs as [Hs|Hs].
  - by apply active_step.
  - right. by rewrite finished_step.
Qed.

End Reachable.

(** ** The call *)

Section Call.
Context `{Host}.

Lemma ajax_unfold d tid h :
  ajax d tid h =
  match executor (target d h) tid (initial (entry_heap d h)) with
  | (Ret _, s) => s
  | (Throw e, s) => settle (Rejected e) (log (EReject e) s)
  end.
Proof. by destruct d. Qed.

Lemma bind_within {A B} (m : M A) (f : A -> M B) s :
  within m ->
  quiet s (m s).2 /\
  (m ≫= f) s = match (m s).1 with
               | Ret a => f a (m s).2
               | Throw e => (Throw e, (m s).2)
               end.
Proof.
  intros Hm. split; [apply Hm|].
  unfold mbind, M_bind. by destruct (m s) as [[a|e] s'].
Qed.

(** The last two blocks: the options are read, the interval is started in
    Comet mode, the request is sent. *)
Lemma launch l tid s :
  (start_comet l tid ;; send_request l) s =
  match heap s !! l with
  | Some (OOptions o) => (Ret tt, sent o (started l tid o s))
  | _ => (Throw (TypeError "options"), s)
  end.
Proof.
  unfold start_comet, send_request, started, sent, mbind, M_bind,
    read_options, setInterval, modify, xhr_send, mret, M_ret.
  destruct (heap s !! l) as [[o|m]|] eqn:E; try done.
  destruct (is_comet_callback (comet o)); simpl; by rewrite E.
Qed.

(** The blocks after [open] stay quiet until one throws or the last two
    are reached. *)
Lemma after_open_quiet l tid s :
  exists s', quiet s s' /\
    ((exists e,
        (default_headers l ;; content_type_shorthand l ;;
         set_request_headers l ;; serialize_data l ;;
         start_comet l tid ;; send_request l) s = (Throw e, s'))
     \/ (default_headers l ;; content_type_shorthand l ;;
         set_request_headers l ;; serialize_data l ;;
         start_comet l tid ;; send_request l) s
        = (start_comet l tid ;; send_request l) s').
Proof.
  destruct (bind_within (default_headers l)
    (fun _ => content_type_shorthand l ;;
              set_request_headers l ;; serialize_data l ;;
              start_comet l tid ;; send_request l) s
    (within_default_headers l)) as [Q2 ->].
  destruct (default_headers l s) as [[[]|e2] s2]; simpl in *;
    [|exists s2; split; [done | left; by eexists]].
  destruct (bind_within (content_type_shorthand l)
    (fun _ => set_request_headers l ;; serialize_data l ;;
              start_comet l tid ;; send_request l) s2
    (within_content_type_shorthand l)) as [Q3 ->].
  destruct (content_type_shorthand l s2) as [[[]|e3] s3]; simpl in *;
    [|exists s3; split; [eauto using quiet_trans | left; by eexists]].
  destruct (bind_within (set_request_headers l)
    (fun _ => serialize_data l ;; start_comet l tid ;; send_request l) s3
    (within_set_request_headers l)) as [Q4 ->].
  destruct (set_request_headers l s3) as [[[]|e4] s4]; simpl in *;
    [|exists s4; split; [eauto using quiet_trans | left; by eexists]].
  destruct (bind_within (serialize_data l)
    (fun _ => start_comet l tid ;; send_request l) s4
    (within_serialize_data l)) as [Q5 ->].
  destruct (serialize_data l s4) as [[[]|e5] s5]; simpl in *;
    [|exists s5; split; [eauto using quiet_trans | left; by eexists]].
  exists s5. split; [eauto using quiet_trans | by right].
Qed.

(** So does the executor. *)
Lemma executor_quiet l tid s :
  exists s', quiet s s' /\
    ((exists e, executor l tid s = (Throw e, s'))
     \/ executor l tid s = (start_comet l tid ;; send_request l) s').
Proof.
  unfold executor.
  destruct (bind_within (open_request l)
    (fun _ => default_headers l ;; content_type_shorthand l ;;
              set_request_headers l ;; serialize_data l ;;
              start_comet l tid ;; send_request l) s
    (within_open_request l)) as [Q1 ->].
  destruct (open_request l s) as [[[]|e1] s1]; simpl in *;
    [|exists s1; split; [done | left; by eexists]].
  destruct (after_open_quiet l tid s1) as (s' & Q & Hrest).
  exists s'. split; [by eapply quiet_trans | done].
Qed.

Lemma quiet_opens s s' :
  quiet s s' ->
  settlements (trace s') = settlements (trace s)
  /\ comet_args (trace s') = comet_args (trace s)
  /\ payloads (trace s') = payloads (trace s)
  /\ faults (trace s') = faults (trace s)
  /\ (forall id rate,
        ESetInterval id rate ∈ trace s' -> ESetInterval id rate ∈ trace s).
Proof.
  intros [_ _ _ _ _ _ _ _ _ _ (opens & -> & Hopens)].
  assert (settlements opens = [] /\ comet_args opens = []
          /\ payloads opens = [] /\ faults opens = []
          /\ forall id rate, ESetInterval id rate ∉ opens)
    as (H0 & H1 & H2 & H3 & Hno).
  { induction Hopens as [|e opens He _ IH]; [repeat split; by inversion 1|].
    destruct IH as (? & ? & ? & ? & IH).
    destruct e; try done. repeat split; try done.
    intros id rate Hin. apply elem_of_cons in Hin as [?|Hin]; [done|].
    by apply (IH id rate). }
  rewrite settlements_app, comet_args_app, payloads_app, faults_app.
  repeat split; try (by rewrite ?H0, ?H1, ?H2, ?H3, app_nil_r).
  intros id rate Hin. apply elem_of_app in Hin as [|Hin]; [done|].
  by apply Hno in Hin.
Qed.

(** An executor that throws leaves a rejected promise and no interval. *)
Lemma thrown_finished h s e :
  quiet (initial h) s -> finished (settle (Rejected e) (log (EReject e) s)).
Proof.
  intros Q. destruct (quiet_opens _ _ Q) as (Hs & Hc & _ & _ & Hset).
  destruct Q as [Hi _ _ _ Hp Hsend _ _ _ Hready _]. simpl in *.
  unfold settle. simpl. rewrite Hp. simpl.
  split; simpl.
  - unfold open_transaction. simpl. by rewrite Hsend.
  - done.
  - rewrite settlements_app, Hs. simpl. lia.
  - by rewrite settlements_app, Hs.
  - intros pre f post Heq Hf.
    apply settled_last in Heq as (-> & -> & ->); [|done..].
    split; [|done]. intros id rate Hin.
    apply elem_of_app in Hin as [Hin|Hin].
    + apply Hset in Hin. by inversion Hin.
    + apply list_elem_of_singleton in Hin. done.
  - intros Hr4. destruct Hready as [Hr|Hr]; rewrite Hr in Hr4; done.
  - intros _ _. by rewrite settlements_app, Hs.
Qed.

(** An executor that returns leaves a transaction under way. *)
Lemma sent_active h l tid o s :
  quiet (initial h) s -> heap s !! l = Some (OOptions o) ->
  active (sent o (started l tid o s)).
Proof.
  intros Q Hl'. destruct (quiet_opens _ _ Q) as (Hs & Hc & _ & _ & Hset).
  destruct Q as [Hi Ht _ Hl Hp Hsend _ Hj _ Hr _]. simpl in *.
  assert ((readyState (req s) <? 4) = true) as Hready
    by (apply Z.ltb_lt; destruct Hr as [-> | ->]; lia).
  unfold sent, started.
  destruct (is_comet_callback (comet o)) eqn:Hcomet; split; simpl;
    rewrite ?settlements_app, ?Hs; simpl; try done; try congruence.
  - intros id rate Hin. rewrite !elem_of_app in Hin.
    destruct Hin as [[Hin|Hin]|Hin].
    + apply Hset in Hin. by inversion Hin.
    + apply list_elem_of_singleton in Hin. by inversion Hin.
    + apply list_elem_of_singleton in Hin. done.
  - intros _. exists (comet o). unfold comet_of. simpl. by rewrite Hl'.
  - intros id rate Hin. rewrite !elem_of_app in Hin.
    destruct Hin as [Hin|Hin].
    + apply Hset in Hin. by inversion Hin.
    + apply list_elem_of_singleton in Hin. done.
Qed.

(** No line has been delivered then. *)
Lemma sent_orderly h l tid o s :
  quiet (initial h) s -> orderly (sent o (started l tid o s)).
Proof.
  intros Q. destruct (quiet_opens _ _ Q) as (_ & Hc & _).
  destruct Q as [_ _ _ Hl _ _ _ _ _ _ _]. simpl in *.
  assert (comet_args (trace (sent o (started l tid o s))) = []) as Hargs.
  { unfold sent, started.
    destruct (is_comet_callback (comet o)); simpl;
      by rewrite !comet_args_app, Hc. }
  split; rewrite Hargs; [apply no_repeat_nil | done |].
  intros _. unfold sent, started.
  destruct (is_comet_callback (comet o)); simpl; [done | by rewrite Hl].
Qed.

(** After the call, the invocation is under way or over. *)
Lemma ajax_reachable d tid h :
  active (ajax d tid h) \/ finished (ajax d tid h).
Proof.
  rewrite ajax_unfold.
  destruct (executor_quiet (target d h) tid (initial (entry_heap d h)))
    as (s' & Q & [[e ->] | ->]).
  - right. by eapply thrown_finished.
  - rewrite launch.
    destruct (heap s' !! target d h) as [[o|m]|] eqn:E.
    + left. by eapply sent_active.
    + right. by eapply thrown_finished.
    + right. by eapply thrown_finished.
Qed.

Lemma reachable d tid h es :
  active (run es (ajax d tid h)) \/ finished (run es (ajax d tid h)).
Proof. apply run_reachable, ajax_reachable. Qed.

End Call.

(** ** The call on the caller's objects *)

Section Objects.
Context `{Host}.

Lemma view_ne hp l o hl m : view hp l o hl m -> l <> hl.
Proof. intros [Ho _ Hm] ->. congruence. Qed.

Lemma frame_refl l hl hp : frame l hl hp hp.
Proof. by intros l'. Qed.

Lemma frame_trans l hl h1 h2 h3 :
  frame l hl h1 h2 -> frame l hl h2 h3 -> frame l hl h1 h3.
Proof. intros F1 F2 l' ? ?. rewrite F2, F1; done. Qed.

Lemma open_request_ok l o s :
  heap s !! l = Some (OOptions o) ->
  open_request l s = (Ret tt, opened o s).
Proof.
  intros Ho. unfold open_request, mbind, M_bind, read_options.
  by rewrite Ho.
Qed.

Lemma set_headers_same o hl :
  headers o = Some hl -> set_headers (Some hl) o = o.
Proof. destruct o; simpl; by intros ->. Qed.

Lemma default_headers_ok l o m s :
  supplied (heap s) l o m ->
  exists hp,
    default_headers l s = (Ret tt, with_heap hp s)
    /\ view hp l (set_headers (Some (headers_loc (heap s) o)) o)
         (headers_loc (heap s) o) m
    /\ frame l (headers_loc (heap s) o) (heap s) hp.
Proof.
  intros [Ho Hm]. unfold default_headers, headers_loc, mbind, M_bind.
  unfold read_options at 1. rewrite Ho.
  destruct (headers o) as [hl|] eqn:Hh.
  - exists (heap s). rewrite set_headers_same by done.
    split; [by destruct s|]. split; [done | apply frame_refl].
  - subst m. set (hl := fresh (dom (heap s))).
    assert (heap s !! hl = None) as Hfresh
      by (apply not_elem_of_dom, is_fresh).
    assert (l <> hl) as Hne by (intros ->; congruence).
    exists (<[l := OOptions (set_headers (Some hl) o)]>
              (<[hl := OHeaders ∅]> (heap s))).
    split.
    + unfold alloc, assign_headers, mbind, M_bind, read_options,
        write_options, modify. simpl. fold hl.
      rewrite lookup_insert_ne by done. by rewrite Ho.
    + split.
      * split; [by rewrite lookup_insert_eq | done |].
        rewrite lookup_insert_ne by done. by rewrite lookup_insert_eq.
      * intros l' ? ?. by rewrite !lookup_insert_ne.
Qed.

Lemma content_type_shorthand_ok l o hl m s :
  view (heap s) l o hl m ->
  exists hp,
    content_type_shorthand l s = (Ret tt, with_heap hp s)
    /\ view hp l o hl (active_headers o m)
    /\ frame l hl (heap s) hp.
Proof.
  intros V. pose proof (view_ne _ _ _ _ _ V) as Hne.
  destruct V as [Ho Hh Hm].
  unfold content_type_shorthand, active_headers, mbind, M_bind.
  unfold read_options at 1. rewrite Ho.
  destruct (contentType o) as [ct|];
    [destruct (truthy (VStr ct))|];
    try (exists (heap s); split; [by destruct s|];
         split; [done | apply frame_refl]).
  exists (<[hl := OHeaders (<["Content-Type" := ct]> m)]> (heap s)).
  split.
  - unfold headers_of, read_headers, write_headers, read_options, modify,
      mbind, M_bind, mret, M_ret. by rewrite Ho, Hh, Hm.
  - split.
    + split; [by rewrite lookup_insert_ne | done | by rewrite lookup_insert_eq].
    + intros l' ? ?. by rewrite lookup_insert_ne.
Qed.

Lemma apply_headers_ok m s :
  exists rh,
    apply_headers m s = (Ret tt, with_req (set_requestHeaders rh (req s)) s).
Proof.
  unfold apply_headers. revert s.
  apply (map_fold_weak_ind (fun (r : M unit) _ => forall s, exists rh,
    r s = (Ret tt, with_req (set_requestHeaders rh (req s)) s))).
  - intros s. exists (requestHeaders (req s)). by destruct s as [? []].
  - intros k v m' r _ IH s.
    unfold mbind, M_bind, setRequestHeader, modify.
    destruct (IH (with_req
      (set_requestHeaders (<[k:=v]> (requestHeaders (req s))) (req s)) s))
      as [rh ->].
    by exists rh.
Qed.

Lemma set_request_headers_ok l o hl m s :
  view (heap s) l o hl m ->
  exists rh,
    set_request_headers l s
    = (Ret tt, with_req (set_requestHeaders rh (req s)) s).
Proof.
  intros [Ho Hh Hm].
  unfold set_request_headers, mbind, M_bind, read_options, read_headers.
  rewrite Ho, Hh, Hm. apply apply_headers_ok.
Qed.

Lemma typeof_object d :
  string_eqb (typeof d) "object" = true ->
  d = VNull \/ (exists es, d = VObj es) \/ (exists f, d = VFormData f).
Proof. destruct d as [[| | | | |]| | | | |]; try done; eauto. Qed.

Lemma serialize_data_ok l o hl m s d :
  view (heap s) l o hl m ->
  serialized (data o) m = Some d ->
  exists hp,
    serialize_data l s = (Ret tt, with_heap hp s)
    /\ view hp l (set_data d o) hl m
    /\ frame l hl (heap s) hp.
Proof.
  intros V. pose proof (view_ne _ _ _ _ _ V) as Hne.
  destruct V as [Ho Hh Hm].
  unfold serialize_data, serialized, mbind, M_bind.
  unfold read_options at 1. rewrite Ho.
  assert (forall d', exists hp,
    assign_data l d' s = (Ret tt, with_heap hp s)
    /\ view hp l (set_data d' o) hl m /\ frame l hl (heap s) hp) as Hassign.
  { intros d'. exists (<[l := OOptions (set_data d' o)]> (heap s)).
    split; [|split].
    - unfold assign_data, mbind, M_bind, read_options, write_options, modify.
      by rewrite Ho.
    - split; [by rewrite lookup_insert_eq | done
             | by rewrite lookup_insert_ne].
    - intros l' ? ?. by rewrite lookup_insert_ne. }
  destruct (string_eqb (typeof (data o)) "object") eqn:Hobj; simpl.
  - unfold content_type_is_json, headers_of, read_headers, read_options,
      mbind, M_bind, mret, M_ret. rewrite Ho, Hh, Hm.
    destruct (bool_decide (m !! "Content-Type" = Some "application/json")).
    + intros [= <-]. apply Hassign.
    + destruct (typeof_object _ Hobj) as [Hd|[[es Hd]|[f Hd]]];
        rewrite Hd; simpl; [done| |].
      * intros [= <-]. unfold mbind, M_bind, mret, M_ret. apply Hassign.
      * intros [= <-]. exists (heap s).
        replace (set_data (VFormData f) o) with o
          by (destruct o; simpl in *; by subst).
        split; [by destruct s|]. split; [done | apply frame_refl].
  - intros [= <-]. exists (heap s).
    replace (set_data (data o) o) with o by (by destruct o).
    split; [by destruct s|]. split; [done | apply frame_refl].
Qed.

Lemma serialize_data_throws l o hl m s :
  view (heap s) l o hl m ->
  serialized (data o) m = None ->
  exists e, serialize_data l s = (Throw e, s).
Proof.
  intros [Ho Hh Hm].
  unfold serialize_data, serialized, mbind, M_bind.
  unfold read_options at 1. rewrite Ho.
  destruct (string_eqb (typeof (data o)) "object") eqn:Hobj; simpl; [|done].
  unfold content_type_is_json, headers_of, read_headers, read_options,
    mbind, M_bind, mret, M_ret. rewrite Ho, Hh, Hm.
  destruct (bool_decide (m !! "Content-Type" = Some "application/json"));
    [done|].
  destruct (typeof_object _ Hobj) as [Hd|[[es Hd]|[f Hd]]];
    rewrite Hd; simpl; try done.
  intros _. by eexists.
Qed.

End Objects.

Section Invocation.
Context `{Host}.

Lemma executor_ok l tid o m s d :
  supplied (heap s) l o m ->
  serialized (data o) (active_headers o m) = Some d ->
  exists s5,
    executor l tid s
    = (Ret tt, sent (options_after (heap s) o d)
                 (started l tid (options_after (heap s) o d) s5))
    /\ trace s5 = trace (opened o s)
    /\ quiet s s5
    /\ view (heap s5) l (options_after (heap s) o d)
         (headers_loc (heap s) o) (active_headers o m)
    /\ frame l (headers_loc (heap s) o) (heap s) (heap s5).
Proof.
  intros Hsup Hser. pose proof Hsup as [Ho _].
  unfold executor, options_after. set (hl := headers_loc (heap s) o).
  unfold mbind at 1, M_bind at 1. rewrite (open_request_ok l o s Ho).
  destruct (default_headers_ok l o m (opened o s) Hsup)
    as (hp1 & E1 & V1 & F1). fold hl in V1, F1.
  unfold mbind at 1, M_bind at 1. rewrite E1.
  set (o1 := set_headers (Some hl) o) in *.
  destruct (content_type_shorthand_ok l o1 hl m
              (with_heap hp1 (opened o s)) V1) as (hp2 & E2 & V2 & F2).
  unfold mbind at 1, M_bind at 1. rewrite E2. simpl in V2, F2.
  change (active_headers o1 m) with (active_headers o m) in V2.
  destruct (set_request_headers_ok l o1 hl (active_headers o m)
              (with_heap hp2 (with_heap hp1 (opened o s))) V2) as (rh & E3).
  unfold mbind at 1, M_bind at 1. rewrite E3.
  set (s3 := with_req _ _) in *.
  destruct (serialize_data_ok l o1 hl (active_headers o m) s3 d V2 Hser)
    as (hp4 & E4 & V4 & F4).
  unfold mbind at 1, M_bind at 1. rewrite E4.
  rewrite launch. simpl. rewrite (view_options _ _ _ _ _ V4).
  exists (with_heap hp4 s3). split; [done|]. split; [done|].
  split; [|split; [done|]].
  - split; simpl; try done; [by right|].
    eexists. split; [done|]. by repeat constructor.
  - eapply frame_trans; [exact F1|]. eapply frame_trans; [exact F2|exact F4].
Qed.

Lemma executor_throws l tid o m s :
  supplied (heap s) l o m ->
  serialized (data o) (active_headers o m) = None ->
  exists e s5,
    executor l tid s = (Throw e, s5)
    /\ trace s5 = trace (opened o s)
    /\ promise s5 = promise s
    /\ view (heap s5) l (set_headers (Some (headers_loc (heap s) o)) o)
         (headers_loc (heap s) o) (active_headers o m)
    /\ frame l (headers_loc (heap s) o) (heap s) (heap s5).
Proof.
  intros Hsup Hser. pose proof Hsup as [Ho _].
  unfold executor. set (hl := headers_loc (heap s) o).
  unfold mbind at 1, M_bind at 1. rewrite (open_request_ok l o s Ho).
  destruct (default_headers_ok l o m (opened o s) Hsup)
    as (hp1 & E1 & V1 & F1). fold hl in V1, F1.
  unfold mbind at 1, M_bind at 1. rewrite E1.
  set (o1 := set_headers (Some hl) o) in *.
  destruct (content_type_shorthand_ok l o1 hl m
              (with_heap hp1 (opened o s)) V1) as (hp2 & E2 & V2 & F2).
  unfold mbind at 1, M_bind at 1. rewrite E2. simpl in V2, F2.
  change (active_headers o1 m) with (active_headers o m) in V2.
  destruct (set_request_headers_ok l o1 hl (active_headers o m)
              (with_heap hp2 (with_heap hp1 (opened o s))) V2) as (rh & E3).
  unfold mbind at 1, M_bind at 1. rewrite E3.
  set (s3 := with_req _ _) in *.
  destruct (serialize_data_throws l o1 hl (active_headers o m) s3 V2 Hser)
    as (e & E4).
  unfold mbind at 1, M_bind at 1. rewrite E4.
  exists e, s3. split; [done|]. split; [done|]. split; [done|].
  split; [done|]. eapply frame_trans; [exact F1|exact F2].
Qed.

(** A call on an options object that the serialization block gets
    through. *)
Lemma call_ok l tid h o m d :
  supplied h l o m ->
  serialized (data o) (active_headers o m) = Some d ->
  let s := ajax (DObject l) tid h in
  trace s = call_trace tid o d
  /\ view (heap s) l (options_after h o d) (headers_loc h o)
       (active_headers o m)
  /\ frame l (headers_loc h o) h (heap s)
  /\ cometTimer s
     = (if is_comet_callback (comet o) then Some tid else None)
  /\ active s.
Proof.
  intros Hsup Hser s. unfold s. rewrite ajax_unfold.
  simpl target. simpl entry_heap.
  destruct (executor_ok l tid o m (initial h) d Hsup Hser)
    as (s5 & E & Htr & Q & V & F).
  rewrite E. simpl heap in *.
  split; [|split; [|split; [|split]]].
  - unfold sent, started, call_trace. simpl comet.
    destruct (is_comet_callback (comet o)); simpl; by rewrite Htr.
  - unfold sent, started. simpl comet.
    by destruct (is_comet_callback (comet o)), V.
  - unfold sent, started. simpl comet.
    by destruct (is_comet_callback (comet o)).
  - unfold sent, started. simpl comet.
    destruct (is_comet_callback (comet o)); simpl; [done|].
    by rewrite (quiet_timer _ _ Q).
  - eapply sent_active; [done | apply V].
Qed.

(** What the callback of the interval finds after such a call, and the
    order it starts in. *)
Lemma call_callback l tid h o m d :
  supplied h l o m ->
  serialized (data o) (active_headers o m) = Some d ->
  let s := ajax (DObject l) tid h in
  (is_comet_callback (comet o) = true -> comet_of s = Some (comet o))
  /\ orderly s /\ lastLine s = PNull /\ cometLength s = 0%nat.
Proof.
  intros Hsup Hser s. unfold s. rewrite ajax_unfold.
  simpl target. simpl entry_heap.
  destruct (executor_ok l tid o m (initial h) d Hsup Hser)
    as (s5 & E & Htr & Q & V & F).
  rewrite E. simpl heap in *.
  split; [|split; [by eapply sent_orderly|]].
  - intros Hc. unfold sent, started, comet_of. simpl comet. rewrite Hc.
    simpl. by rewrite (view_options _ _ _ _ _ V).
  - unfold sent, started. simpl comet.
    destruct (is_comet_callback (comet o)); simpl;
      by rewrite ?(quiet_line _ _ Q), (quiet_length _ _ Q).
Qed.

(** A call on an options object whose data the serialization block throws
    on. *)
Lemma call_throws l tid h o m :
  supplied h l o m ->
  serialized (data o) (active_headers o m) = None ->
  let s := ajax (DObject l) tid h in
  exists e,
    trace s = trace (opened o (initial h)) ++ [EReject e]
    /\ promise s = Rejected e
    /\ view (heap s) l (set_headers (Some (headers_loc h o)) o)
         (headers_loc h o) (active_headers o m)
    /\ frame l (headers_loc h o) h (heap s).
Proof.
  intros Hsup Hser s. unfold s. rewrite ajax_unfold.
  simpl target. simpl entry_heap.
  destruct (executor_throws l tid o m (initial h) Hsup Hser)
    as (e & s5 & E & Htr & Hp & V & F).
  rewrite E. exists e. unfold settle. simpl in *. rewrite Hp. simpl.
  rewrite Htr. done.
Qed.

(** A call on a URL is a call on a new options object. *)
Lemma call_string u tid h :
  ajax (DString u) tid h
  = ajax (DObject (fresh (dom h))) tid
      (<[fresh (dom h) := OOptions (url_only u)]> h).
Proof. by rewrite !ajax_unfold. Qed.

Lemma supplied_string u h :
  supplied (<[fresh (dom h) := OOptions (url_only u)]> h)
    (fresh (dom h)) (url_only u) ∅.
Proof. split; [by rewrite lookup_insert_eq | done]. Qed.

End Invocation.

(** ** The steps of a run *)

Section Steps.
Context `{Host}.

#[local] Arguments second_to_last : simpl never.

Lemma step_done s st txt ct :
  open_transaction s = true ->
  step (EvDone st txt ct) s
  = fire on_readystatechange
      (with_req (set_readyState 4 (set_response st txt ct (req s))) s).
Proof. intros Ho. simpl. by rewrite Ho. Qed.

Lemma step_error s :
  open_transaction s = true ->
  step EvError s
  = fire on_readystatechange
      (with_req (set_readyState 4
         (set_responseText "" (set_response 0 "" None (req s)))) s).
Proof. intros Ho. simpl. by rewrite Ho. Qed.

Lemma step_tick s r : interval s <> None -> step (EvTick r) s = ticked r s.
Proof.
  intros Hi. simpl. rewrite bool_decide_eq_false_2 by done.
  apply comet_tick_unfold.
Qed.

(** No event changes the callback of the interval; only a tick changes
    [lastLine] and [cometLength]. *)
Lemma step_callback s e : callback (step e s) = callback s.
Proof.
  destruct e as [r|chunk|n|st txt ct|]; simpl.
  - case_bool_decide; [done|]. rewrite comet_tick_unfold.
    by destruct (ticked_keeps s r) as (_ & _ & ? & _).
  - destruct (open_transaction s); [|done].
    by destruct (listener_closure
                   (with_req (set_readyState 3
                      (set_responseText (responseText (req s) +:+ chunk)
                         (req s))) s)) as [-> _].
  - destruct (open_transaction s && (n <? 4)); [|done].
    by destruct (listener_closure (with_req (set_readyState n (req s)) s))
      as [-> _].
  - destruct (open_transaction s); [|done].
    by destruct (listener_closure
                   (with_req (set_readyState 4
                      (set_response st txt ct (req s))) s)) as [-> _].
  - destruct (open_transaction s); [|done].
    by destruct (listener_closure
                   (with_req (set_readyState 4
                      (set_responseText ""
                         (set_response 0 "" None (req s)))) s)) as [-> _].
Qed.


(** No event changes the heap or the handle of the interval. *)
Lemma step_keeps s e :
  active s \/ finished s ->
  heap (step e s) = heap s /\ cometTimer (step e s) = cometTimer s.
Proof.
  intros [Ha|Hf]; [|by rewrite finished_step].
  pose proof (active_open _ Ha) as Ho.
  destruct e as [r|chunk|n|st txt ct|].
  - simpl. case_bool_decide; [done|]. rewrite comet_tick_unfold.
    by destruct (ticked_keeps s r) as (_ & ? & _ & _ & _ & ? & _).
  - simpl. rewrite Ho. by rewrite listener_idle.
  - simpl. rewrite Ho. simpl. destruct (Z.ltb_spec n 4); [|done].
    by rewrite listener_idle by (simpl; lia).
  - rewrite step_done by done.
    by destruct (listener_done s (set_response st txt ct (req s)) Ha)
      as (_ & _ & _ & _ & ? & _).
  - rewrite step_error by done.
    by destruct (listener_done s
         (set_responseText "" (set_response 0 "" None (req s))) Ha)
      as (_ & _ & _ & _ & ? & _).
Qed.

Lemma step_reachable s e :
  active s \/ finished s -> active (step e s) \/ finished (step e s).
Proof.
  intros [Ha|Hf]; [by apply active_step|]. right. by rewrite finished_step.
Qed.

Lemma run_keeps es : forall s,
  active s \/ finished s ->
  heap (run es s) = heap s /\ cometTimer (run es s) = cometTimer s
  /\ comet_of (run es s) = comet_of s.
Proof.
  induction es as [|e es IH]; intros s Hs; [done|].
  rewrite run_cons.
  destruct (IH (step e s) (step_reachable s e Hs)) as (-> & -> & ->).
  destruct (step_keeps s e Hs) as [Hh Ht].
  split; [done|]. split; [done|].
  unfold comet_of. by rewrite Hh, step_callback.
Qed.

(** A transaction that is under way at the end of a run was under way all
    along. *)
Lemma active_prefix es1 es2 : forall s,
  active s -> open_transaction (run (es1 ++ es2) s) = true ->
  active (run es1 s).
Proof.
  induction es1 as [|e es1 IH]; intros s Ha Ho; [done|].
  simpl app in Ho. rewrite run_cons in *.
  destruct (active_step s e Ha) as [Ha'|Hf]; [by apply IH|].
  rewrite finished_run, (finished_closed _ Hf) in Ho by done. done.
Qed.

Lemma active_end es s :
  active s -> open_transaction (run es s) = true -> active (run es s).
Proof.
  intros Ha Ho. apply (active_prefix es []); [done|]. by rewrite app_nil_r.
Qed.

Lemma string_app_assoc a b c : (a +:+ b) +:+ c = a +:+ (b +:+ c).
Proof.
  induction a as [|ch a IH]; [done | exact (f_equal (String ch) IH)].
Qed.

Lemma string_app_nil a : a +:+ "" = a.
Proof.
  induction a as [|ch a IH]; [done | exact (f_equal (String ch) IH)].
Qed.

Lemma substr_length_app a b : substr (String.length a) (a +:+ b) = b.
Proof. induction a as [|ch a IH]; [done | exact IH]. Qed.

Lemma substr_beyond n : forall t,
  (String.length t <= n)%nat -> substr n t = "".
Proof.
  induction n as [|n IH]; intros [|c t] Hl; simpl in *; try done; try lia.
  apply IH. lia.
Qed.

(** Between two ticks the text grows by what arrives, and [cometLength]
    stays. *)
Lemma between_ticks es : forall s,
  active s ->
  Forall is_no_tick es ->
  open_transaction (run es s) = true ->
  active (run es s)
  /\ responseText (req (run es s)) = responseText (req s) +:+ arrived es
  /\ cometLength (run es s) = cometLength s
  /\ cometTimer (run es s) = cometTimer s.
Proof.
  induction es as [|e es IH]; intros s Ha Hes Ho.
  { simpl. by rewrite string_app_nil. }
  apply Forall_cons in Hes as [He Hes]. rewrite run_cons in *.
  assert (active (step e s)) as Ha'.
  { destruct (active_step s e Ha) as [Ha'|Hf]; [done|].
    rewrite finished_run, (finished_closed _ Hf) in Ho by done. done. }
  destruct (IH _ Ha' Hes Ho) as (Hact & Htxt & Hlen & Htim).
  split; [done|]. rewrite Htxt, Hlen, Htim.
  pose proof (active_open _ Ha) as Hos.
  destruct e as [r|chunk|n|st txt ct|]; simpl; rewrite ?Hos; simpl.
  - done.
  - rewrite ?listener_idle by done. simpl. by rewrite string_app_assoc.
  - destruct (Z.ltb_spec n 4); [|done].
    by rewrite listener_idle by (simpl; lia).
  - exfalso. pose proof (active_done s (set_response st txt ct (req s)) Ha)
      as Hf.
    rewrite <- step_done in Hf by done.
    pose proof (active_open _ Ha') as Ho'.
    by rewrite (finished_closed _ Hf) in Ho'.
  - exfalso. pose proof (active_done s
      (set_responseText "" (set_response 0 "" None (req s))) Ha) as Hf.
    rewrite <- step_error in Hf by done.
    pose proof (active_open _ Ha') as Ho'.
    by rewrite (finished_closed _ Hf) in Ho'.
Qed.



End Steps.

(** ** The claims *)

Section Claims.
Context `{Host}.

#[local] Arguments second_to_last : simpl never.

(** The call opens the request first, whatever comes after. *)
Lemma ajax_opens d tid h o :
  describes d h o ->
  exists rest,
    trace (ajax d tid h)
    = EOpen (toUpperCase (str_or (method o) "GET")) (url o)
            (js_or (async o) (VBool true))
            (str_or_null (user o)) (str_or_null (password o)) :: rest.
Proof.
  intros Hd. rewrite ajax_unfold.
  assert (heap (initial (entry_heap d h)) !! target d h = Some (OOptions o))
    as Ho.
  { destruct d as [u|l]; simpl in *; [|done].
    subst o. by rewrite lookup_insert_eq. }
  unfold executor. unfold mbind at 1, M_bind at 1.
  rewrite (open_request_ok _ _ _ Ho).
  destruct (after_open_quiet (target d h) tid
              (opened o (initial (entry_heap d h))))
    as (s' & Q & [[e ->] | ->]);
    destruct Q as [_ _ _ _ _ _ _ _ _ _ (opens & Htr & _)];
    simpl in Htr.
  - unfold settle. simpl. destruct (promise s'); simpl; rewrite Htr;
      by eexists.
  - rewrite launch. destruct (heap s' !! target d h) as [[o'|m]|].
    + unfold sent, started.
      destruct (is_comet_callback (comet o')); simpl; rewrite Htr;
        by eexists.
    + unfold settle. simpl. destruct (promise s'); simpl; rewrite Htr;
        by eexists.
    + unfold settle. simpl. destruct (promise s'); simpl; rewrite Htr;
        by eexists.
Qed.

(** C8: for every descriptor, the async flag [open] is called with is
    [options.async || true]: the value of [options.async] itself if that
    is truthy, and [true] for every value that is falsy or is not there,
    an explicit [false] included.  So the flag is never falsy. *)
Theorem open_async_flag d tid h o :
  describes d h o ->
  head (async_flags (trace (ajax d tid h)))
  = Some (js_or (async o) (VBool true))
  /\ (truthy (async o) = false ->
      head (async_flags (trace (ajax d tid h))) = Some (VBool true))
  /\ (async o = VBool false \/ async o = VUndefined ->
      head (async_flags (trace (ajax d tid h))) = Some (VBool true))
  /\ (truthy (async o) = true ->
      head (async_flags (trace (ajax d tid h))) = Some (async o))
  /\ (forall a,
        head (async_flags (trace (ajax d tid h))) = Some a ->
        truthy a = true).
Proof.
  intros Hd. destruct (ajax_opens d tid h o Hd) as [rest ->].
  simpl. unfold js_or.
  split; [done|]. split; [by intros ->|].
  split; [by intros [-> | ->]|]. split; [by intros ->|].
  intros a [= <-]. by destruct (truthy (async o)) eqn:E.
Qed.

(** A transaction that is under way belongs to an invocation that is. *)
Lemma open_active d tid h es :
  open_transaction (run es (ajax d tid h)) = true ->
  active (run es (ajax d tid h)).
Proof.
  intros Ho. destruct (reachable d tid h es) as [Ha|Hf]; [done|].
  rewrite (finished_closed _ Hf) in Ho. done.
Qed.

Lemma is_success_range st : is_success st = true <-> 200 <= st <= 299.
Proof. unfold is_success. rewrite andb_true_iff, !Z.leb_le. done. Qed.

(** C4: when the transaction ends with a status outside 200-299, the
    promise is rejected with an error whose message is the status text,
    whatever text the response has brought; so it is when the transaction
    fails in the network, where the status is 0 and its text is empty. *)
Theorem failure_status_rejects d tid h es st txt ct :
  open_transaction (run es (ajax d tid h)) = true ->
  st < 200 \/ 299 < st ->
  promise (step (EvDone st txt ct) (run es (ajax d tid h)))
  = Rejected (Error txt)
  /\ settlements (trace (step (EvDone st txt ct) (run es (ajax d tid h))))
     = [Rejected (Error txt)]
  /\ promise (step EvError (run es (ajax d tid h))) = Rejected (Error "").
Proof.
  intros Ho Hst. pose proof (open_active _ _ _ _ Ho) as Ha.
  set (s := run es (ajax d tid h)) in *.
  rewrite step_done, step_error by done.
  assert (is_success st = false) as Hfail.
  { destruct (is_success st) eqn:E; [|done].
    apply is_success_range in E. lia. }
  destruct (listener_done s (set_response st txt ct (req s)) Ha)
    as (_ & _ & _ & _ & _ & Hrej & _).
  destruct (Hrej Hfail) as (Htr & Hp & _).
  destruct (listener_done s
              (set_responseText "" (set_response 0 "" None (req s))) Ha)
    as (_ & _ & _ & _ & _ & Hrej' & _).
  destruct (Hrej' eq_refl) as (_ & Hp' & _).
  split; [done|]. split; [|done].
  rewrite Htr, !settlements_app, (active_unsettled _ Ha).
  by destruct (clears_quiet s) as (-> & _).
Qed.

(** C5: when the transaction ends with a status in 200-299, the promise is
    resolved with the request; if the response's [Content-Type] is exactly
    [application/json], the request carries [responseJSON], the JSON parse
    of the response text, and for every other content type, or none, it
    carries no [responseJSON]. *)
Theorem success_attaches_json d tid h es st txt ct :
  open_transaction (run es (ajax d tid h)) = true ->
  200 <= st <= 299 ->
  (ct = Some "application/json" ->
   forall v, JSON_parse (responseText (req (run es (ajax d tid h)))) = Some v ->
   exists x,
     promise (step (EvDone st txt ct) (run es (ajax d tid h))) = Fulfilled x
     /\ responseJSON x = Some v
     /\ responseText x = responseText (req (run es (ajax d tid h))))
  /\ (ct <> Some "application/json" ->
      exists x,
        promise (step (EvDone st txt ct) (run es (ajax d tid h)))
        = Fulfilled x
        /\ responseJSON x = None
        /\ responseText x = responseText (req (run es (ajax d tid h)))).
Proof.
  intros Ho Hst. pose proof (open_active _ _ _ _ Ho) as Ha.
  set (s := run es (ajax d tid h)) in *.
  rewrite step_done by done. apply is_success_range in Hst.
  destruct (listener_done s (set_response st txt ct (req s)) Ha)
    as ((_ & _ & _ & Htxt & _) & _ & _ & _ & _ & _ & Hplain & Hjson & _).
  simpl in *. split.
  - intros Hct v Hv.
    destruct (Hjson Hst (bool_decide_eq_true_2 _ Hct) v Hv)
      as (_ & Hp & Hj).
    eexists. split; [exact Hp|]. by split.
  - intros Hct.
    destruct (Hplain Hst (bool_decide_eq_false_2 _ Hct)) as (_ & Hp & Hj).
    eexists. split; [exact Hp|]. split; [|done].
    by rewrite Hj, (active_json _ Ha).
Qed.

(** C9: when the transaction ends with a status in 200-299 and the
    [Content-Type] [application/json], and the response text is not JSON,
    the parser's exception leaves the listener uncaught, and the promise is
    not settled then or at any time after: it is neither resolved nor
    rejected. *)
Theorem unparsable_json_escapes d tid h es st txt :
  open_transaction (run es (ajax d tid h)) = true ->
  200 <= st <= 299 ->
  JSON_parse (responseText (req (run es (ajax d tid h)))) = None ->
  last (trace (step (EvDone st txt (Some "application/json"))
                 (run es (ajax d tid h))))
  = Some (EUncaught (SyntaxError "JSON.parse"))
  /\ forall es',
       promise (run es' (step (EvDone st txt (Some "application/json"))
                           (run es (ajax d tid h)))) = Pending
       /\ settlements
            (trace (run es' (step (EvDone st txt (Some "application/json"))
                               (run es (ajax d tid h))))) = [].
Proof.
  intros Ho Hst Hparse. pose proof (open_active _ _ _ _ Ho) as Ha.
  set (s := run es (ajax d tid h)) in *.
  rewrite step_done by done. apply is_success_range in Hst.
  pose proof (active_done s
    (set_response st txt (Some "application/json") (req s)) Ha) as Hfin.
  destruct (listener_done s
    (set_response st txt (Some "application/json") (req s)) Ha)
    as (_ & _ & _ & _ & _ & _ & _ & _ & Hfault).
  destruct (Hfault Hst eq_refl Hparse) as (Htr & Hp & _).
  split.
  - by rewrite Htr, app_assoc, last_snoc.
  - intros es'. rewrite finished_run by done. split; [done|].
    rewrite Htr, !settlements_app, (active_unsettled _ Ha).
    by destruct (clears_quiet s) as (-> & _).
Qed.

(** In Comet mode: a live interval belongs to a call that has started it,
    on a value that has passed the test, and that value is what the
    callback of the interval finds. *)
Lemma comet_mode l tid h o m es :
  supplied h l o m ->
  interval (run es (ajax (DObject l) tid h)) <> None ->
  active (run es (ajax (DObject l) tid h))
  /\ is_comet_callback (comet o) = true
  /\ comet_of (run es (ajax (DObject l) tid h)) = Some (comet o)
  /\ active (ajax (DObject l) tid h)
  /\ comet_of (ajax (DObject l) tid h) = Some (comet o)
  /\ orderly (ajax (DObject l) tid h)
  /\ lastLine (ajax (DObject l) tid h) = PNull
  /\ cometLength (ajax (DObject l) tid h) = 0%nat.
Proof.
  intros Hsup Hi.
  assert (active (run es (ajax (DObject l) tid h))) as Ha.
  { destruct (reachable (DObject l) tid h es) as [Ha|Hf]; [done|].
    by destruct Hi; apply finished_interval. }
  destruct (run_keeps es (ajax (DObject l) tid h)
              (ajax_reachable (DObject l) tid h)) as (_ & Ht & Hc).
  rewrite (active_timer _ Ha), Ht in Hi.
  destruct (serialized (data o) (active_headers o m)) as [d|] eqn:Hser.
  - destruct (call_ok l tid h o m d Hsup Hser) as (_ & _ & _ & Ht0 & Ha0).
    destruct (call_callback l tid h o m d Hsup Hser)
      as (Hc0 & Hord & Hl0 & Hn0).
    rewrite Ht0 in Hi.
    destruct (is_comet_callback (comet o)) eqn:Hcomet; [|done].
    rewrite Hc, (Hc0 eq_refl). done.
  - exfalso.
    destruct (call_throws l tid h o m Hsup Hser) as (e & _ & Hp & _).
    destruct (ajax_reachable (DObject l) tid h) as [Ha0|Hf].
    + rewrite (active_pending _ Ha0) in Hp. done.
    + rewrite <- Ht, <- (active_timer _ Ha) in Hi.
      rewrite finished_run in Hi by done.
      by destruct Hi; apply finished_interval.
Qed.


(** C2, as the function has it: in every invocation the promise is settled
    at most once, by one call of [resolve] or of [reject]; an interval that
    was set is cleared before that call, the Comet callback is not called
    after it, and no event changes the state once the promise is settled.
    When the transaction is done, the promise has been settled exactly
    once, unless the response is a successful one that declares JSON and
    whose text is none: then the promise has not been settled. *)
Theorem settles_at_most_once d tid h es :
  let s := run es (ajax d tid h) in
  (length (settlements (trace s)) <= 1)%nat
  /\ promise s = default Pending (head (settlements (trace s)))
  /\ settles_after_clearing (trace s)
  /\ (promise s <> Pending ->
      interval s = None /\ forall es', run es' s = s)
  /\ (readyState (req s) = 4 -> ~ json_fault (req s) ->
      length (settlements (trace s)) = 1%nat)
  /\ (readyState (req s) = 4 -> json_fault (req s) ->
      settlements (trace s) = []).
Proof.
  intros s. destruct (reachable d tid h es) as [Ha|Hf]; fold s in Ha || fold s in Hf.
  - pose proof (active_unsettled _ Ha) as Hu.
    pose proof (active_pending _ Ha) as Hp.
    pose proof (active_open _ Ha) as Ho.
    apply andb_true_iff in Ho as [_ Hr]. apply Z.ltb_lt in Hr.
    rewrite Hu, Hp. simpl.
    split; [lia|]. split; [done|]. split; [by apply settled_nowhere|].
    split; [done|]. split; intros; lia.
  - destruct Hf as [Hc Hi Hone Hp Hord Hfault Hclean].
    split; [done|]. split; [done|]. split; [done|].
    split; [|split; [done|]].
    + intros _. split; [done|]. intros es'. by apply finished_run.
    + intros Hr Hj. by destruct (Hfault Hr Hj).
Qed.

(** In Comet mode a transaction that is under way has its interval. *)
Lemma comet_mode_timer l tid h o m es :
  supplied h l o m ->
  is_comet_callback (comet o) = true ->
  open_transaction (run es (ajax (DObject l) tid h)) = true ->
  cometTimer (run es (ajax (DObject l) tid h)) = Some tid.
Proof.
  intros Hsup Hcomet Ho.
  destruct (run_keeps es (ajax (DObject l) tid h)
              (ajax_reachable (DObject l) tid h)) as (_ & -> & _).
  destruct (serialized (data o) (active_headers o m)) as [d|] eqn:Hser.
  - destruct (call_ok l tid h o m d Hsup Hser) as (_ & _ & _ & -> & _).
    by rewrite Hcomet.
  - exfalso. destruct (call_throws l tid h o m Hsup Hser)
      as (e & _ & Hp & _).
    destruct (ajax_reachable (DObject l) tid h) as [Ha|Hf].
    + rewrite (active_pending _ Ha) in Hp. done.
    + rewrite finished_run, (finished_closed _ Hf) in Ho by done. done.
Qed.

(** The promise is resolved with the request. *)
Lemma resolved_with_request s x0 x :
  active s ->
  promise (fire on_readystatechange (with_req (set_readyState 4 x0) s))
  = Fulfilled x ->
  x = req (fire on_readystatechange (with_req (set_readyState 4 x0) s)).
Proof.
  intros Ha.
  destruct (listener_done s x0 Ha)
    as (_ & _ & _ & _ & _ & Hrej & Hplain & Hjson & Hfault).
  destruct (is_success (status x0)).
  - destruct (bool_decide (responseContentType x0 = Some "application/json")).
    + destruct (JSON_parse (responseText x0)) as [v|] eqn:Hv.
      * destruct (Hjson eq_refl eq_refl v eq_refl) as (_ & -> & _).
        by intros [= <-].
      * by destruct (Hfault eq_refl eq_refl eq_refl) as (_ & -> & _).
    + destruct (Hplain eq_refl eq_refl) as (_ & -> & _). by intros [= <-].
  - by destruct (Hrej eq_refl) as (_ & -> & _).
Qed.

(** C3: in Comet mode, when the transaction reaches the ready state 4, be
    it done or failed, the request gets [responseComet]: the response text
    from the offset [cometLength] on, that is, what is left of the text
    once as many characters are dropped as the text had at the last tick
    of the interval, or none if there was no tick.  The text is the one
    that has arrived when the transaction is done, and is empty when it
    has failed.  The request a resolved promise carries has the property;
    and the Comet callback is not called any more, whatever events
    follow. *)
Theorem comet_tail_on_completion l tid h o m es e :
  supplied h l o m ->
  is_comet_callback (comet o) = true ->
  open_transaction (run es (ajax (DObject l) tid h)) = true ->
  is_terminal e ->
  let s := run es (ajax (DObject l) tid h) in
  let s' := step e s in
  readyState (req s') = 4
  /\ responseComet (req s')
     = Some (substr (cometLength s) (responseText (req s')))
  /\ (forall pre post,
        responseText (req s') = pre +:+ post ->
        String.length pre = cometLength s ->
        responseComet (req s') = Some post)
  /\ ((String.length (responseText (req s')) <= cometLength s)%nat ->
      responseComet (req s') = Some "")
  /\ (forall es1 r es2,
        es = es1 ++ EvTick r :: es2 -> Forall is_no_tick es2 ->
        cometLength s
        = String.length
            (responseText (req (run es1 (ajax (DObject l) tid h)))))
  /\ (Forall is_no_tick es -> cometLength s = 0%nat)
  /\ (forall st txt ct, e = EvDone st txt ct ->
        responseText (req s') = responseText (req s))
  /\ (e = EvError -> responseText (req s') = "")
  /\ (forall x, promise s' = Fulfilled x ->
       responseComet x = Some (substr (cometLength s) (responseText x)))
  /\ forall es',
       comet_args (trace (run es' s')) = comet_args (trace s)
       /\ responseComet (req (run es' s')) = responseComet (req s').
Proof.
  intros Hsup Hcomet Ho He s s'.
  pose proof (open_active _ _ _ _ Ho) as Ha. fold s in Ha, Ho.
  pose proof (comet_mode_timer l tid h o m es Hsup Hcomet Ho) as Ht.
  fold s in Ht.
  assert (active (ajax (DObject l) tid h)) as Ha0.
  { destruct (ajax_reachable (DObject l) tid h) as [Ha0|Hf]; [done|].
    unfold s in Ho. rewrite finished_run in Ho by done.
    by rewrite (finished_closed _ Hf) in Ho. }
  assert (exists x0, s' = fire on_readystatechange
                            (with_req (set_readyState 4 x0) s)
                     /\ responseText x0 = responseText (req s')
                     /\ (forall st txt ct, e = EvDone st txt ct ->
                           responseText x0 = responseText (req s))
                     /\ (e = EvError -> responseText x0 = ""))
    as (x0 & Hs' & Htxt & Hdone & Herr).
  { unfold s'. destruct e; try done.
    - rewrite step_done by done. eexists. split; [done|].
      split; [|by split].
      by destruct (listener_done s (set_response st txt ct (req s)) Ha)
        as ((_ & _ & _ & -> & _) & _).
    - rewrite step_error by done. eexists. split; [done|].
      split; [|by split].
      by destruct (listener_done s
           (set_responseText "" (set_response 0 "" None (req s))) Ha)
        as ((_ & _ & _ & -> & _) & _). }
  pose proof (active_done s x0 Ha) as Hfin. rewrite <- Hs' in Hfin.
  destruct (listener_done s x0 Ha) as ((Hr & _) & Htail & _).
  destruct (listener_done_last s x0 Ha) as (f & Htr & Hf & _).
  rewrite <- Hs' in Hr, Htail, Htr.
  unfold comet_tail in Htail. rewrite Ht, Htxt in Htail.
  split; [done|]. split; [done|].
  split.
  { intros pre post Hsplit Hlen.
    by rewrite Htail, Hsplit, <- Hlen, substr_length_app. }
  split; [intros Hlen; by rewrite Htail, substr_beyond|].
  split.
  { intros es1 r es2 -> Hes2. unfold s in *. rewrite run_app in *.
    rewrite run_cons in *.
    set (s1 := run es1 (ajax (DObject l) tid h)) in *.
    assert (active s1) as Ha1.
    { apply (active_prefix es1 (EvTick r :: es2)); [done|].
      by rewrite run_app. }
    assert (interval s1 <> None) as Hi1.
    { pose proof (comet_mode_timer l tid h o m es1 Hsup Hcomet
                    (active_open _ Ha1)) as Ht1.
      fold s1 in Ht1. by rewrite (active_timer _ Ha1), Ht1. }
    assert (active (step (EvTick r) s1)) as Ha2.
    { rewrite step_tick by done. by apply active_tick. }
    destruct (between_ticks es2 _ Ha2 Hes2 Ho) as (_ & _ & -> & _).
    rewrite step_tick by done.
    by destruct (ticked_keeps s1 r) as (_ & _ & _ & _ & _ & _ & ? & _). }
  split.
  { intros Hes. destruct (between_ticks es _ Ha0 Hes Ho) as (_ & _ & Hlen & _).
    fold s in Hlen. rewrite Hlen.
    destruct (serialized (data o) (active_headers o m)) as [d|] eqn:Hser.
    - by destruct (call_callback l tid h o m d Hsup Hser) as (_ & _ & _ & ?).
    - destruct (call_throws l tid h o m Hsup Hser) as (e0 & _ & Hp & _).
      by rewrite (active_pending _ Ha0) in Hp. }
  split; [intros st txt ct Heq; rewrite <- Htxt; by eapply Hdone|].
  split; [intros Heq; rewrite <- Htxt; by apply Herr|].
  split.
  - intros x Hx. rewrite Hs' in Hx.
    apply resolved_with_request in Hx; [|done]. rewrite <- Hs' in Hx.
    by subst x.
  - intros es'. rewrite finished_run by done. split; [|done].
    rewrite Htr, !comet_args_app, Hf.
    destruct (clears_quiet s) as (_ & -> & _). by rewrite !app_nil_r.
Qed.

Lemma payloads_call_trace tid o d :
  payloads (call_trace tid o d) = [js_or d VNull].
Proof.
  unfold call_trace. by destruct (is_comet_callback (comet o)).
Qed.

Lemma append_nonempty a b : a <> "" -> a +:+ b <> "".
Proof. by destruct a. Qed.

Lemma join_nonempty sep p ps : p <> "" -> join sep (p :: ps) <> "".
Proof. intros Hp. destruct ps; [done|]. simpl. by apply append_nonempty. Qed.

(** The pairs of an object that has entries are not the empty string. *)
Lemma url_encode_nonempty es : es <> [] -> url_encode es <> "".
Proof.
  destruct es as [|kv es]; [done|]. intros _. unfold url_encode. simpl map.
  apply join_nonempty. unfold encode_pair.
  destruct (encodeURIComponent kv.1); done.
Qed.

Lemma js_or_str t : t <> "" -> js_or (VStr t) VNull = VStr t.
Proof.
  intros Ht. unfold js_or. simpl. unfold string_eqb.
  by rewrite bool_decide_eq_false_2.
Qed.

(** C6, as the function has it: a data object that is not [null] and is no
    [FormData] is sent as its JSON text if the [Content-Type] among the
    headers, the shorthand applied, is exactly [application/json];
    otherwise, if the object has an entry, it is sent as its own entries in
    their order, each key and value percent-encoded, as [key=value] joined
    with [&]; and an object without entries is sent as [null]. *)
Theorem object_body_serialized l tid h o m es :
  supplied h l o m ->
  data o = VObj es ->
  let s := ajax (DObject l) tid h in
  let pairs :=
    join "&"
      (map (fun kv => encodeURIComponent kv.1 +:+ "="
                      +:+ encodeURIComponent (ToString kv.2)) es) in
  (active_headers o m !! "Content-Type" = Some "application/json" ->
   exists t, JSON_stringify (VObj es) = Some t
             /\ payloads (trace s) = [VStr t])
  /\ (active_headers o m !! "Content-Type" <> Some "application/json" ->
      es <> [] -> payloads (trace s) = [VStr pairs])
  /\ (active_headers o m !! "Content-Type" <> Some "application/json" ->
      es = [] -> payloads (trace s) = [VNull]).
Proof.
  intros Hsup Hd s pairs.
  change pairs with (url_encode es). clear pairs.
  split; [|split].
  - intros Hct.
    destruct (JSON_stringify_object (VObj es) eq_refl) as (t & Ht & Hne).
    exists t. split; [done|].
    destruct (call_ok l tid h o m (VStr t) Hsup) as (Htr & _).
    { unfold serialized. rewrite Hd. simpl.
      by rewrite (bool_decide_eq_true_2 _ Hct), Ht. }
    fold s in Htr. by rewrite Htr, payloads_call_trace, js_or_str.
  - intros Hct Hes.
    destruct (call_ok l tid h o m (VStr (url_encode es)) Hsup) as (Htr & _).
    { unfold serialized. rewrite Hd. simpl.
      by rewrite (bool_decide_eq_false_2 _ Hct). }
    fold s in Htr. rewrite Htr, payloads_call_trace, js_or_str; [done|].
    by apply url_encode_nonempty.
  - intros Hct ->.
    destruct (call_ok l tid h o m (VStr (url_encode [])) Hsup) as (Htr & _).
    { unfold serialized. rewrite Hd. simpl.
      by rewrite (bool_decide_eq_false_2 _ Hct). }
    fold s in Htr. by rewrite Htr, payloads_call_trace.
Qed.

(** C7, as the function has it: a string that is not empty, and a
    [FormData] when the [Content-Type] among the headers, the shorthand
    applied, is not exactly [application/json], are given to [send] as they
    are, and stay in the data field; without data, and for a URL as the
    descriptor, [null] is sent; for the empty string [null] is sent too. *)
Theorem plain_body_passes l tid h o m :
  supplied h l o m ->
  let s := ajax (DObject l) tid h in
  (forall t, data o = VStr t -> t <> "" ->
     payloads (trace s) = [VStr t]
     /\ exists o', heap s !! l = Some (OOptions o') /\ data o' = VStr t)
  /\ (forall f, data o = VFormData f ->
       active_headers o m !! "Content-Type" <> Some "application/json" ->
       payloads (trace s) = [VFormData f]
       /\ exists o', heap s !! l = Some (OOptions o')
                     /\ data o' = VFormData f)
  /\ (data o = VUndefined -> payloads (trace s) = [VNull])
  /\ (data o = VStr "" -> payloads (trace s) = [VNull])
  /\ (forall u tid' h',
       payloads (trace (ajax (DString u) tid' h')) = [VNull]).
Proof.
  intros Hsup s.
  split; [|split; [|split; [|split]]].
  - intros t Hd Ht.
    destruct (call_ok l tid h o m (VStr t) Hsup) as (Htr & V & _).
    { unfold serialized. by rewrite Hd. }
    fold s in Htr, V. rewrite Htr, payloads_call_trace, js_or_str by done.
    split; [done|]. eexists. split; [apply V | done].
  - intros f Hd Hct.
    destruct (call_ok l tid h o m (VFormData f) Hsup) as (Htr & V & _).
    { unfold serialized. rewrite Hd. simpl.
      by rewrite (bool_decide_eq_false_2 _ Hct). }
    fold s in Htr, V. rewrite Htr, payloads_call_trace.
    split; [done|]. eexists. split; [apply V | done].
  - intros Hd.
    destruct (call_ok l tid h o m VUndefined Hsup) as (Htr & _).
    { unfold serialized. by rewrite Hd. }
    fold s in Htr. by rewrite Htr, payloads_call_trace.
  - intros Hd.
    destruct (call_ok l tid h o m (VStr "") Hsup) as (Htr & _).
    { unfold serialized. by rewrite Hd. }
    fold s in Htr. by rewrite Htr, payloads_call_trace.
  - intros u tid' h'. rewrite call_string.
    destruct (call_ok _ tid' _ _ _ VUndefined (supplied_string u h'))
      as (Htr & _); [done|].
    by rewrite Htr, payloads_call_trace.
Qed.

Lemma set_data_same o : set_data (data o) o = o.
Proof. by destruct o. Qed.

(** What the serialization block makes of the data. *)
Lemma serialized_cases d m d' :
  serialized d m = Some d' ->
  (typeof d = "object" -> m !! "Content-Type" = Some "application/json" ->
   exists t, JSON_stringify d = Some t /\ d' = VStr t)
  /\ (forall es, d = VObj es ->
       m !! "Content-Type" <> Some "application/json" ->
       d' = VStr (url_encode es))
  /\ (forall f, d = VFormData f ->
       m !! "Content-Type" <> Some "application/json" -> d' = d)
  /\ (typeof d <> "object" -> d' = d).
Proof.
  unfold serialized, string_eqb. intros Hser.
  split; [|split; [|split]].
  - intros Hobj Hct.
    rewrite (bool_decide_eq_true_2 _ Hobj), (bool_decide_eq_true_2 _ Hct)
      in Hser. simpl in Hser.
    destruct (JSON_stringify_object d Hobj) as (t & Ht & _).
    exists t. split; [done|]. rewrite Ht in Hser. by inversion Hser.
  - intros es -> Hct. simpl in Hser.
    rewrite (bool_decide_eq_false_2 _ Hct) in Hser. simpl in Hser.
    by inversion Hser.
  - intros f -> Hct. simpl in Hser.
    rewrite (bool_decide_eq_false_2 _ Hct) in Hser. simpl in Hser.
    by inversion Hser.
  - intros Hobj. rewrite (bool_decide_eq_false_2 _ Hobj) in Hser.
    simpl in Hser. by inversion Hser.
Qed.

Lemma serialized_throws d m :
  serialized d m = None ->
  d = VNull /\ m !! "Content-Type" <> Some "application/json".
Proof.
  unfold serialized, string_eqb.
  destruct (decide (m !! "Content-Type" = Some "application/json"))
    as [Hct|Hct].
  - rewrite (bool_decide_eq_true_2 _ Hct).
    by destruct d as [[| | | | |]| | | | |].
  - rewrite (bool_decide_eq_false_2 _ Hct).
    by destruct d as [[| | | | |]| | | | |].
Qed.

(** C10, as the function has it: a call on an options object changes the
    caller's object, and nothing else on the heap.  Its [headers] refer to
    a new, empty headers object if there were none; [Content-Type] in the
    headers object is overwritten with the shorthand if the shorthand is
    there and is not the empty string, and the headers are as they were if
    it is not there or is empty; the data field holds the JSON text or the
    encoded pairs where the serialization block makes them, and is as it
    was where it makes none.  No later event changes the heap. *)
Theorem descriptor_mutated_in_place l tid h o m :
  supplied h l o m ->
  let s := ajax (DObject l) tid h in
  let hl := headers_loc h o in
  exists d',
    heap s !! l = Some (OOptions (set_data d' (set_headers (Some hl) o)))
    /\ (headers o = None -> h !! hl = None /\ m = ∅)
    /\ (forall hl0, headers o = Some hl0 -> hl = hl0)
    /\ heap s !! hl = Some (OHeaders (active_headers o m))
    /\ (forall ct, contentType o = Some ct -> ct <> "" ->
         active_headers o m = <["Content-Type" := ct]> m)
    /\ (contentType o = None \/ contentType o = Some "" ->
         active_headers o m = m)
    /\ (typeof (data o) = "object" ->
         active_headers o m !! "Content-Type" = Some "application/json" ->
         exists t, JSON_stringify (data o) = Some t /\ d' = VStr t)
    /\ (forall es, data o = VObj es ->
         active_headers o m !! "Content-Type" <> Some "application/json" ->
         d' = VStr (url_encode es))
    /\ (forall f, data o = VFormData f ->
         active_headers o m !! "Content-Type" <> Some "application/json" ->
         d' = data o)
    /\ (typeof (data o) <> "object" -> d' = data o)
    /\ frame l hl h (heap s)
    /\ forall es, heap (run es s) = heap s.
Proof.
  intros Hsup s hl.
  assert (exists d',
    view (heap s) l (set_data d' (set_headers (Some hl) o)) hl
      (active_headers o m)
    /\ frame l hl h (heap s)
    /\ ((serialized (data o) (active_headers o m) = Some d')
        \/ (serialized (data o) (active_headers o m) = None
            /\ d' = data o))) as (d' & V & F & Hser).
  { destruct (serialized (data o) (active_headers o m)) as [d|] eqn:Hser.
    - destruct (call_ok l tid h o m d Hsup Hser) as (_ & V & F & _).
      exists d. split; [done|]. split; [done|]. by left.
    - destruct (call_throws l tid h o m Hsup Hser) as (e & _ & _ & V & F).
      exists (data o). split; [|split; [done|by right]].
      change (data o) with (data (set_headers (Some hl) o)).
      by rewrite set_data_same. }
  exists d'.
  split; [apply V|]. split.
  { intros Hh. destruct Hsup as [_ Hm]. rewrite Hh in Hm.
    split; [|done]. unfold hl, headers_loc. rewrite Hh.
    apply not_elem_of_dom, is_fresh. }
  split. { intros hl0 Hh. unfold hl, headers_loc. by rewrite Hh. }
  split; [apply V|]. split.
  { intros ct Hct Hne. unfold active_headers. rewrite Hct. simpl.
    unfold string_eqb. by rewrite bool_decide_eq_false_2. }
  split. { intros [Hct|Hct]; unfold active_headers; by rewrite Hct. }
  assert ((typeof (data o) = "object" ->
           active_headers o m !! "Content-Type" = Some "application/json" ->
           exists t, JSON_stringify (data o) = Some t /\ d' = VStr t)
          /\ (forall es, data o = VObj es ->
               active_headers o m !! "Content-Type"
               <> Some "application/json" ->
               d' = VStr (url_encode es))
          /\ (forall f, data o = VFormData f ->
               active_headers o m !! "Content-Type"
               <> Some "application/json" -> d' = data o)
          /\ (typeof (data o) <> "object" -> d' = data o))
    as (? & ? & ? & ?).
  { destruct Hser as [Hser|[Hser ->]].
    - by apply serialized_cases.
    - apply serialized_throws in Hser as [Hd Hct]. rewrite Hd.
      repeat split; done. }
  do 4 (split; [done|]). split; [done|].
  intros es. by destruct (run_keeps es s (ajax_reachable (DObject l) tid h)).
Qed.

End Claims.

(** ** Runs in the browser *)


(** The next line, once complete, is delivered, and only once. *)
Example lines_delivered_once :
  comet_args (trace (@run browser
    [EvData ("one" +:+ nl); EvTick None; EvTick None;
     EvData ("two" +:+ nl +:+ "thr"); EvTick None; EvData ("ee" +:+ nl);
     EvTick None; EvDone 200 "OK" None; EvTick None]
    (@ajax browser (DObject 1%positive) 7%positive feed_heap)))
  = [PStr "one"; PStr "two"; PStr "three"].
Proof. vm_compute. reflexivity. Qed.

(** A callback that throws is called with the same line at the next tick,
    and its exception is left with the host. *)
Example thrown_line_delivered_again :
  let s := @run browser
             [EvData ("one" +:+ nl); EvTick (Some (Error "boom"));
              EvTick None; EvTick None]
             (@ajax browser (DObject 1%positive) 7%positive feed_heap) in
  comet_args (trace s) = [PStr "one"; PStr "one"]
  /\ faults (trace s) = [Error "boom"].
Proof. vm_compute. split; reflexivity. Qed.

(** An object whose [constructor] is [Function] starts the interval; it
    cannot be called, so every tick that has a line throws, and the
    transaction ends as it would without the callback.  An async function
    starts no interval. *)
Example comet_values :
  let s := @run browser
             [EvData ("one" +:+ nl); EvTick None; EvTick None;
              EvDone 200 "OK" None]
             (@ajax browser (DObject 1%positive) 7%positive
                (poll_heap (VObj [("constructor", VFunction)]))) in
  interval (@ajax browser (DObject 1%positive) 7%positive
              (poll_heap (VObj [("constructor", VFunction)]))) = Some 7%positive
  /\ comet_args (trace s) = []
  /\ faults (trace s) = [not_a_function; not_a_function]
  /\ responseComet (req s) = Some ""
  /\ interval (@ajax browser (DObject 1%positive) 7%positive
                 (poll_heap (VAsync "line"))) = None
  /\ interval (@ajax browser (DObject 1%positive) 7%positive
                 (poll_heap (VObj [("constructor", VFun "f")]))) = None
  /\ interval (@ajax browser (DObject 1%positive) 7%positive
                 (poll_heap VFunction)) = Some 7%positive.
Proof. vm_compute. repeat split; reflexivity. Qed.

(** C2, the claim as it is written, fails on a successful response that
    declares JSON and brings none: the transaction is done, and the promise
    is not settled, then or after further events. *)
Lemma unparsable_json_never_settles :
  let s := @run browser
             [EvData "oops"; EvDone 200 "OK" (Some "application/json")]
             (@ajax browser (DString "/data") 1%positive ∅) in
  readyState (req s) = 4
  /\ settlements (trace s) = []
  /\ promise s = Pending
  /\ settlements
       (trace (@run browser [EvTick None; EvDone 200 "OK" None] s)) = [].
Proof. vm_compute. repeat split. Qed.

(** C6, the claim as it is written, fails on the object without entries:
    its pairs joined are the empty string, and what is sent is [null]. *)
Lemma empty_object_sends_null :
  let s := @ajax browser (DObject 1%positive) 1%positive
             (form_heap (VObj []) "text/plain" None) in
  @url_encode browser [] = ""
  /\ payloads (trace s) = [VNull]
  /\ payloads (trace s) <> [VStr ""].
Proof. vm_compute. repeat split. discriminate. Qed.

(** C7, the claim as it is written, fails on the empty string, which is
    sent as [null], and on a [FormData] under the header
    [Content-Type: application/json], which is sent as its JSON text. *)
Lemma empty_string_sends_null :
  payloads (trace (@ajax browser (DObject 1%positive) 1%positive
                     (form_heap (VStr "") "text/plain" None)))
  = [VNull]
  /\ payloads (trace (@ajax browser (DObject 1%positive) 1%positive
                        (form_heap (VFormData [("file", "png")])
                           "application/json" None)))
     = [VStr "{}"].
Proof. vm_compute. split; reflexivity. Qed.

(** C10, the claim as it is written, fails on the shorthand given as the
    empty string: the header the caller has set is not overwritten. *)
Lemma empty_shorthand_keeps_header :
  let s := @ajax browser (DObject 1%positive) 1%positive
             (form_heap VUndefined "text/plain" (Some "")) in
  contentType (form VUndefined (Some "")) = Some ""
  /\ header_at (heap s) 2%positive "Content-Type" = Some "text/plain"
  /\ header_at (heap s) 2%positive "Content-Type" <> Some "".
Proof. vm_compute. repeat split. discriminate. Qed.

(** ** The theorems at work *)


(** The tick above calls the callback with [two]. *)
Example comet_tick_value :
  let s := @run browser two_lines
             (@ajax browser (DObject 1%positive) 7%positive feed_heap) in
  lastLine s = PStr "one"
  /\ second_to_last (responseText (req s)) = PStr "two"
  /\ trace (@step browser (EvTick None) s) = trace s ++ [EComet (PStr "two")]
  /\ trace (@step browser (EvTick (Some (Error "boom"))) s)
     = trace s ++ [EComet (PStr "two"); EUncaught (Error "boom")]
  /\ lastLine (@step browser (EvTick (Some (Error "boom"))) s) = PStr "one".
Proof. vm_compute. repeat split; reflexivity. Qed.

Lemma comet_tail_on_completion_witness :
  supplied feed_heap 1%positive feed ∅
  /\ is_comet_callback (comet feed) = true
  /\ open_transaction
       (@run browser two_lines
          (@ajax browser (DObject 1%positive) 7%positive feed_heap)) = true
  /\ is_terminal (EvDone 200 "OK" None)
  /\ (let s := @run browser two_lines
                 (@ajax browser (DObject 1%positive) 7%positive feed_heap) in
      let s' := @step browser (EvDone 200 "OK" None) s in
      readyState (req s') = 4
      /\ responseComet (req s')
         = Some (substr (cometLength s) (responseText (req s')))
      /\ (forall pre post,
            responseText (req s') = pre +:+ post ->
            String.length pre = cometLength s ->
            responseComet (req s') = Some post)
      /\ ((String.length (responseText (req s')) <= cometLength s)%nat ->
          responseComet (req s') = Some "")
      /\ (forall es1 r es2,
            two_lines = es1 ++ EvTick r :: es2 -> Forall is_no_tick es2 ->
            cometLength s
            = String.length
                (responseText
                   (req (@run browser es1
                           (@ajax browser (DObject 1%positive) 7%positive
                              feed_heap)))))
      /\ (Forall is_no_tick two_lines -> cometLength s = 0%nat)
      /\ (forall st txt ct, EvDone 200 "OK" None = EvDone st txt ct ->
            responseText (req s') = responseText (req s))
      /\ (EvDone 200 "OK" None = EvError -> responseText (req s') = "")
      /\ (forall x, promise s' = Fulfilled x ->
           responseComet x = Some (substr (cometLength s) (responseText x)))
      /\ forall es',
           comet_args (trace (@run browser es' s')) = comet_args (trace s)
           /\ responseComet (req (@run browser es' s'))
              = responseComet (req s')).
Proof.
  assert (supplied feed_heap 1%positive feed ∅) as Hsup
    by (split; reflexivity).
  split; [exact Hsup|]. split; [reflexivity|]. split; [reflexivity|].
  split; [exact I|].
  apply (@comet_tail_on_completion browser 1%positive 7%positive feed_heap
           feed ∅ two_lines (EvDone 200 "OK" None) Hsup);
    [reflexivity | reflexivity | exact I].
Defined.

(** What the run above leaves in [responseComet]: the text after the four
    characters the one tick has seen. *)
Example comet_tail_value :
  responseComet (req (@run browser (two_lines ++ [EvDone 200 "OK" None])
    (@ajax browser (DObject 1%positive) 7%positive feed_heap)))
  = Some ("two" +:+ nl +:+ "thr").
Proof. vm_compute. reflexivity. Qed.

Lemma failure_status_rejects_witness :
  open_transaction
    (@run browser [EvData "gone"]
       (@ajax browser (DString "/missing") 1%positive ∅)) = true
  /\ (404 < 200 \/ 299 < 404)
  /\ (promise (@step browser (EvDone 404 "Not Found" (Some "text/html"))
                 (@run browser [EvData "gone"]
                    (@ajax browser (DString "/missing") 1%positive ∅)))
      = Rejected (Error "Not Found")
      /\ settlements
           (trace (@step browser (EvDone 404 "Not Found" (Some "text/html"))
                     (@run browser [EvData "gone"]
                        (@ajax browser (DString "/missing") 1%positive ∅))))
         = [Rejected (Error "Not Found")]
      /\ promise (@step browser EvError
                    (@run browser [EvData "gone"]
                       (@ajax browser (DString "/missing") 1%positive ∅)))
         = Rejected (Error "")).
Proof.
  split; [reflexivity|]. split; [right; lia|].
  apply (@failure_status_rejects browser (DString "/missing") 1%positive ∅
           [EvData "gone"] 404 "Not Found" (Some "text/html"));
    [reflexivity | right; lia].
Defined.

Lemma success_attaches_json_witness :
  open_transaction
    (@run browser [EvData a_is_1]
       (@ajax browser (DString "/a.json") 1%positive ∅)) = true
  /\ 200 <= 200 <= 299
  /\ ((Some "application/json" = Some "application/json" ->
       forall v,
         @JSON_parse browser
           (responseText (req (@run browser [EvData a_is_1]
              (@ajax browser (DString "/a.json") 1%positive ∅)))) = Some v ->
         exists x,
           promise (@step browser (EvDone 200 "OK" (Some "application/json"))
                      (@run browser [EvData a_is_1]
                         (@ajax browser (DString "/a.json") 1%positive ∅)))
           = Fulfilled x
           /\ responseJSON x = Some v
           /\ responseText x
              = responseText (req (@run browser [EvData a_is_1]
                  (@ajax browser (DString "/a.json") 1%positive ∅))))
      /\ (Some "application/json" <> Some "application/json" ->
          exists x,
            promise (@step browser (EvDone 200 "OK" (Some "application/json"))
                       (@run browser [EvData a_is_1]
                          (@ajax browser (DString "/a.json") 1%positive ∅)))
            = Fulfilled x
            /\ responseJSON x = None
            /\ responseText x
               = responseText (req (@run browser [EvData a_is_1]
                   (@ajax browser (DString "/a.json") 1%positive ∅))))).
Proof.
  split; [reflexivity|]. split; [lia|].
  apply (@success_attaches_json browser (DString "/a.json") 1%positive ∅
           [EvData a_is_1] 200 "OK" (Some "application/json"));
    [reflexivity | lia].
Defined.

(** The response [{"a":1}] under [application/json] gives the object
    [{a: 1}] as [responseJSON]; under [text/plain] it gives none. *)
Example json_field_value :
  (match promise (@run browser
           [EvData a_is_1; EvDone 200 "OK" (Some "application/json")]
           (@ajax browser (DString "/a.json") 1%positive ∅)) with
   | Fulfilled x => responseJSON x
   | _ => None
   end = Some (VObj [("a", VNum 1)]))
  /\ (match promise (@run browser
              [EvData a_is_1; EvDone 200 "OK" (Some "text/plain")]
              (@ajax browser (DString "/a.json") 1%positive ∅)) with
      | Fulfilled x => Some (responseJSON x)
      | _ => None
      end = Some None).
Proof. vm_compute. split; reflexivity. Qed.

Lemma unparsable_json_escapes_witness :
  open_transaction
    (@run browser [EvData "oops"]
       (@ajax browser (DString "/data") 1%positive ∅)) = true
  /\ 200 <= 200 <= 299
  /\ @JSON_parse browser
       (responseText (req (@run browser [EvData "oops"]
          (@ajax browser (DString "/data") 1%positive ∅)))) = None
  /\ (last (trace (@step browser (EvDone 200 "OK" (Some "application/json"))
                     (@run browser [EvData "oops"]
                        (@ajax browser (DString "/data") 1%positive ∅))))
      = Some (EUncaught (SyntaxError "JSON.parse"))
      /\ forall es',
           promise (@run browser es'
                      (@step browser (EvDone 200 "OK" (Some "application/json"))
                         (@run browser [EvData "oops"]
                            (@ajax browser (DString "/data") 1%positive ∅))))
           = Pending
           /\ settlements
                (trace (@run browser es'
                   (@step browser (EvDone 200 "OK" (Some "application/json"))
                      (@run browser [EvData "oops"]
                         (@ajax browser (DString "/data") 1%positive ∅)))))
              = []).
Proof.
  split; [reflexivity|]. split; [lia|]. split; [reflexivity|].
  apply (@unparsable_json_escapes browser (DString "/data") 1%positive ∅
           [EvData "oops"] 200 "OK"); [reflexivity | lia | reflexivity].
Defined.

Lemma open_async_flag_witness :
  describes (DObject 1%positive) feed_heap feed
  /\ (head (async_flags
              (trace (@ajax browser (DObject 1%positive) 7%positive
                        feed_heap)))
      = Some (js_or (async feed) (VBool true))
      /\ (truthy (async feed) = false ->
          head (async_flags
                  (trace (@ajax browser (DObject 1%positive) 7%positive
                            feed_heap))) = Some (VBool true))
      /\ (async feed = VBool false \/ async feed = VUndefined ->
          head (async_flags
                  (trace (@ajax browser (DObject 1%positive) 7%positive
                            feed_heap))) = Some (VBool true))
      /\ (truthy (async feed) = true ->
          head (async_flags
                  (trace (@ajax browser (DObject 1%positive) 7%positive
                            feed_heap))) = Some (async feed))
      /\ (forall a,
            head (async_flags
                    (trace (@ajax browser (DObject 1%positive) 7%positive
                              feed_heap))) = Some a ->
            truthy a = true)).
Proof.
  split; [reflexivity|].
  apply (@open_async_flag browser (DObject 1%positive) 7%positive feed_heap
           feed); reflexivity.
Defined.

(** An explicit [false] reaches [open] as [true]; a truthy value, [1] or
    a string, reaches it as it is. *)
Example async_flag_values :
  async_flags (trace (@ajax browser (DObject 1%positive) 7%positive
                        feed_heap)) = [VBool true]
  /\ async_flags (trace (@ajax browser (DObject 1%positive) 1%positive
                           {[ 1%positive := OOptions (with_async (VNum 1)) ]}))
     = [VNum 1]
  /\ async_flags (trace (@ajax browser (DObject 1%positive) 1%positive
                           {[ 1%positive := OOptions (with_async (VNum 0)) ]}))
     = [VBool true]
  /\ async_flags (trace (@ajax browser (DString "/x") 1%positive ∅))
     = [VBool true].
Proof. vm_compute. repeat split; reflexivity. Qed.

Lemma object_body_serialized_witness :
  supplied feed_heap 1%positive feed ∅
  /\ data feed = VObj [("foo", VStr "a b"); ("bar", VNum 2)]
  /\ (let s := @ajax browser (DObject 1%positive) 7%positive feed_heap in
      let pairs :=
        join "&"
          (map (fun kv => @encodeURIComponent browser kv.1 +:+ "="
                          +:+ @encodeURIComponent browser
                                (@ToString browser kv.2))
               [("foo", VStr "a b"); ("bar", VNum 2)]) in
      (active_headers feed ∅ !! "Content-Type" = Some "application/json" ->
       exists t,
         @JSON_stringify browser (VObj [("foo", VStr "a b"); ("bar", VNum 2)])
         = Some t
         /\ payloads (trace s) = [VStr t])
      /\ (active_headers feed ∅ !! "Content-Type"
          <> Some "application/json" ->
          [("foo", VStr "a b"); ("bar", VNum 2)] <> [] ->
          payloads (trace s) = [VStr pairs])
      /\ (active_headers feed ∅ !! "Content-Type"
          <> Some "application/json" ->
          [("foo", VStr "a b"); ("bar", VNum 2)] = [] ->
          payloads (trace s) = [VNull])).
Proof.
  assert (supplied feed_heap 1%positive feed ∅) as Hsup
    by (split; reflexivity).
  split; [exact Hsup|]. split; [reflexivity|].
  apply (@object_body_serialized browser 1%positive 7%positive feed_heap
           feed ∅ [("foo", VStr "a b"); ("bar", VNum 2)] Hsup).
  reflexivity.
Defined.

(** The body [{foo: "a b", bar: 2}] is sent as [foo=a%20b&bar=2]; under the
    shorthand [application/json] it is sent as [{"foo":"a b","bar":2}]. *)
Example pairs_value :
  payloads (trace (@ajax browser (DObject 1%positive) 7%positive feed_heap))
  = [VStr "foo=a%20b&bar=2"]
  /\ payloads (trace (@ajax browser (DObject 1%positive) 1%positive
       (form_heap (VObj [("foo", VStr "a b"); ("bar", VNum 2)])
          "text/plain" (Some "application/json"))))
     = [VStr ("{" +:+ String Browser.DQ ("foo" +:+ String Browser.DQ (":"
              +:+ String Browser.DQ ("a b" +:+ String Browser.DQ (","
              +:+ String Browser.DQ ("bar" +:+ String Browser.DQ ":2}"))))))].
Proof. vm_compute. split; reflexivity. Qed.

Lemma plain_body_passes_witness :
  supplied (form_heap (VStr "a=1") "text/plain" None) 1%positive
    (form (VStr "a=1") None) {[ "Content-Type" := "text/plain" ]}
  /\ (let s := @ajax browser (DObject 1%positive) 1%positive
                 (form_heap (VStr "a=1") "text/plain" None) in
      (forall t, data (form (VStr "a=1") None) = VStr t -> t <> "" ->
         payloads (trace s) = [VStr t]
         /\ exists o', heap s !! 1%positive = Some (OOptions o')
                       /\ data o' = VStr t)
      /\ (forall f, data (form (VStr "a=1") None) = VFormData f ->
           active_headers (form (VStr "a=1") None)
             {[ "Content-Type" := "text/plain" ]} !! "Content-Type"
           <> Some "application/json" ->
           payloads (trace s) = [VFormData f]
           /\ exists o', heap s !! 1%positive = Some (OOptions o')
                         /\ data o' = VFormData f)
      /\ (data (form (VStr "a=1") None) = VUndefined ->
          payloads (trace s) = [VNull])
      /\ (data (form (VStr "a=1") None) = VStr "" ->
          payloads (trace s) = [VNull])
      /\ (forall u tid' h',
           payloads (trace (@ajax browser (DString u) tid' h')) = [VNull])).
Proof.
  assert (supplied (form_heap (VStr "a=1") "text/plain" None) 1%positive
            (form (VStr "a=1") None) {[ "Content-Type" := "text/plain" ]})
    as Hsup by (split; reflexivity).
  split; [exact Hsup|].
  apply (@plain_body_passes browser 1%positive 1%positive
           (form_heap (VStr "a=1") "text/plain" None)
           (form (VStr "a=1") None) {[ "Content-Type" := "text/plain" ]} Hsup).
Defined.

(** A string and a [FormData] as they reach [send]. *)
Example plain_body_values :
  payloads (trace (@ajax browser (DObject 1%positive) 1%positive
                     (form_heap (VStr "a=1") "text/plain" None)))
  = [VStr "a=1"]
  /\ payloads (trace (@ajax browser (DObject 1%positive) 1%positive
                        (form_heap (VFormData [("file", "png")])
                           "multipart/form-data" None)))
     = [VFormData [("file", "png")]]
  /\ payloads (trace (@ajax browser (DString "/x") 1%positive ∅)) = [VNull].
Proof. vm_compute. repeat split; reflexivity. Qed.

Lemma descriptor_mutated_in_place_witness :
  supplied feed_heap 1%positive feed ∅
  /\ (let s := @ajax browser (DObject 1%positive) 7%positive feed_heap in
      let hl := headers_loc feed_heap feed in
      exists d',
        heap s !! 1%positive
        = Some (OOptions (set_data d' (set_headers (Some hl) feed)))
        /\ (headers feed = None -> feed_heap !! hl = None /\ ∅ = (∅ : gmap string string))
        /\ (forall hl0, headers feed = Some hl0 -> hl = hl0)
        /\ heap s !! hl = Some (OHeaders (active_headers feed ∅))
        /\ (forall ct, contentType feed = Some ct -> ct <> "" ->
             active_headers feed ∅ = <["Content-Type" := ct]> ∅)
        /\ (contentType feed = None \/ contentType feed = Some "" ->
             active_headers feed ∅ = ∅)
        /\ (typeof (data feed) = "object" ->
             active_headers feed ∅ !! "Content-Type"
             = Some "application/json" ->
             exists t, @JSON_stringify browser (data feed) = Some t
                       /\ d' = VStr t)
        /\ (forall es, data feed = VObj es ->
             active_headers feed ∅ !! "Content-Type"
             <> Some "application/json" ->
             d' = VStr (@url_encode browser es))
        /\ (forall f, data feed = VFormData f ->
             active_headers feed ∅ !! "Content-Type"
             <> Some "application/json" ->
             d' = data feed)
        /\ (typeof (data feed) <> "object" -> d' = data feed)
        /\ frame 1%positive hl feed_heap (heap s)
        /\ forall es, heap (@run browser es s) = heap s).
Proof.
  assert (supplied feed_heap 1%positive feed ∅) as Hsup
    by (split; reflexivity).
  split; [exact Hsup|].
  apply (@descriptor_mutated_in_place browser 1%positive 7%positive
           feed_heap feed ∅ Hsup).
Defined.

(** The caller's objects after the call: the data field holds the pairs,
    the new headers object is at 2; with the shorthand, the caller's header
    is overwritten. *)
Example mutation_values :
  data_at (heap (@ajax browser (DObject 1%positive) 7%positive feed_heap))
    1%positive = Some (VStr "foo=a%20b&bar=2")
  /\ headers_loc feed_heap feed = 2%positive
  /\ feed_heap !! 2%positive = None
  /\ header_at
       (heap (@ajax browser (DObject 1%positive) 1%positive
                (form_heap VUndefined "text/plain" (Some "text/csv"))))
       2%positive "Content-Type" = Some "text/csv".
Proof. vm_compute. repeat split; reflexivity. Qed.

(** * More properties of the function *)

(** ** The blocks before the serialization, in full *)

Section Prepared.
Context `{Host}.

(** The headers of the object go to the request, over what it has. *)
Lemma apply_headers_exact m : forall s,
  apply_headers m s
  = (Ret tt,
     with_req (set_requestHeaders (m ∪ requestHeaders (req s)) (req s)) s).
Proof.
  unfold apply_headers.
  apply (map_fold_weak_ind (fun (r : M unit) (m : gmap string string) =>
    forall s, r s
    = (Ret tt,
       with_req (set_requestHeaders (m ∪ requestHeaders (req s)) (req s)) s))).
  - intros s. rewrite (left_id_L ∅ (∪)). by destruct s as [? []].
  - intros k v m' r Hk IH s.
    unfold mbind, M_bind, setRequestHeader, modify. rewrite IH. simpl.
    rewrite <- insert_union_r by done. by rewrite insert_union_l.
Qed.

Lemma set_request_headers_exact l o hl m s :
  view (heap s) l o hl m ->
  set_request_headers l s
  = (Ret tt,
     with_req (set_requestHeaders (m ∪ requestHeaders (req s)) (req s)) s).
Proof.
  intros [Ho Hh Hm].
  unfold set_request_headers, mbind, M_bind, read_options, read_headers.
  rewrite Ho, Hh, Hm. apply apply_headers_exact.
Qed.

(** The first four blocks on the caller's objects, whatever follows. *)
Lemma prepare_ok l o m s :
  supplied (heap s) l o m ->
  exists s3,
    (forall K : M unit,
       (open_request l ;; default_headers l ;; content_type_shorthand l ;;
        set_request_headers l ;; K) s = K s3)
    /\ view (heap s3) l (set_headers (Some (headers_loc (heap s) o)) o)
         (headers_loc (heap s) o) (active_headers o m)
    /\ frame l (headers_loc (heap s) o) (heap s) (heap s3)
    /\ trace s3 = trace (opened o s)
    /\ requestHeaders (req s3)
       = active_headers o m ∪ requestHeaders (req s)
    /\ quiet s s3.
Proof.
  intros Hsup. pose proof Hsup as [Ho _].
  set (hl := headers_loc (heap s) o).
  destruct (default_headers_ok l o m (opened o s) Hsup)
    as (hp1 & E1 & V1 & F1). fold hl in V1, F1.
  set (o1 := set_headers (Some hl) o) in *.
  destruct (content_type_shorthand_ok l o1 hl m
              (with_heap hp1 (opened o s)) V1) as (hp2 & E2 & V2 & F2).
  simpl in V2, F2.
  change (active_headers o1 m) with (active_headers o m) in V2.
  pose proof (set_request_headers_exact l o1 hl (active_headers o m)
                (with_heap hp2 (with_heap hp1 (opened o s))) V2) as E3.
  eexists. split.
  { intros K.
    unfold mbind at 1, M_bind at 1. rewrite (open_request_ok l o s Ho).
    unfold mbind at 1, M_bind at 1. rewrite E1.
    unfold mbind at 1, M_bind at 1. rewrite E2.
    unfold mbind at 1, M_bind at 1. rewrite E3. reflexivity. }
  split; [exact V2|]. split.
  { simpl. eapply frame_trans; [exact F1 | exact F2]. }
  split; [done|]. split; [done|].
  split; simpl; try done; [by right|].
  eexists. split; [done|]. by repeat constructor.
Qed.

Lemma send_request_ok l o s :
  heap s !! l = Some (OOptions o) -> send_request l s = (Ret tt, sent o s).
Proof.
  intros Ho. unfold send_request, mbind, M_bind, read_options.
  by rewrite Ho.
Qed.

(** [null] as data, not under JSON: [Object.entries] throws. *)
Lemma serialize_data_null l o hl m s :
  view (heap s) l o hl m ->
  data o = VNull ->
  m !! "Content-Type" <> Some "application/json" ->
  serialize_data l s = (Throw entries_of_null, s).
Proof.
  intros [Ho Hh Hm] Hd Hct.
  unfold serialize_data, mbind, M_bind.
  unfold read_options at 1. rewrite Ho, Hd. simpl.
  unfold content_type_is_json, headers_of, read_headers, read_options,
    mbind, M_bind, mret, M_ret. rewrite Ho, Hh, Hm.
  by rewrite (bool_decide_eq_false_2 _ Hct).
Qed.

End Prepared.

(** ** The call, effect by effect *)

Section Effects.
Context `{Host}.

(** The serialization block throws on [null] outside JSON only. *)
Lemma serialized_some d m :
  d <> VNull \/ m !! "Content-Type" = Some "application/json" ->
  exists d', serialized d m = Some d'.
Proof.
  intros Hd. destruct (serialized d m) as [d'|] eqn:E; [by eexists|].
  apply serialized_throws in E as [-> Hct]. by destruct Hd.
Qed.

(** The state a call reaches, from the state the first four blocks
    leave. *)
Lemma call_exact l tid h o m d :
  supplied h l o m ->
  serialized (data o) (active_headers o m) = Some d ->
  exists s3 hp,
    ajax (DObject l) tid h
    = sent (options_after h o d)
        (started l tid (options_after h o d) (with_heap hp s3))
    /\ requestHeaders (req s3) = active_headers o m
    /\ quiet (initial h) s3.
Proof.
  intros Hsup Hser. rewrite ajax_unfold. simpl target. simpl entry_heap.
  destruct (prepare_ok l o m (initial h) Hsup)
    as (s3 & HK & V & F & Htr & Hrh & Q).
  unfold executor. rewrite HK.
  destruct (serialize_data_ok l _ _ _ s3 d V Hser) as (hp & E & V' & F').
  unfold mbind at 1, M_bind at 1. rewrite E. rewrite launch. simpl heap.
  rewrite (view_options _ _ _ _ _ V').
  exists s3, hp. split; [done|]. split; [|done].
  simpl in Hrh. by rewrite Hrh, (right_id_L ∅ (∪)).
Qed.

(** X1: a call with a URL opens the request with the method [GET] in upper
    case, the flag [true] and no credentials, sends [null], and does
    nothing else; the promise is pending, there is no interval, the request
    has no headers, and every object of the caller is as it was. *)
Theorem url_call_effects u tid h :
  let s := ajax (DString u) tid h in
  trace s = [EOpen (toUpperCase "GET") u (VBool true) None None; ESend VNull]
  /\ promise s = Pending
  /\ interval s = None
  /\ requestHeaders (req s) = ∅
  /\ forall l, is_Some (h !! l) -> heap s !! l = h !! l.
Proof.
  intros s. unfold s. rewrite call_string.
  set (l := fresh (dom h)).
  set (h' := <[l := OOptions (url_only u)]> h).
  pose proof (supplied_string u h) as Hsup. fold l h' in Hsup.
  destruct (call_ok l tid h' (url_only u) ∅ VUndefined Hsup eq_refl)
    as (Htr & V & F & Ht & Ha).
  destruct (call_exact l tid h' (url_only u) ∅ VUndefined Hsup eq_refl)
    as (s3 & hp & E & Hrh & Q).
  split; [exact Htr|]. split; [apply (active_pending _ Ha)|].
  split; [by rewrite (active_timer _ Ha), Ht|].
  split; [by rewrite E|].
  intros l' Hl'.
  assert (l' <> l) as Hne.
  { intros ->. apply (is_fresh (dom h)). by apply elem_of_dom. }
  rewrite F; [by apply lookup_insert_ne| done |].
  intros ->. apply (is_fresh (dom h')). unfold headers_loc. simpl.
  apply elem_of_dom. unfold h'. by rewrite lookup_insert_ne.
Qed.

(** X2: the headers set on the request are the headers of the caller's
    object with the shorthand applied, and no others: a shorthand that is
    not empty is the request's [Content-Type], whatever the object has
    under that key, and every other header is the caller's.  They are set
    even when the serialization block throws afterwards. *)
Theorem request_headers_applied l tid h o m :
  supplied h l o m ->
  let s := ajax (DObject l) tid h in
  requestHeaders (req s) = active_headers o m
  /\ (forall ct, contentType o = Some ct -> ct <> "" ->
       requestHeaders (req s) !! "Content-Type" = Some ct)
  /\ (forall k, k <> "Content-Type" -> requestHeaders (req s) !! k = m !! k)
  /\ (contentType o = None \/ contentType o = Some "" ->
       requestHeaders (req s) = m).
Proof.
  intros Hsup s.
  assert (requestHeaders (req s) = active_headers o m) as ->.
  { unfold s.
    destruct (serialized (data o) (active_headers o m)) as [d|] eqn:Hser.
    - destruct (call_exact l tid h o m d Hsup Hser)
        as (s3 & hp & -> & Hrh & _).
      unfold sent, started.
      by destruct (is_comet_callback (comet (options_after h o d))).
    - rewrite ajax_unfold. simpl target. simpl entry_heap.
      destruct (prepare_ok l o m (initial h) Hsup)
        as (s3 & HK & V & F & Htr & Hrh & Q).
      unfold executor. rewrite HK.
      destruct (serialize_data_throws l _ _ _ s3 V Hser) as (e & E).
      unfold mbind at 1, M_bind at 1. rewrite E.
      unfold settle. simpl. destruct (promise s3); simpl;
        simpl in Hrh; by rewrite Hrh, (right_id_L ∅ (∪)). }
  unfold active_headers.
  split; [done|]. split; [|split].
  - intros ct -> Hne. simpl. unfold string_eqb.
    rewrite bool_decide_eq_false_2 by done. simpl.
    by rewrite lookup_insert_eq.
  - intros k Hk. destruct (contentType o) as [ct|]; [|done].
    destruct (truthy (VStr ct)); [|done]. by rewrite lookup_insert_ne.
  - by intros [-> | ->].
Qed.

(** X3: a call on an options object whose data is not [null], or whose
    [Content-Type] is JSON, has these effects and no others, in this order:
    one [open], with the method in upper case, [GET] if there is none or
    it is empty, and with [null] for a user or a password that is not there
    or is empty; then, exactly when [options.comet] is truthy and its
    [constructor] is [Function], one [setInterval], with the rate
    [options.cometPollRate || 100]; then one [send]. *)
Theorem call_effects l tid h o m :
  supplied h l o m ->
  data o <> VNull
  \/ active_headers o m !! "Content-Type" = Some "application/json" ->
  exists payload,
    trace (ajax (DObject l) tid h)
    = [EOpen (toUpperCase (str_or (method o) "GET")) (url o)
             (js_or (async o) (VBool true))
             (str_or_null (user o)) (str_or_null (password o))]
      ++ (if is_comet_callback (comet o)
          then [ESetInterval tid (js_or (cometPollRate o) (VNum 100))]
          else [])
      ++ [ESend payload]
    /\ (method o = None \/ method o = Some "" ->
        str_or (method o) "GET" = "GET")
    /\ (user o = None \/ user o = Some "" -> str_or_null (user o) = None)
    /\ (password o = None \/ password o = Some "" ->
        str_or_null (password o) = None)
    /\ (truthy (cometPollRate o) = false ->
        js_or (cometPollRate o) (VNum 100) = VNum 100).
Proof.
  intros Hsup Hd. destruct (serialized_some _ _ Hd) as [d Hser].
  destruct (call_ok l tid h o m d Hsup Hser) as (Htr & _).
  exists (js_or d VNull). split; [exact Htr|].
  split; [by intros [-> | ->]|]. split; [by intros [-> | ->]|].
  split; [by intros [-> | ->]|].
  intros Hr. unfold js_or. by rewrite Hr.
Qed.

(** X4: a call whose data is [null], outside JSON, fails in
    [Object.entries]: the promise is rejected with that [TypeError], the
    request is opened and never sent, no interval is started and no later
    event changes anything; the headers of the caller's object have been
    changed all the same, and its data is still [null]. *)
Theorem null_data_rejects l tid h o m :
  supplied h l o m ->
  data o = VNull ->
  active_headers o m !! "Content-Type" <> Some "application/json" ->
  let s := ajax (DObject l) tid h in
  promise s = Rejected entries_of_null
  /\ trace s
     = [EOpen (toUpperCase (str_or (method o) "GET")) (url o)
              (js_or (async o) (VBool true))
              (str_or_null (user o)) (str_or_null (password o));
        EReject entries_of_null]
  /\ sendFlag (req s) = false
  /\ interval s = None
  /\ heap s !! headers_loc h o = Some (OHeaders (active_headers o m))
  /\ (exists o', heap s !! l = Some (OOptions o') /\ data o' = VNull
                 /\ headers o' = Some (headers_loc h o))
  /\ forall es, run es s = s.
Proof.
  intros Hsup Hd Hct s.
  pose proof (ajax_reachable (DObject l) tid h) as Hreach. fold s in Hreach.
  assert (exists s3,
    s = settle (Rejected entries_of_null) (log (EReject entries_of_null) s3)
    /\ view (heap s3) l (set_headers (Some (headers_loc h o)) o)
         (headers_loc h o) (active_headers o m)
    /\ trace s3 = trace (opened o (initial h))
    /\ quiet (initial h) s3) as (s3 & Hs & V & Htr & Q).
  { unfold s. rewrite ajax_unfold. simpl target. simpl entry_heap.
    destruct (prepare_ok l o m (initial h) Hsup)
      as (s3 & HK & V & F & Htr & Hrh & Q).
    unfold executor. rewrite HK.
    unfold mbind at 1, M_bind at 1.
    rewrite (serialize_data_null l _ _ _ s3 V) by done.
    by exists s3. }
  assert (promise s = Rejected entries_of_null) as Hp.
  { rewrite Hs. unfold settle. simpl. by rewrite (quiet_promise _ _ Q). }
  assert (heap s = heap s3 /\ trace s = trace s3 ++ [EReject entries_of_null]
          /\ req s = req s3 /\ interval s = interval s3)
    as (Hh & Ht & Hr & Hi).
  { rewrite Hs. unfold settle. simpl. by destruct (promise s3). }
  split; [done|]. split; [by rewrite Ht, Htr|].
  split; [by rewrite Hr, (quiet_send _ _ Q)|].
  split; [by rewrite Hi, (quiet_interval _ _ Q)|].
  split; [rewrite Hh; apply V|]. split.
  { eexists. split; [rewrite Hh; apply V|]. by split. }
  intros es. destruct Hreach as [Ha|Hf]; [|by apply finished_run].
  rewrite (active_pending _ Ha) in Hp. done.
Qed.

(** X5: under the [Content-Type] [application/json] every data of type
    ["object"], [null] and a [FormData] included, is replaced by its JSON
    text, and that text is what is sent. *)
Theorem json_header_stringifies l tid h o m :
  supplied h l o m ->
  typeof (data o) = "object" ->
  active_headers o m !! "Content-Type" = Some "application/json" ->
  exists t,
    JSON_stringify (data o) = Some t /\ t <> ""
    /\ payloads (trace (ajax (DObject l) tid h)) = [VStr t]
    /\ data_at (heap (ajax (DObject l) tid h)) l = Some (VStr t).
Proof.
  intros Hsup Hobj Hct.
  destruct (JSON_stringify_object (data o) Hobj) as (t & Ht & Hne).
  exists t. split; [done|]. split; [done|].
  destruct (call_ok l tid h o m (VStr t) Hsup) as (Htr & V & _).
  { unfold serialized, string_eqb.
    by rewrite (bool_decide_eq_true_2 _ Hobj),
      (bool_decide_eq_true_2 _ Hct), Ht. }
  split; [by rewrite Htr, payloads_call_trace, js_or_str|].
  unfold data_at. by rewrite (view_options _ _ _ _ _ V).
Qed.

(** X6: a data that is not of type ["object"] (a string, a number, a
    boolean, a function, or none) is never serialized: the data field
    stays as it is and [send] gets [options.data || null], which is [null]
    for every falsy data: [0], [NaN], [false], the empty string. *)
Theorem primitive_body_passes l tid h o m :
  supplied h l o m ->
  typeof (data o) <> "object" ->
  payloads (trace (ajax (DObject l) tid h)) = [js_or (data o) VNull]
  /\ data_at (heap (ajax (DObject l) tid h)) l = Some (data o)
  /\ (truthy (data o) = true ->
      payloads (trace (ajax (DObject l) tid h)) = [data o])
  /\ (truthy (data o) = false ->
      payloads (trace (ajax (DObject l) tid h)) = [VNull]).
Proof.
  intros Hsup Hobj.
  destruct (call_ok l tid h o m (data o) Hsup) as (Htr & V & _).
  { unfold serialized, string_eqb.
    by rewrite (bool_decide_eq_false_2 _ Hobj). }
  rewrite Htr, payloads_call_trace. split; [done|]. split.
  { unfold data_at. by rewrite (view_options _ _ _ _ _ V). }
  unfold js_or. split; by intros ->.
Qed.

Lemma active_headers_idem o m :
  active_headers o (active_headers o m) = active_headers o m.
Proof.
  unfold active_headers. destruct (contentType o) as [ct|]; [|done].
  destruct (truthy (VStr ct)); [|done]. apply insert_insert_eq.
Qed.

(** What the serialization block has made is left as it is by the block. *)
Lemma serialized_idem d m d' :
  serialized d m = Some d' -> serialized d' m = Some d'.
Proof.
  unfold serialized, string_eqb.
  destruct (decide (typeof d = "object")) as [Hobj|Hobj].
  - rewrite (bool_decide_eq_true_2 _ Hobj). simpl.
    destruct (decide (m !! "Content-Type" = Some "application/json"))
      as [Hct|Hct].
    + rewrite (bool_decide_eq_true_2 _ Hct).
      destruct (JSON_stringify_object d Hobj) as (t & -> & _).
      by intros [= <-].
    + rewrite (bool_decide_eq_false_2 _ Hct).
      destruct d as [[| | | | |]| | | | |]; simpl in *; try done.
      * by intros [= <-].
      * by intros [= <-].
  - rewrite (bool_decide_eq_false_2 _ Hobj). simpl. intros [= <-].
    by rewrite (bool_decide_eq_false_2 _ Hobj).
Qed.

(** X7: the call leaves the caller's object in a form a second call takes
    as it is: called again on the same object, after the first call has
    returned, the function sends the same payload, without encoding it
    again, and leaves the two objects as the first call has left them. *)
Theorem second_call_resends l tid tid' h o m :
  supplied h l o m ->
  data o <> VNull
  \/ active_headers o m !! "Content-Type" = Some "application/json" ->
  let s1 := ajax (DObject l) tid h in
  let s2 := ajax (DObject l) tid' (heap s1) in
  payloads (trace s2) = payloads (trace s1)
  /\ heap s2 !! l = heap s1 !! l
  /\ heap s2 !! headers_loc h o = heap s1 !! headers_loc h o.
Proof.
  intros Hsup Hd s1 s2. destruct (serialized_some _ _ Hd) as [d Hser].
  destruct (call_ok l tid h o m d Hsup Hser) as (Htr1 & V1 & _).
  fold s1 in Htr1, V1.
  set (o1 := options_after h o d) in *.
  set (hl := headers_loc h o) in *.
  assert (supplied (heap s1) l o1 (active_headers o m)) as Hsup'.
  { split; [apply V1|]. simpl. apply V1. }
  assert (serialized (data o1) (active_headers o1 (active_headers o m))
          = Some d) as Hser'.
  { change (active_headers o1) with (active_headers o).
    rewrite active_headers_idem. simpl. by eapply serialized_idem. }
  destruct (call_ok l tid' (heap s1) o1 (active_headers o m) d Hsup' Hser')
    as (Htr2 & V2 & _).
  fold s2 in Htr2, V2.
  change (active_headers o1) with (active_headers o) in V2.
  rewrite active_headers_idem in V2.
  change (headers_loc (heap s1) o1) with hl in V2.
  split; [by rewrite Htr1, Htr2, !payloads_call_trace|].
  rewrite (view_options _ _ _ _ _ V1), (view_headers _ _ _ _ _ V1).
  rewrite (view_options _ _ _ _ _ V2), (view_headers _ _ _ _ _ V2).
  split; [|done]. unfold options_after. simpl.
  by destruct o.
Qed.

End Effects.

(** ** The invocation, event by event *)

Section Events.
Context `{Host}.

#[local] Arguments second_to_last : simpl never.

(** An event that does not end the transaction leaves it under way. *)
Lemma active_step_open s e :
  active s -> ~ is_terminal e ->
  active (step e s) /\ interval (step e s) = interval s.
Proof.
  intros Ha He.
  assert (open_transaction (step e s) = true) as Ho.
  { pose proof (active_open _ Ha) as Ho.
    destruct e as [r|chunk|n|st txt ct|]; simpl; rewrite ?Ho; simpl;
      try (by destruct He).
    - case_bool_decide; [done|]. rewrite comet_tick_unfold.
      unfold open_transaction.
      by destruct (ticked_keeps s r) as (-> & _).
    - rewrite listener_idle by done. unfold open_transaction in *. simpl.
      apply andb_true_iff in Ho as [-> _]. done.
    - destruct (Z.ltb_spec n 4); [|done].
      rewrite listener_idle by (simpl; lia).
      unfold open_transaction in *. simpl.
      apply andb_true_iff in Ho as [-> _]. simpl. by apply Z.ltb_lt. }
  destruct (active_step s e Ha) as [Ha'|Hf].
  - split; [done|].
    rewrite (active_timer _ Ha'), (active_timer _ Ha).
    by destruct (step_keeps s e (or_introl Ha)).
  - by rewrite (finished_closed _ Hf) in Ho.
Qed.

(** X8: there is no timeout.  After a call that has sent its request, as
    long as no event ends the transaction the promise stays pending,
    whatever text arrives and however often the interval fires, and an
    interval that was started keeps running. *)
Theorem pending_without_completion d tid h es :
  open_transaction (ajax d tid h) = true ->
  Forall (fun e => ~ is_terminal e) es ->
  promise (run es (ajax d tid h)) = Pending
  /\ settlements (trace (run es (ajax d tid h))) = []
  /\ open_transaction (run es (ajax d tid h)) = true
  /\ interval (run es (ajax d tid h)) = interval (ajax d tid h).
Proof.
  intros Ho Hes.
  assert (active (ajax d tid h)) as Ha.
  { destruct (ajax_reachable d tid h) as [Ha|Hf]; [done|].
    by rewrite (finished_closed _ Hf) in Ho. }
  clear Ho. revert Ha. generalize (ajax d tid h) as s.
  induction Hes as [|e es He Hes IH]; intros s Ha.
  - simpl. split; [apply Ha|]. split; [apply Ha|]. split; [apply Ha|done].
  - rewrite run_cons. destruct (active_step_open s e Ha He) as [Ha' Hi].
    destruct (IH _ Ha') as (? & ? & ? & ?). repeat split; congruence.
Qed.

(** Without an interval nothing of Comet mode happens. *)
Lemma no_timer_step s e :
  active s \/ finished s ->
  cometTimer s = None ->
  interval (step e s) = None
  /\ comet_args (trace (step e s)) = comet_args (trace s)
  /\ (responseComet (req s) = None -> responseComet (req (step e s)) = None).
Proof.
  intros [Ha|Hf] Ht; [|rewrite finished_step by done;
                        by rewrite (finished_interval _ Hf)].
  pose proof (active_open _ Ha) as Ho.
  pose proof (active_timer _ Ha) as Hi. rewrite Ht in Hi.
  destruct e as [r|chunk|n|st txt ct|].
  - simpl. by rewrite Hi.
  - simpl. rewrite Ho. by rewrite listener_idle.
  - simpl. rewrite Ho. simpl. destruct (Z.ltb_spec n 4); [|done].
    by rewrite listener_idle by (simpl; lia).
  - rewrite step_done by done.
    destruct (listener_done s (set_response st txt ct (req s)) Ha)
      as (_ & Htail & Hi' & _).
    destruct (listener_done_last s (set_response st txt ct (req s)) Ha)
      as (f & Htr & Hf & _).
    split; [done|]. split.
    + rewrite Htr, !comet_args_app, Hf. unfold clears. rewrite Ht.
      by rewrite !app_nil_r.
    + rewrite Htail. unfold comet_tail. by rewrite Ht.
  - rewrite step_error by done.
    destruct (listener_done s
      (set_responseText "" (set_response 0 "" None (req s))) Ha)
      as (_ & Htail & Hi' & _).
    destruct (listener_done_last s
      (set_responseText "" (set_response 0 "" None (req s))) Ha)
      as (f & Htr & Hf & _).
    split; [done|]. split.
    + rewrite Htr, !comet_args_app, Hf. unfold clears. rewrite Ht.
      by rewrite !app_nil_r.
    + rewrite Htail. unfold comet_tail. by rewrite Ht.
Qed.

Lemma no_timer_run es : forall s,
  active s \/ finished s ->
  cometTimer s = None -> interval s = None ->
  interval (run es s) = None
  /\ cometTimer (run es s) = None
  /\ comet_args (trace (run es s)) = comet_args (trace s)
  /\ (responseComet (req s) = None -> responseComet (req (run es s)) = None).
Proof.
  induction es as [|e es IH]; intros s Hs Ht Hi; [done|].
  rewrite run_cons.
  destruct (no_timer_step s e Hs Ht) as (Hi' & Hc & Hr).
  destruct (step_keeps s e Hs) as [_ Ht'].
  assert (active (step e s) \/ finished (step e s)) as Hs'.
  { destruct Hs as [Ha|Hf]; [by apply active_step|].
    right. by rewrite finished_step. }
  destruct (IH (step e s) Hs') as (? & ? & ? & ?); [congruence|done|].
  repeat split; try congruence. auto.
Qed.

(** The call without a usable callback starts no interval. *)
Lemma no_callback_no_timer l tid h o m :
  supplied h l o m ->
  is_comet_callback (comet o) = false ->
  cometTimer (ajax (DObject l) tid h) = None
  /\ interval (ajax (DObject l) tid h) = None
  /\ comet_args (trace (ajax (DObject l) tid h)) = []
  /\ responseComet (req (ajax (DObject l) tid h)) = None.
Proof.
  intros Hsup Hc.
  destruct (serialized (data o) (active_headers o m)) as [d|] eqn:Hser.
  - destruct (call_ok l tid h o m d Hsup Hser) as (Htr & _ & _ & Ht & Ha).
    destruct (call_exact l tid h o m d Hsup Hser) as (s3 & hp & E & _ & Q).
    rewrite Hc in Ht. split; [done|].
    split; [by rewrite (active_timer _ Ha)|].
    split; [rewrite Htr; unfold call_trace; by rewrite Hc|].
    rewrite E. unfold sent, started. simpl comet. rewrite Hc. simpl.
    by rewrite (quiet_comet _ _ Q).
  - assert (exists e s3,
      ajax (DObject l) tid h = settle (Rejected e) (log (EReject e) s3)
      /\ trace s3 = trace (opened o (initial h))
      /\ quiet (initial h) s3) as (e & s3 & -> & Htr & Q).
    { rewrite ajax_unfold. simpl target. simpl entry_heap.
      destruct (prepare_ok l o m (initial h) Hsup)
        as (s3 & HK & V & F & Htr & Hrh & Q).
      unfold executor. rewrite HK.
      destruct (serialize_data_throws l _ _ _ s3 V Hser) as (e & E).
      unfold mbind at 1, M_bind at 1. rewrite E. by exists e, s3. }
    unfold settle. simpl.
    destruct (promise s3); simpl;
      rewrite ?comet_args_app, ?Htr, (quiet_timer _ _ Q),
        (quiet_interval _ _ Q), (quiet_comet _ _ Q); done.
Qed.

(** X9: Comet mode is entered exactly for a value of [options.comet] that
    is truthy and whose [constructor] is [Function]: a function that is no
    async function and no generator, the global [Function], and a plain
    object that has such a property of its own.  For every other value, an
    async function, a primitive, a [FormData], an object without that
    property, no interval is ever live, the callback is never called, and
    the request never gets [responseComet], whatever events follow the
    call.  For a value of the first kind, the call that sends the request
    has started the interval. *)
Theorem without_callback_no_polling l tid h o m es :
  supplied h l o m ->
  (is_comet_callback (comet o) = false ->
   interval (run es (ajax (DObject l) tid h)) = None
   /\ comet_args (trace (run es (ajax (DObject l) tid h))) = []
   /\ responseComet (req (run es (ajax (DObject l) tid h))) = None)
  /\ (is_comet_callback (comet o) = true ->
      open_transaction (ajax (DObject l) tid h) = true ->
      interval (ajax (DObject l) tid h) = Some tid)
  /\ ((exists name, comet o = VFun name) \/ comet o = VFunction ->
      is_comet_callback (comet o) = true)
  /\ ((exists name, comet o = VAsync name) \/ (exists p, comet o = VPrim p)
      \/ (exists f, comet o = VFormData f) ->
      is_comet_callback (comet o) = false)
  /\ (forall entries, comet o = VObj entries ->
      (is_comet_callback (comet o) = true
       <-> own_property "constructor" entries = Some VFunction)).
Proof.
  intros Hsup. split; [|split; [|split; [|split]]].
  - intros Hc.
    destruct (no_callback_no_timer l tid h o m Hsup Hc)
      as (Ht & Hi & Ha & Hr).
    destruct (no_timer_run es (ajax (DObject l) tid h)
                (ajax_reachable _ _ _) Ht Hi) as (? & _ & Hargs & Hresp).
    split; [done|]. split; [by rewrite Hargs|]. auto.
  - intros Hc Ho.
    pose proof (comet_mode_timer l tid h o m [] Hsup Hc Ho) as Ht.
    simpl in Ht.
    destruct (ajax_reachable (DObject l) tid h) as [Ha|Hf].
    + by rewrite (active_timer _ Ha).
    + by rewrite (finished_closed _ Hf) in Ho.
  - by intros [[name ->] | ->].
  - intros [[name ->] | [[p ->] | [f ->]]]; [done | | done].
    unfold is_comet_callback. apply andb_false_r.
  - intros entries ->. unfold is_comet_callback. simpl.
    destruct (own_property "constructor" entries)
      as [[| | | | |]|]; split; done.
Qed.

(** X10: [responseComet] is the text that has arrived since the last tick
    of the interval.  When the interval fires, whatever the callback does
    then, and after that text arrives but the interval does not fire again
    before the transaction is done, the response text is the text as it
    was at the tick followed by what has arrived since, and
    [responseComet] is what has arrived since. *)
Theorem comet_tail_since_last_tick d tid h es1 es2 r st txt ct :
  interval (run es1 (ajax d tid h)) <> None ->
  Forall is_no_tick es2 ->
  open_transaction (run es2 (step (EvTick r) (run es1 (ajax d tid h))))
  = true ->
  responseText (req (run es2 (step (EvTick r) (run es1 (ajax d tid h)))))
  = responseText (req (run es1 (ajax d tid h))) +:+ arrived es2
  /\ responseComet
       (req (step (EvDone st txt ct)
               (run es2 (step (EvTick r) (run es1 (ajax d tid h))))))
     = Some (arrived es2).
Proof.
  intros Hi Hes Ho. set (s1 := run es1 (ajax d tid h)) in *.
  assert (active s1) as Ha.
  { destruct (reachable d tid h es1) as [Ha|Hf]; [done|].
    by destruct Hi; apply finished_interval. }
  assert (active (step (EvTick r) s1)
          /\ responseText (req (step (EvTick r) s1)) = responseText (req s1)
          /\ cometLength (step (EvTick r) s1)
             = String.length (responseText (req s1))
          /\ cometTimer (step (EvTick r) s1) = cometTimer s1)
    as (Ha1 & Htxt1 & Hlen1 & Htim1).
  { rewrite step_tick by done. split; [by apply active_tick|].
    by destruct (ticked_keeps s1 r) as (-> & _ & _ & _ & _ & -> & -> & _). }
  destruct (between_ticks es2 _ Ha1 Hes Ho) as (Ha2 & Htxt2 & Hlen2 & Htim2).
  set (s2 := run es2 (step (EvTick r) s1)) in *.
  rewrite Htxt1 in Htxt2. split; [done|].
  rewrite step_done by done.
  destruct (listener_done s2 (set_response st txt ct (req s2)) Ha2)
    as (_ & -> & _).
  unfold comet_tail. rewrite Htim2, Htim1, <- (active_timer _ Ha).
  destruct (interval s1); [|done]. simpl.
  by rewrite Hlen2, Hlen1, Htxt2, substr_length_app.
Qed.

(** The call leaves an empty response text and the offset 0. *)
Lemma call_cursor d tid h :
  responseText (req (ajax d tid h)) = ""
  /\ cometLength (ajax d tid h) = 0%nat
  /\ faults (trace (ajax d tid h)) = [].
Proof.
  rewrite ajax_unfold.
  destruct (executor_quiet (target d h) tid (initial (entry_heap d h)))
    as (s' & Q & [[e ->] | ->]).
  - destruct (quiet_opens _ _ Q) as (_ & _ & _ & Hf & _).
    unfold settle. simpl.
    destruct (promise s'); simpl;
      by rewrite ?faults_app, Hf, (quiet_text _ _ Q), (quiet_length _ _ Q).
  - rewrite launch. destruct (quiet_opens _ _ Q) as (_ & _ & _ & Hf & _).
    destruct (heap s' !! target d h) as [[o|m]|].
    + unfold sent, started.
      destruct (is_comet_callback (comet o)); simpl;
        by rewrite ?faults_app, Hf, (quiet_text _ _ Q), (quiet_length _ _ Q).
    + unfold settle. simpl.
      destruct (promise s'); simpl;
        by rewrite ?faults_app, Hf, (quiet_text _ _ Q), (quiet_length _ _ Q).
    + unfold settle. simpl.
      destruct (promise s'); simpl;
        by rewrite ?faults_app, Hf, (quiet_text _ _ Q), (quiet_length _ _ Q).
Qed.

(** X11: in Comet mode, when the transaction is done before the interval
    has fired once, [responseComet] is the whole response text. *)
Theorem comet_tail_without_tick d tid h es st txt ct :
  interval (ajax d tid h) <> None ->
  Forall is_no_tick es ->
  open_transaction (run es (ajax d tid h)) = true ->
  responseText (req (run es (ajax d tid h))) = arrived es
  /\ responseComet (req (step (EvDone st txt ct) (run es (ajax d tid h))))
     = Some (arrived es).
Proof.
  intros Hi Hes Ho.
  assert (active (ajax d tid h)) as Ha.
  { destruct (ajax_reachable d tid h) as [Ha|Hf]; [done|].
    by destruct Hi; apply finished_interval. }
  destruct (call_cursor d tid h) as (Htxt0 & Hlen0 & _).
  destruct (between_ticks es _ Ha Hes Ho) as (Ha2 & Htxt2 & Hlen2 & Htim2).
  rewrite Htxt0 in Htxt2.
  change ("" +:+ arrived es) with (arrived es) in Htxt2. split; [done|].
  rewrite step_done by done.
  destruct (listener_done _ (set_response st txt ct
              (req (run es (ajax d tid h)))) Ha2) as (_ & -> & _).
  unfold comet_tail. rewrite Htim2, <- (active_timer _ Ha).
  destruct (interval (ajax d tid h)); [|done]. simpl.
  by rewrite Hlen2, Hlen0, Htxt2.
Qed.

(** The exceptions one event leaves with the host: at the end of the
    transaction the parser's, at a tick the one of the call. *)
Lemma faults_step s ev :
  active s ->
  faults (trace (step ev s)) = faults (trace s)
  \/ exists e,
       faults (trace (step ev s)) = faults (trace s) ++ [e]
       /\ ((e = SyntaxError "JSON.parse" /\ finished (step ev s)
            /\ readyState (req (step ev s)) = 4
            /\ json_fault (req (step ev s))
            /\ promise (step ev s) = Pending)
           \/ (interval s <> None
               /\ exists v, comet_of s = Some v
                   /\ ((callable v = true /\ ev = EvTick (Some e))
                       \/ (callable v = false /\ e = not_a_function)))).
Proof.
  intros Ha. pose proof (active_open _ Ha) as Ho.
  assert (forall x0,
    let s' := fire on_readystatechange (with_req (set_readyState 4 x0) s) in
    faults (trace s') = faults (trace s)
    \/ exists e,
         faults (trace s') = faults (trace s) ++ [e]
         /\ ((e = SyntaxError "JSON.parse" /\ finished s'
              /\ readyState (req s') = 4 /\ json_fault (req s')
              /\ promise s' = Pending)
             \/ (interval s <> None
                 /\ exists v, comet_of s = Some v
                     /\ ((callable v = true /\ ev = EvTick (Some e))
                         \/ (callable v = false /\ e = not_a_function)))))
    as Hdone.
  { intros x0 s'. pose proof (active_done s x0 Ha) as Hfin. fold s' in Hfin.
    destruct (listener_done s x0 Ha)
      as ((Hr & Hst & _ & Htxt & Hct) & _ & _ & _ & _
          & Hrej & Hplain & Hjson & Hfault).
    fold s' in Hr, Hst, Htxt, Hct, Hrej, Hplain, Hjson, Hfault.
    destruct (clears_quiet s) as (_ & _ & Hcf).
    destruct (is_success (status x0)) eqn:Hsucc.
    - destruct (decide (responseContentType x0 = Some "application/json"))
        as [Hjs|Hjs].
      + destruct (JSON_parse (responseText x0)) as [v|] eqn:Hv.
        * destruct (Hjson eq_refl (bool_decide_eq_true_2 _ Hjs) v eq_refl)
            as (-> & _). left. by rewrite !faults_app, Hcf, !app_nil_r.
        * destruct (Hfault eq_refl (bool_decide_eq_true_2 _ Hjs) eq_refl)
            as (-> & Hp & _). right. eexists.
          split; [by rewrite !faults_app, Hcf|]. left.
          split; [done|]. split; [done|]. split; [done|].
          split; [|done]. unfold json_fault. by rewrite Hst, Hct, Htxt.
      + destruct (Hplain eq_refl (bool_decide_eq_false_2 _ Hjs))
          as (-> & _). left. by rewrite !faults_app, Hcf, !app_nil_r.
    - destruct (Hrej eq_refl) as (-> & _). left.
      by rewrite !faults_app, Hcf, !app_nil_r. }
  destruct ev as [r|chunk|n|st txt ct|].
  - simpl step. case_bool_decide as Hi; [by left|].
    rewrite comet_tick_unfold.
    destruct (active_comet _ Ha Hi) as (v & Hv & _).
    assert (faults (trace (ticked r s)) = faults (trace s)
            \/ (callable v = true
                /\ exists e, r = Some e
                     /\ faults (trace (ticked r s)) = faults (trace s) ++ [e])
            \/ (callable v = false
                /\ faults (trace (ticked r s))
                   = faults (trace s) ++ [not_a_function])) as Hcase.
    { unfold ticked. rewrite Hv. destruct (_ && _); [|by left].
      destruct (callable v); [destruct r as [e|]|]; simpl;
        rewrite ?faults_app; simpl; rewrite ?app_nil_r.
      - right. left. split; [done|]. by exists e.
      - by left.
      - right. by right. }
    destruct Hcase as [Heq|[(Hcall & e & -> & Heq)|[Hcall Heq]]].
    + by left.
    + right. exists e. split; [done|]. right. split; [done|]. exists v.
      split; [done|]. by left.
    + right. exists not_a_function. split; [done|]. right.
      split; [done|]. exists v. split; [done|]. by right.
  - left. simpl. rewrite Ho. by rewrite listener_idle.
  - left. simpl. rewrite Ho. simpl.
    destruct (Z.ltb_spec n 4); [|done].
    by rewrite listener_idle by (simpl; lia).
  - rewrite step_done by done. apply Hdone.
  - rewrite step_error by done. apply Hdone.
Qed.

(** The exceptions a run leaves with the host. *)
Lemma faults_run es : forall s e,
  active s \/ finished s ->
  e ∈ faults (trace (run es s)) ->
  e ∈ faults (trace s)
  \/ (e = SyntaxError "JSON.parse" /\ readyState (req (run es s)) = 4
      /\ json_fault (req (run es s)) /\ promise (run es s) = Pending)
  \/ (active s /\ interval s <> None
      /\ exists v, comet_of s = Some v
          /\ ((callable v = true /\ EvTick (Some e) ∈ es)
              \/ (callable v = false /\ e = not_a_function))).
Proof.
  induction es as [|ev es IH]; intros s e Hs Hin; [by left|].
  rewrite run_cons in *.
  destruct Hs as [Ha|Hf]; [|rewrite finished_step in * by done;
                             rewrite finished_run in * by done; by left].
  destruct (IH (step ev s) e (active_step s ev Ha) Hin)
    as [Hin'|[Hp|(Ha' & Hi' & v & Hv & Hcase)]].
  - destruct (faults_step s ev Ha) as [Heq|(e0 & Heq & Hcase)];
      rewrite Heq in Hin'; [by left|].
    apply elem_of_app in Hin' as [Hin'|Hin']; [by left|].
    apply list_elem_of_singleton in Hin'. subst e0.
    destruct Hcase as [(-> & Hfin & Hr & Hj & Hp)|(Hi & v & Hv & Hcase)].
    + right. left. by rewrite finished_run.
    + right. right. split; [done|]. split; [done|]. exists v.
      split; [done|].
      destruct Hcase as [[Hc ->]|[Hc ->]]; [left | by right].
      split; [done|]. by apply elem_of_cons; left.
  - right. by left.
  - right. right. split; [done|].
    destruct (step_keeps s ev (or_introl Ha)) as [Hh Ht].
    split.
    { by rewrite (active_timer _ Ha), <- Ht, <- (active_timer _ Ha'). }
    exists v. split.
    { rewrite <- Hv. unfold comet_of. by rewrite Hh, step_callback. }
    destruct Hcase as [[Hc Hin']|[Hc ->]]; [left | by right].
    split; [done|]. by apply elem_of_cons; right.
Qed.

(** Without Comet mode, or while the callback returns, at most the
    parser's. *)
Lemma faults_calm es : forall s,
  active s \/ finished s ->
  cometTimer s = None
  \/ (Forall tick_returns es
      /\ exists v, comet_of s = Some v /\ callable v = true) ->
  faults (trace (run es s)) = faults (trace s)
  \/ (faults (trace (run es s))
      = faults (trace s) ++ [SyntaxError "JSON.parse"]
      /\ readyState (req (run es s)) = 4
      /\ json_fault (req (run es s)) /\ promise (run es s) = Pending).
Proof.
  induction es as [|ev es IH]; intros s Hs Hcalm; [by left|].
  rewrite run_cons.
  destruct Hs as [Ha|Hf]; [|rewrite finished_step by done;
                             rewrite finished_run by done; by left].
  destruct (step_keeps s ev (or_introl Ha)) as [Hh Ht].
  assert (comet_of (step ev s) = comet_of s) as Hc
    by (unfold comet_of; by rewrite Hh, step_callback).
  assert (cometTimer (step ev s) = None
          \/ (Forall tick_returns es
              /\ exists v, comet_of (step ev s) = Some v
                           /\ callable v = true)) as Hcalm'.
  { destruct Hcalm as [Hnone|[Hes Hv]]; [left; congruence|].
    right. apply Forall_cons in Hes as [_ Hes]. by rewrite Hc. }
  destruct (faults_step s ev Ha) as [Heq|(e0 & Heq & Hcase)].
  - rewrite <- Heq. by apply IH; [apply active_step|].
  - destruct Hcase as [(-> & Hfin & Hr & Hj & Hp)|(Hi & v & Hv & Hcase)].
    + right. by rewrite finished_run.
    + exfalso. destruct Hcalm as [Hnone|[Hes (v' & Hv' & Hcall)]].
      * by rewrite (active_timer _ Ha) in Hi.
      * apply Forall_cons in Hes as [Hev _].
        rewrite Hv in Hv'. injection Hv' as <-.
        destruct Hcase as [[_ ->]|[Hcall' _]]; [done | congruence].
Qed.

(** X12: the exceptions the function leaves with the host.  They are the
    parser's, on a successful response that declares JSON and whose text
    is none, after which the promise is pending; the ones the caller's
    Comet callback throws, which leave the callback of the interval; and,
    when [options.comet] has passed the test and is no function, the
    [TypeError] of its call.  Without Comet mode, and with a callback that
    is a function and never throws, the parser's is the only one, and it
    comes once. *)
Theorem uncaught_exceptions l tid h o m es :
  supplied h l o m ->
  let parser_fault := fun s : state =>
    readyState (req s) = 4 /\ json_fault (req s) /\ promise s = Pending in
  let s := run es (ajax (DObject l) tid h) in
  (forall e, e ∈ faults (trace s) ->
     (e = SyntaxError "JSON.parse" /\ parser_fault s)
     \/ (is_comet_callback (comet o) = true /\ callable (comet o) = true
         /\ EvTick (Some e) ∈ es)
     \/ (is_comet_callback (comet o) = true /\ callable (comet o) = false
         /\ e = not_a_function))
  /\ (is_comet_callback (comet o) = false
      \/ (callable (comet o) = true /\ Forall tick_returns es) ->
      faults (trace s) = []
      \/ (faults (trace s) = [SyntaxError "JSON.parse"] /\ parser_fault s))
  /\ (forall u,
        let su := run es (ajax (DString u) tid h) in
        faults (trace su) = []
        \/ (faults (trace su) = [SyntaxError "JSON.parse"]
            /\ parser_fault su)).
Proof.
  intros Hsup parser_fault s. split; [|split].
  - intros e Hin.
    destruct (call_cursor (DObject l) tid h) as (_ & _ & Hf0).
    destruct (faults_run es (ajax (DObject l) tid h) e
                (ajax_reachable _ _ _) Hin)
      as [Hin0|[Hp|(Ha & Hi & v & Hv & Hcase)]].
    + rewrite Hf0 in Hin0. by apply elem_of_nil in Hin0.
    + by left.
    + right.
      destruct (comet_mode l tid h o m [] Hsup Hi)
        as (_ & Hcomet & Hc & _).
      simpl in Hc. rewrite Hc in Hv. injection Hv as <-.
      destruct Hcase as [[Hcall Hin']|[Hcall ->]]; [by left | by right].
  - intros Hcalm.
    destruct (call_cursor (DObject l) tid h) as (_ & _ & Hf0).
    assert (cometTimer (ajax (DObject l) tid h) = None
            \/ (Forall tick_returns es
                /\ exists v, comet_of (ajax (DObject l) tid h) = Some v
                             /\ callable v = true)
            \/ finished (ajax (DObject l) tid h)) as Hcase.
    { destruct Hcalm as [Hc|[Hcall Hes]].
      - left. by destruct (no_callback_no_timer l tid h o m Hsup Hc).
      - destruct (is_comet_callback (comet o)) eqn:Hc;
          [|left; by destruct (no_callback_no_timer l tid h o m Hsup Hc)].
        destruct (serialized (data o) (active_headers o m)) as [d|] eqn:Hser.
        + right. left. split; [done|]. exists (comet o). split; [|done].
          by destruct (call_callback l tid h o m d Hsup Hser) as (-> & _).
        + right. right.
          destruct (call_throws l tid h o m Hsup Hser) as (e & _ & Hp & _).
          destruct (ajax_reachable (DObject l) tid h) as [Ha|Hf]; [|done].
          by rewrite (active_pending _ Ha) in Hp. }
    assert (faults (trace s) = faults (trace (ajax (DObject l) tid h))
            \/ (faults (trace s)
                = faults (trace (ajax (DObject l) tid h))
                  ++ [SyntaxError "JSON.parse"]
                /\ parser_fault s)) as Hres.
    { destruct Hcase as [Hnone|[Hret|Hf]].
      - apply faults_calm; [apply ajax_reachable | by left].
      - apply faults_calm; [apply ajax_reachable | by right].
      - left. unfold s. by rewrite finished_run. }
    rewrite Hf0 in Hres. exact Hres.
  - intros u su. unfold su. rewrite call_string.
    destruct (call_cursor (DObject (fresh (dom h))) tid
                (<[fresh (dom h) := OOptions (url_only u)]> h))
      as (_ & _ & Hf0).
    destruct (no_callback_no_timer _ tid _ _ _ (supplied_string u h) eq_refl)
      as (Hnone & _).
    destruct (faults_calm es _ (ajax_reachable _ tid _) (or_introl Hnone))
      as [Heq|Heq]; rewrite Hf0 in Heq; [by left | by right].
Qed.

(** The listener of version 1.0 is the listener without an interval. *)
Lemma listener_v1 s :
  cometTimer s = None -> on_readystatechange s = on_readystatechange_v1 s.
Proof.
  intros Ht.
  unfold on_readystatechange, on_readystatechange_v1, mbind, M_bind, get,
    mret, M_ret.
  destruct (readyState (req s) =? 4); [|done]. by rewrite Ht.
Qed.

Lemma step_v1_agrees s e :
  cometTimer s = None -> interval s = None -> step e s = step_v1 e s.
Proof.
  intros Ht Hi. destruct e as [|chunk|n|st txt ct|].
  - simpl. by rewrite Hi.
  - unfold step, step_v1. destruct (open_transaction s); [|done].
    unfold fire. by rewrite listener_v1.
  - unfold step, step_v1. destruct (open_transaction s && (n <? 4)); [|done].
    unfold fire. by rewrite listener_v1.
  - unfold step, step_v1. destruct (open_transaction s); [|done].
    unfold fire. by rewrite listener_v1.
  - unfold step, step_v1. destruct (open_transaction s); [|done].
    unfold fire. by rewrite listener_v1.
Qed.

Lemma run_v1_agrees es : forall s,
  active s \/ finished s ->
  cometTimer s = None -> run es s = run_v1 es s.
Proof.
  induction es as [|e es IH]; intros s Hs Ht; [done|].
  assert (interval s = None) as Hi.
  { destruct Hs as [Ha|Hf]; [by rewrite (active_timer _ Ha)|].
    apply (finished_interval _ Hf). }
  rewrite run_cons. change (run_v1 (e :: es) s) with (run_v1 es (step_v1 e s)).
  rewrite <- step_v1_agrees by done. apply IH.
  - destruct Hs as [Ha|Hf]; [by apply active_step|].
    right. by rewrite finished_step.
  - by destruct (step_keeps s e Hs) as [_ ->].
Qed.

Lemma bind_ret_eq {A B} (m : M A) (f : A -> M B) s a s' :
  m s = (Ret a, s') -> (m ≫= f) s = f a s'.
Proof. intros E. unfold mbind, M_bind. by rewrite E. Qed.

Lemma bind_throw_eq {A B} (m : M A) (f : A -> M B) s e s' :
  m s = (Throw e, s') -> (m ≫= f) s = (Throw e, s').
Proof. intros E. unfold mbind, M_bind. by rewrite E. Qed.

Lemma ajax_v1_unfold d h :
  ajax_v1 d h =
  match executor_v1 (target d h) (initial (entry_heap d h)) with
  | (Ret _, s) => s
  | (Throw e, s) => settle (Rejected e) (log (EReject e) s)
  end.
Proof. by destruct d. Qed.

Lemma ajax_v1_agrees l tid h o m :
  supplied h l o m ->
  is_comet_callback (comet o) = false ->
  ajax (DObject l) tid h = ajax_v1 (DObject l) h.
Proof.
  intros Hsup Hc. rewrite ajax_unfold, ajax_v1_unfold.
  simpl target. simpl entry_heap.
  destruct (prepare_ok l o m (initial h) Hsup)
    as (s3 & HK & V & F & Htr & Hrh & Q).
  unfold executor, executor_v1. rewrite !HK.
  destruct (serialized (data (set_headers (Some (headers_loc h o)) o))
              (active_headers o m)) as [d|] eqn:Hser.
  - destruct (serialize_data_ok l _ _ _ s3 d V Hser) as (hp & E & V' & _).
    rewrite !(bind_ret_eq _ _ _ _ _ E).
    rewrite launch. simpl heap. rewrite (view_options _ _ _ _ _ V').
    rewrite (send_request_ok l _ (with_heap hp s3)
               (view_options _ _ _ _ _ V')).
    unfold started. simpl comet. by rewrite Hc.
  - destruct (serialize_data_throws l _ _ _ s3 V Hser) as (e & E).
    by rewrite !(bind_throw_eq _ _ _ _ _ E).
Qed.

(** X13: version 1.1 is version 1.0 for a caller whose [options.comet]
    does not start Comet mode.  A call of [ajax] on an options object
    whose [comet] is falsy or has a [constructor] other than [Function],
    and a call on a URL, go through the same states as the same call of
    the function of [ajax.js], under the same events: the same effects,
    the same promise, the same heap. *)
Theorem version_1_0_agrees l tid h o m es :
  supplied h l o m ->
  is_comet_callback (comet o) = false ->
  run es (ajax (DObject l) tid h) = run_v1 es (ajax_v1 (DObject l) h)
  /\ forall u,
       run es (ajax (DString u) tid h) = run_v1 es (ajax_v1 (DString u) h).
Proof.
  intros Hsup Hc. split.
  - rewrite <- (ajax_v1_agrees l tid h o m Hsup Hc).
    apply run_v1_agrees; [apply ajax_reachable|].
    by destruct (no_callback_no_timer l tid h o m Hsup Hc).
  - intros u.
    assert (ajax_v1 (DString u) h
            = ajax_v1 (DObject (fresh (dom h)))
                (<[fresh (dom h) := OOptions (url_only u)]> h)) as ->
      by done.
    rewrite call_string.
    rewrite <- (ajax_v1_agrees _ tid _ _ _ (supplied_string u h) eq_refl).
    apply run_v1_agrees; [apply ajax_reachable|].
    by destruct (no_callback_no_timer _ tid _ _ _
                   (supplied_string u h) eq_refl).
Qed.

End Events.

(** ** The line the callback gets *)

Section Lines.
Context `{Host}.

#[local] Arguments second_to_last : simpl never.

(** A split into one piece: the text is that piece, after newline
    characters if it started in a separator. *)
Lemma split_single r : forall b z,
  split_go b r = [z] ->
  exists nls,
    r = nls +:+ z /\ all_newlines nls = true /\ newline_free z = true
    /\ (b = false -> nls = "").
Proof.
  induction r as [|c r IH]; intros b z Hs; simpl in Hs.
  - inversion Hs. by exists "".
  - destruct (is_newline c) eqn:Hc.
    + destruct b.
      * destruct (IH true z Hs) as (nls & -> & Hn & Hz & _).
        exists (String c nls). split; [done|]. simpl. by rewrite Hc.
      * inversion Hs as [[Hz Hr]]. by destruct (split_go_nonempty true r).
    + destruct (split_go false r) as [|p ps] eqn:E;
        [by destruct (split_go_nonempty false r)|].
      inversion Hs; subst.
      destruct (IH false p E) as (nls & Hr & _ & Hp & Hnls).
      rewrite (Hnls eq_refl) in Hr. exists "". split; [by rewrite Hr|].
      split; [done|]. split; [|done]. simpl. by rewrite Hc.
Qed.

(** The first piece, and what comes after it. *)
Lemma split_first r : forall p ps,
  split_go false r = p :: ps ->
  newline_free p = true
  /\ ((ps = [] /\ r = p)
      \/ exists c rest,
           r = p +:+ String c rest /\ is_newline c = true
           /\ split_go true rest = ps).
Proof.
  induction r as [|c r IH]; intros p ps Hs; simpl in Hs.
  - inversion Hs. split; [done|]. by left.
  - destruct (is_newline c) eqn:Hc.
    + inversion Hs; subst. split; [done|]. right. by exists c, r.
    + destruct (split_go false r) as [|p0 ps0] eqn:E;
        [by destruct (split_go_nonempty false r)|].
      inversion Hs; subst.
      destruct (IH p0 ps eq_refl) as (Hp & [[-> ->]|(c' & rest & -> & Hc' & <-)]).
      * split; [simpl; by rewrite Hc|]. by left.
      * split; [simpl; by rewrite Hc|]. right. by exists c', rest.
Qed.

Lemma line_start_cons c pre :
  line_start pre = true -> (pre = "" -> is_newline c = true) ->
  line_start (String c pre) = true.
Proof. intros Hp Hc. destruct pre; [by apply Hc | done]. Qed.

(** The last two pieces of a split, in the text: what is before them ends
    where a line starts, a run of newline characters is between them, and
    nothing is after the last. *)
Lemma split_last_two s : forall b init y z,
  split_go b s = init ++ [y; z] ->
  exists pre nls,
    s = pre +:+ y +:+ nls +:+ z
    /\ nls <> "" /\ all_newlines nls = true
    /\ newline_free y = true /\ newline_free z = true
    /\ line_start pre = true /\ (pre = "" -> init = []).
Proof.
  induction s as [|c r IH]; intros b init y z Hs; simpl in Hs.
  - apply (f_equal length) in Hs. rewrite length_app in Hs.
    simpl in Hs. lia.
  - destruct (is_newline c) eqn:Hc.
    + destruct b.
      * destruct (IH true init y z Hs)
          as (pre & nls & -> & Hn & Ha & Hy & Hz & Hp & _).
        exists (String c pre), nls. repeat split; try done.
        by apply line_start_cons.
      * destruct init as [|i0 init']; simpl in Hs; inversion Hs; subst.
        -- destruct (split_single r true z) as (nls & -> & Hn & Hz & _);
             [done|].
           exists "", (String c nls). repeat split; try done.
           simpl. by rewrite Hc.
        -- destruct (IH true init' y z)
             as (pre & nls & -> & Hn & Ha & Hy & Hz & Hp & _); [done|].
           exists (String c pre), nls. repeat split; try done.
           by apply line_start_cons.
    + destruct (split_go false r) as [|p ps] eqn:E;
        [by destruct (split_go_nonempty false r)|].
      destruct init as [|i0 init']; simpl in Hs; inversion Hs; subst.
      * destruct (split_first r p [z] E)
          as (Hp & [[? _]|(c' & rest & -> & Hc' & Hrest)]); [done|].
        destruct (split_single rest true z Hrest)
          as (nls & -> & Hn & Hz & _).
        exists "", (String c' nls). split; [|repeat split; try done].
        { change ("" +:+ String c p +:+ String c' nls +:+ z)
            with (String c (p +:+ String c' (nls +:+ z))). done. }
        -- simpl. by rewrite Hc'.
        -- simpl. by rewrite Hc.
      * destruct (IH false (p :: init') y z)
          as (pre & nls & -> & Hn & Ha & Hy & Hz & Hp & Hpre); [done|].
        exists (String c pre), nls. repeat split; try done.
        apply line_start_cons; [done|]. intros ->. by specialize (Hpre eq_refl).
Qed.

Lemma last_two_of (a : list string) n x :
  length a = S (S n) -> a !! n = Some x ->
  exists init z, a = init ++ [x; z].
Proof.
  intros Hlen Hn.
  assert (is_Some (a !! S n)) as [z Hz] by (apply lookup_lt_is_Some; lia).
  exists (take n a), z.
  rewrite <- (take_drop n a) at 1. f_equal.
  rewrite (drop_S _ _ _ Hn), (drop_S _ _ _ Hz).
  by rewrite drop_ge by lia.
Qed.

(** The calls a tick makes: none, or one, with the element it looks at. *)
Lemma tick_call s r a after :
  trace (step (EvTick r) s) = trace s ++ EComet a :: after ->
  a = second_to_last (responseText (req s))
  /\ truthy_prim (second_to_last (responseText (req s))) = true.
Proof.
  intros Htr.
  assert (forall (t : list effect) e u, t <> t ++ e :: u) as Hneq.
  { intros t e u Heq. apply (f_equal length) in Heq.
    rewrite length_app in Heq. simpl in Heq. lia. }
  simpl in Htr. case_bool_decide; [by apply Hneq in Htr|].
  rewrite comet_tick_unfold in Htr. unfold ticked in Htr.
  destruct (truthy_prim (second_to_last (responseText (req s)))
            && negb (strict_eq (second_to_last (responseText (req s)))
                       (lastLine s))) eqn:Hc;
    [|by apply Hneq in Htr].
  apply andb_true_iff in Hc as [Htruthy _]. split; [|done].
  destruct (comet_of s) as [v|]; [destruct (callable v); [destruct r|]|];
    simpl in Htr; rewrite <- ?app_assoc in Htr;
    apply app_inv_head in Htr; by inversion Htr.
Qed.

(** X14: whenever a tick of the interval calls the Comet callback, its
    argument is the last line of the response text that a newline ends:
    a string that is not empty and holds no newline character, that
    starts at the start of the text or after a newline character, and
    that is followed by a run of newline characters and then by a rest
    without newline characters, the line still being written, which is
    not delivered. *)
Theorem delivered_line_is_last_complete s r a after :
  trace (step (EvTick r) s) = trace s ++ EComet a :: after ->
  exists x pre nls rest,
    a = PStr x /\ x <> "" /\ newline_free x = true
    /\ responseText (req s) = pre +:+ x +:+ nls +:+ rest
    /\ line_start pre = true
    /\ nls <> "" /\ all_newlines nls = true
    /\ newline_free rest = true.
Proof.
  intros Htr. destruct (tick_call s r a after Htr) as [-> Htruthy].
  apply second_to_last_truthy in Htruthy as (x & Hx & Hne).
  pose proof Hx as Hx'. unfold second_to_last in Hx'.
  apply index_at_second_to_last in Hx' as (n & Hlen & Hn).
  destruct (last_two_of _ n x Hlen Hn) as (init & z & Hsplit).
  destruct (split_last_two _ false init x z Hsplit)
    as (pre & nls & Htext & Hnls & Hall & Hfx & Hfz & Hpre & _).
  exists x, pre, nls, z. by rewrite Hx.
Qed.

End Lines.

(** ** The outcome *)

Section Outcome.
Context `{Host}.

#[local] Arguments second_to_last : simpl never.




(** After the call the invocation is under way, or the executor has thrown
    before sending. *)
Lemma call_outcome d tid h :
  active (ajax d tid h)
  \/ (finished (ajax d tid h)
      /\ sendFlag (req (ajax d tid h)) = false
      /\ exists e, promise (ajax d tid h) = Rejected e).
Proof.
  destruct (ajax_reachable d tid h) as [Ha|Hf]; [by left|].
  right. split; [done|]. revert Hf. rewrite ajax_unfold.
  destruct (executor_quiet (target d h) tid (initial (entry_heap d h)))
    as (s' & Q & [[e ->] | ->]).
  - intros _. unfold settle. simpl. rewrite (quiet_promise _ _ Q). simpl.
    split; [apply (quiet_send _ _ Q) | by exists e].
  - rewrite launch. destruct (heap s' !! target d h) as [[o|m]|] eqn:E.
    + intros Hf. exfalso.
      pose proof (active_open _ (sent_active _ _ tid o _ Q E)) as Ho.
      by rewrite (finished_closed _ Hf) in Ho.
    + intros _. unfold settle. simpl. rewrite (quiet_promise _ _ Q). simpl.
      split; [apply (quiet_send _ _ Q) | by eexists].
    + intros _. unfold settle. simpl. rewrite (quiet_promise _ _ Q). simpl.
      split; [apply (quiet_send _ _ Q) | by eexists].
Qed.

Lemma sound_outcome_done s x0 :
  active s -> responseJSON x0 = None ->
  sound_outcome (fire on_readystatechange (with_req (set_readyState 4 x0) s)).
Proof.
  intros Ha Hj0.
  destruct (listener_done s x0 Ha)
    as ((Hr & Hst & Htx & Htxt & Hct) & _ & _ & _ & _
        & Hrej & Hplain & Hjson & Hfault).
  unfold sound_outcome.
  destruct (is_success (status x0)) eqn:Hsucc.
  - destruct (decide (responseContentType x0 = Some "application/json"))
      as [Hjs|Hjs].
    + destruct (JSON_parse (responseText x0)) as [v|] eqn:Hv.
      * destruct (Hjson eq_refl (bool_decide_eq_true_2 _ Hjs) v eq_refl)
          as (_ & -> & Hj).
        rewrite Hr, Hst, Hct, Htxt, Hj, Hv. repeat split; done.
      * by destruct (Hfault eq_refl (bool_decide_eq_true_2 _ Hjs) eq_refl)
          as (_ & -> & _).
    + destruct (Hplain eq_refl (bool_decide_eq_false_2 _ Hjs))
        as (_ & -> & Hj).
      rewrite Hr, Hst, Hct, Hj, Hj0. repeat split; done.
  - destruct (Hrej eq_refl) as (_ & -> & _). right.
    by rewrite Hr, Hst, Htx, Hsucc.
Qed.

(** X16: a settled promise is a sound report.  In every run, a fulfilled
    promise carries the request itself, at the ready state 4, with a status
    in 200-299, and with [responseJSON] the parse of its text if its
    [Content-Type] is [application/json] and no [responseJSON] otherwise; a
    rejected promise means that the request was never sent, or that it is
    at the ready state 4 with a status outside 200-299, the error being the
    status text. *)
Theorem settled_promise_is_sound d tid h es :
  sound_outcome (run es (ajax d tid h)).
Proof.
  assert (forall s, active s -> sound_outcome s) as Hact.
  { intros s Ha. unfold sound_outcome. by rewrite (active_pending _ Ha). }
  assert (sound_outcome (ajax d tid h)
          /\ (active (ajax d tid h) \/ finished (ajax d tid h)))
    as [H0 Hreach].
  { split; [|apply ajax_reachable].
    destruct (call_outcome d tid h) as [Ha|(_ & Hs & e & He)]; [auto|].
    unfold sound_outcome. rewrite He. by left. }
  revert H0 Hreach. generalize (ajax d tid h) as s.
  induction es as [|e es IH]; intros s H0 Hreach; [done|].
  rewrite run_cons. destruct Hreach as [Ha|Hf].
  - apply IH; [|by apply active_step].
    pose proof (active_open _ Ha) as Ho.
    destruct (active_step s e Ha) as [Ha'|Hf']; [auto|].
    destruct e as [r|chunk|n|st txt ct|].
    + apply Hact. simpl. case_bool_decide; [done|].
      rewrite comet_tick_unfold. by apply active_tick.
    + destruct (active_step_open s (EvData chunk) Ha) as [? _];
        [by intros []|auto].
    + destruct (active_step_open s (EvReadyState n) Ha) as [? _];
        [by intros []|auto].
    + rewrite step_done by done. apply sound_outcome_done; [done|].
      apply (active_json _ Ha).
    + rewrite step_error by done. apply sound_outcome_done; [done|].
      apply (active_json _ Ha).
  - rewrite finished_step by done. apply IH; [done | by right].
Qed.

End Outcome.

(** ** Which line a tick delivers *)

Section Delivery.
Context `{Host}.

Lemma append_cons c a b : String c a +:+ b = String c (a +:+ b).
Proof. reflexivity. Qed.

Lemma split_free r : forall b,
  newline_free r = true -> split_go b r = [r].
Proof.
  induction r as [|c r IH]; intros b Hr; [done|].
  simpl in Hr. apply andb_true_iff in Hr as [Hc Hr].
  apply negb_true_iff in Hc.
  simpl. by rewrite Hc, (IH false Hr).
Qed.

Lemma split_run nls rest :
  all_newlines nls = true -> newline_free rest = true ->
  split_go true (nls +:+ rest) = [rest].
Proof.
  induction nls as [|c n IH]; intros Hn Hr.
  - by apply split_free.
  - simpl in Hn. apply andb_true_iff in Hn as [Hc Hn].
    rewrite append_cons. simpl. rewrite Hc. by apply IH.
Qed.

(** A line, the newline characters that end it, and the start of the
    next. *)
Lemma split_line x nls rest :
  newline_free x = true -> nls <> "" -> all_newlines nls = true ->
  newline_free rest = true ->
  split_go false (x +:+ nls +:+ rest) = [x; rest].
Proof.
  intros Hx Hne Hn Hr. induction x as [|a x IH].
  - destruct nls as [|c n]; [done|].
    simpl in Hn. apply andb_true_iff in Hn as [Hc Hn].
    change ("" +:+ String c n +:+ rest) with (String c (n +:+ rest)).
    simpl. rewrite Hc. by rewrite split_run.
  - simpl in Hx. apply andb_true_iff in Hx as [Ha Hx].
    apply negb_true_iff in Ha.
    rewrite append_cons. simpl. by rewrite Ha, IH.
Qed.

(** The pieces of the text before the start of a line are the same
    whatever the line is. *)
Lemma split_prefix pre a t : forall b,
  line_start pre = true -> is_newline a = false ->
  exists init,
    split_go b (pre +:+ String a t) = init ++ split_go false (String a t)
    /\ (pre <> "" -> b = false -> init <> []).
Proof.
  intros b Hp Ha. revert b Hp.
  induction pre as [|c pre IH]; intros b Hp.
  - exists []. split; [|done].
    change ("" +:+ String a t) with (String a t). simpl. by rewrite Ha.
  - assert (line_start pre = true) as Hp' by (by destruct pre).
    rewrite append_cons. destruct (is_newline c) eqn:Hc.
    + destruct (IH true Hp') as (init & E & _).
      simpl split_go at 1. rewrite Hc, E.
      destruct b; [by exists init | by exists ("" :: init)].
    + assert (pre <> "") as Hne.
      { intros ->. simpl in Hp. by rewrite Hc in Hp. }
      destruct (IH false Hp') as (init & E & Hinit).
      destruct init as [|p ps]; [by destruct (Hinit Hne eq_refl)|].
      exists (String c p :: ps).
      simpl split_go at 1. rewrite Hc, E. done.
Qed.

(** The element the interval callback looks at is the last line that a
    newline ends. *)
Lemma second_to_last_line pre x nls rest :
  line_start pre = true -> x <> "" -> newline_free x = true ->
  nls <> "" -> all_newlines nls = true -> newline_free rest = true ->
  second_to_last (pre +:+ x +:+ nls +:+ rest) = PStr x.
Proof.
  intros Hp Hne Hx Hnn Hn Hr.
  destruct x as [|a x]; [done|].
  pose proof Hx as Hx'. simpl in Hx'.
  apply andb_true_iff in Hx' as [Ha _]. apply negb_true_iff in Ha.
  destruct (split_prefix pre a (x +:+ nls +:+ rest) false Hp Ha)
    as (init & E & _).
  change (String a (x +:+ nls +:+ rest))
    with (String a x +:+ nls +:+ rest) in E.
  rewrite (split_line (String a x) nls rest Hx Hnn Hn Hr) in E.
  unfold second_to_last, split_newlines. rewrite E.
  apply index_at_second_to_last. exists (length init).
  split; [rewrite length_app; simpl; lia|].
  by rewrite lookup_app_r, Nat.sub_diag by lia.
Qed.

(** X17: a tick of the interval looks at the last line of the response
    text that a newline ends, and at no other: it records the length of
    the text, and makes no call if that line is [lastLine].  If it is not,
    it calls the callback with the line; when the call returns it records
    the line in [lastLine], and when the call throws, or what is called is
    no function, the exception is left with the host and [lastLine] is as
    it was.  Lines that came before that line since the tick before are
    never delivered, and neither is a line that repeats the one recorded
    before it. *)
Theorem tick_delivers_last_complete_line s v r pre x nls rest :
  interval s <> None ->
  comet_of s = Some v ->
  responseText (req s) = pre +:+ x +:+ nls +:+ rest ->
  line_start pre = true -> x <> "" -> newline_free x = true ->
  nls <> "" -> all_newlines nls = true -> newline_free rest = true ->
  let s' := step (EvTick r) s in
  cometLength s' = String.length (responseText (req s))
  /\ (lastLine s = PStr x -> trace s' = trace s /\ lastLine s' = PStr x)
  /\ (lastLine s <> PStr x -> callable v = true -> r = None ->
      trace s' = trace s ++ [EComet (PStr x)] /\ lastLine s' = PStr x)
  /\ (lastLine s <> PStr x -> callable v = true -> forall e, r = Some e ->
      trace s' = trace s ++ [EComet (PStr x); EUncaught e]
      /\ lastLine s' = lastLine s)
  /\ (lastLine s <> PStr x -> callable v = false ->
      trace s' = trace s ++ [EUncaught not_a_function]
      /\ lastLine s' = lastLine s).
Proof.
  intros Hi Hv Htext Hp Hne Hx Hnn Hn Hr s'.
  pose proof (second_to_last_line pre x nls rest Hp Hne Hx Hnn Hn Hr)
    as Hline.
  rewrite <- Htext in Hline.
  assert (s' = ticked r s) as -> by (by apply step_tick).
  split; [by destruct (ticked_keeps s r) as (_ & _ & _ & _ & _ & _ & ? & _)|].
  assert (truthy_prim (PStr x) = true) as Ht
    by (apply truthy_prim_str; eauto).
  unfold ticked. rewrite Hline, Hv, Ht, andb_true_l.
  split; [intros ->; by rewrite strict_eq_refl_str|].
  assert (lastLine s <> PStr x -> strict_eq (PStr x) (lastLine s) = false)
    as Hdiff.
  { intros Hl. destruct (strict_eq (PStr x) (lastLine s)) eqn:E; [|done].
    apply strict_eq_true in E; [|done]. by rewrite E in Hl. }
  split; [intros Hl Hcall ->; by rewrite (Hdiff Hl), Hcall|].
  split.
  { intros Hl Hcall e ->. rewrite (Hdiff Hl), Hcall. simpl.
    by rewrite <- app_assoc. }
  intros Hl Hcall. by rewrite (Hdiff Hl), Hcall.
Qed.

End Delivery.

(** ** Objects that two calls share *)

Section Sharing.
Context `{Host}.

(** The headers of the request are the caller's with the shorthand
    applied. *)
Lemma request_headers_exact l tid h o m :
  supplied h l o m ->
  requestHeaders (req (ajax (DObject l) tid h)) = active_headers o m.
Proof.
  intros Hsup.
  destruct (serialized (data o) (active_headers o m)) as [d|] eqn:Hser.
  - destruct (call_exact l tid h o m d Hsup Hser)
      as (s3 & hp & -> & Hrh & _).
    unfold sent, started.
    by destruct (is_comet_callback (comet (options_after h o d))).
  - rewrite ajax_unfold. simpl target. simpl entry_heap.
    destruct (prepare_ok l o m (initial h) Hsup)
      as (s3 & HK & V & F & Htr & Hrh & Q).
    unfold executor. rewrite HK.
    destruct (serialize_data_throws l _ _ _ s3 V Hser) as (e & E).
    unfold mbind at 1, M_bind at 1. rewrite E.
    unfold settle. simpl. destruct (promise s3); simpl;
      simpl in Hrh; by rewrite Hrh, (right_id_L ∅ (∪)).
Qed.

(** The two objects once the call has returned, whether the executor has
    thrown or not. *)
Lemma call_heap l tid h o m :
  supplied h l o m ->
  heap (ajax (DObject l) tid h) !! headers_loc h o
  = Some (OHeaders (active_headers o m))
  /\ frame l (headers_loc h o) h (heap (ajax (DObject l) tid h)).
Proof.
  intros Hsup.
  destruct (serialized (data o) (active_headers o m)) as [d|] eqn:Hser.
  - destruct (call_ok l tid h o m d Hsup Hser) as (_ & V & F & _).
    split; [apply V | exact F].
  - destruct (call_throws l tid h o m Hsup Hser) as (e & _ & _ & V & F).
    split; [apply V | exact F].
Qed.

(** X18: the shorthand is written into the caller's headers object, and
    stays there.  When two options objects refer to the same headers
    object, a call on the first with a shorthand that is not empty makes
    that shorthand the [Content-Type] of a later request made with the
    second, which has no shorthand of its own; if the shorthand is
    [application/json], a data object of the second call is sent as its
    JSON text. *)
Theorem shorthand_reaches_sharer l1 l2 hl tid tid' h o1 o2 m ct :
  h !! l1 = Some (OOptions o1) -> h !! l2 = Some (OOptions o2) ->
  l1 <> l2 ->
  headers o1 = Some hl -> headers o2 = Some hl ->
  h !! hl = Some (OHeaders m) ->
  contentType o1 = Some ct -> ct <> "" ->
  contentType o2 = None \/ contentType o2 = Some "" ->
  let s1 := ajax (DObject l1) tid h in
  let s2 := ajax (DObject l2) tid' (heap s1) in
  requestHeaders (req s1) = <["Content-Type" := ct]> m
  /\ requestHeaders (req s2) = <["Content-Type" := ct]> m
  /\ (ct = "application/json" -> typeof (data o2) = "object" ->
      exists t, JSON_stringify (data o2) = Some t
                /\ payloads (trace s2) = [VStr t]).
Proof.
  intros H1 H2 Hne Hh1 Hh2 Hm Hct Hcne Hct2 s1 s2.
  assert (supplied h l1 o1 m) as Hsup1 by (split; [done | by rewrite Hh1]).
  assert (active_headers o1 m = <["Content-Type" := ct]> m) as Hact.
  { unfold active_headers. rewrite Hct. simpl. unfold string_eqb.
    by rewrite bool_decide_eq_false_2. }
  destruct (call_heap l1 tid h o1 m Hsup1) as [Hhl F].
  unfold headers_loc in Hhl, F. rewrite Hh1 in Hhl, F. fold s1 in Hhl, F.
  rewrite Hact in Hhl.
  assert (supplied (heap s1) l2 o2 (<["Content-Type" := ct]> m)) as Hsup2.
  { split; [|by rewrite Hh2].
    rewrite F; [done | done |]. intros ->. by rewrite H2 in Hm. }
  assert (active_headers o2 (<["Content-Type" := ct]> m)
          = <["Content-Type" := ct]> m) as Hact2.
  { unfold active_headers. by destruct Hct2 as [-> | ->]. }
  split; [by unfold s1; rewrite (request_headers_exact _ _ _ _ _ Hsup1)|].
  split.
  { unfold s2. by rewrite (request_headers_exact _ _ _ _ _ Hsup2). }
  intros -> Hobj.
  destruct (JSON_stringify_object (data o2) Hobj) as (t & Ht & Htne).
  exists t. split; [done|].
  destruct (call_ok l2 tid' (heap s1) o2 _ (VStr t) Hsup2) as (Htr & _).
  { rewrite Hact2. unfold serialized, string_eqb.
    rewrite (bool_decide_eq_true_2 _ Hobj).
    rewrite bool_decide_eq_true_2 by (by rewrite lookup_insert_eq).
    by rewrite Ht. }
  unfold s2. by rewrite Htr, payloads_call_trace, js_or_str.
Qed.

End Sharing.

(** ** These theorems at work *)

Lemma request_headers_applied_witness :
  supplied (form_heap VUndefined "text/plain" (Some "text/csv")) 1%positive
    (form VUndefined (Some "text/csv")) {[ "Content-Type" := "text/plain" ]}
  /\ (let s := @ajax browser (DObject 1%positive) 1%positive
                 (form_heap VUndefined "text/plain" (Some "text/csv")) in
      requestHeaders (req s)
      = active_headers (form VUndefined (Some "text/csv"))
          {[ "Content-Type" := "text/plain" ]}
      /\ (forall ct,
           contentType (form VUndefined (Some "text/csv")) = Some ct ->
           ct <> "" ->
           requestHeaders (req s) !! "Content-Type" = Some ct)
      /\ (forall k, k <> "Content-Type" ->
           requestHeaders (req s) !! k
           = ({[ "Content-Type" := "text/plain" ]} : gmap string string) !! k)
      /\ (contentType (form VUndefined (Some "text/csv")) = None
          \/ contentType (form VUndefined (Some "text/csv")) = Some "" ->
          requestHeaders (req s) = {[ "Content-Type" := "text/plain" ]})).
Proof.
  assert (supplied (form_heap VUndefined "text/plain" (Some "text/csv"))
            1%positive (form VUndefined (Some "text/csv"))
            {[ "Content-Type" := "text/plain" ]}) as Hsup
    by (split; reflexivity).
  split; [exact Hsup|].
  apply (@request_headers_applied browser 1%positive 1%positive _ _ _ Hsup).
Defined.

(** The shorthand [text/csv] over the header [text/plain]. *)
Example shorthand_wins_value :
  requestHeaders
    (req (@ajax browser (DObject 1%positive) 1%positive
            (form_heap VUndefined "text/plain" (Some "text/csv"))))
  !! "Content-Type" = Some "text/csv".
Proof. vm_compute. reflexivity. Qed.

Lemma call_effects_witness :
  supplied feed_heap 1%positive feed ∅
  /\ (data feed <> VNull
      \/ active_headers feed ∅ !! "Content-Type" = Some "application/json")
  /\ exists payload,
       trace (@ajax browser (DObject 1%positive) 7%positive feed_heap)
       = [EOpen (@toUpperCase browser (str_or (method feed) "GET"))
                (url feed) (js_or (async feed) (VBool true))
                (str_or_null (user feed)) (str_or_null (password feed))]
         ++ (if is_comet_callback (comet feed)
             then [ESetInterval 7%positive
                     (js_or (cometPollRate feed) (VNum 100))]
             else [])
         ++ [ESend payload]
       /\ (method feed = None \/ method feed = Some "" ->
           str_or (method feed) "GET" = "GET")
       /\ (user feed = None \/ user feed = Some "" ->
           str_or_null (user feed) = None)
       /\ (password feed = None \/ password feed = Some "" ->
           str_or_null (password feed) = None)
       /\ (truthy (cometPollRate feed) = false ->
           js_or (cometPollRate feed) (VNum 100) = VNum 100).
Proof.
  assert (supplied feed_heap 1%positive feed ∅) as Hsup
    by (split; reflexivity).
  assert (data feed <> VNull
          \/ active_headers feed ∅ !! "Content-Type"
             = Some "application/json") as Hd by (left; discriminate).
  split; [exact Hsup|]. split; [exact Hd|].
  apply (@call_effects browser 1%positive 7%positive feed_heap feed ∅
           Hsup Hd).
Defined.

(** The effects of the call on [feed]. *)
Example call_effects_value :
  trace (@ajax browser (DObject 1%positive) 7%positive feed_heap)
  = [EOpen "POST" "/feed" (VBool true) None None;
     ESetInterval 7%positive (VNum 100);
     ESend (VStr "foo=a%20b&bar=2")].
Proof. vm_compute. reflexivity. Qed.

Lemma null_data_rejects_witness :
  supplied (form_heap VNull "text/plain" (Some "text/csv")) 1%positive
    (form VNull (Some "text/csv")) {[ "Content-Type" := "text/plain" ]}
  /\ data (form VNull (Some "text/csv")) = VNull
  /\ active_headers (form VNull (Some "text/csv"))
       {[ "Content-Type" := "text/plain" ]} !! "Content-Type"
     <> Some "application/json"
  /\ (let s := @ajax browser (DObject 1%positive) 1%positive
                 (form_heap VNull "text/plain" (Some "text/csv")) in
      promise s = Rejected entries_of_null
      /\ trace s
         = [EOpen (@toUpperCase browser
                     (str_or (method (form VNull (Some "text/csv"))) "GET"))
                  (url (form VNull (Some "text/csv")))
                  (js_or (async (form VNull (Some "text/csv"))) (VBool true))
                  (str_or_null (user (form VNull (Some "text/csv"))))
                  (str_or_null (password (form VNull (Some "text/csv"))));
            EReject entries_of_null]
      /\ sendFlag (req s) = false
      /\ interval s = None
      /\ heap s !! headers_loc (form_heap VNull "text/plain" (Some "text/csv"))
                     (form VNull (Some "text/csv"))
         = Some (OHeaders (active_headers (form VNull (Some "text/csv"))
                             {[ "Content-Type" := "text/plain" ]}))
      /\ (exists o', heap s !! 1%positive = Some (OOptions o')
                     /\ data o' = VNull
                     /\ headers o'
                        = Some (headers_loc
                                  (form_heap VNull "text/plain"
                                     (Some "text/csv"))
                                  (form VNull (Some "text/csv"))))
      /\ forall es, @run browser es s = s).
Proof.
  assert (supplied (form_heap VNull "text/plain" (Some "text/csv")) 1%positive
            (form VNull (Some "text/csv"))
            {[ "Content-Type" := "text/plain" ]}) as Hsup
    by (split; reflexivity).
  assert (active_headers (form VNull (Some "text/csv"))
            {[ "Content-Type" := "text/plain" ]} !! "Content-Type"
          <> Some "application/json") as Hct by (vm_compute; discriminate).
  split; [exact Hsup|]. split; [reflexivity|]. split; [exact Hct|].
  apply (@null_data_rejects browser 1%positive 1%positive _ _ _ Hsup eq_refl
           Hct).
Defined.

(** The caller's header after the call that has failed. *)
Example null_data_value :
  header_at
    (heap (@ajax browser (DObject 1%positive) 1%positive
             (form_heap VNull "text/plain" (Some "text/csv"))))
    2%positive "Content-Type" = Some "text/csv"
  /\ payloads
       (trace (@ajax browser (DObject 1%positive) 1%positive
                 (form_heap VNull "text/plain" (Some "text/csv")))) = [].
Proof. vm_compute. split; reflexivity. Qed.

Lemma json_header_stringifies_witness :
  supplied (form_heap VNull "application/json" None) 1%positive
    (form VNull None) {[ "Content-Type" := "application/json" ]}
  /\ typeof (data (form VNull None)) = "object"
  /\ active_headers (form VNull None)
       {[ "Content-Type" := "application/json" ]} !! "Content-Type"
     = Some "application/json"
  /\ exists t,
       @JSON_stringify browser (data (form VNull None)) = Some t /\ t <> ""
       /\ payloads (trace (@ajax browser (DObject 1%positive) 1%positive
                             (form_heap VNull "application/json" None)))
          = [VStr t]
       /\ data_at (heap (@ajax browser (DObject 1%positive) 1%positive
                           (form_heap VNull "application/json" None)))
            1%positive = Some (VStr t).
Proof.
  assert (supplied (form_heap VNull "application/json" None) 1%positive
            (form VNull None) {[ "Content-Type" := "application/json" ]})
    as Hsup by (split; reflexivity).
  split; [exact Hsup|]. split; [reflexivity|]. split; [reflexivity|].
  apply (@json_header_stringifies browser 1%positive 1%positive _ _ _ Hsup);
    reflexivity.
Defined.

(** [null] under JSON is sent as the text [null]. *)
Example null_json_value :
  payloads (trace (@ajax browser (DObject 1%positive) 1%positive
                     (form_heap VNull "application/json" None)))
  = [VStr "null"].
Proof. vm_compute. reflexivity. Qed.

Lemma primitive_body_passes_witness :
  supplied (form_heap (VNum 0) "text/plain" None) 1%positive
    (form (VNum 0) None) {[ "Content-Type" := "text/plain" ]}
  /\ typeof (data (form (VNum 0) None)) <> "object"
  /\ (payloads (trace (@ajax browser (DObject 1%positive) 1%positive
                         (form_heap (VNum 0) "text/plain" None)))
      = [js_or (data (form (VNum 0) None)) VNull]
      /\ data_at (heap (@ajax browser (DObject 1%positive) 1%positive
                          (form_heap (VNum 0) "text/plain" None)))
           1%positive = Some (data (form (VNum 0) None))
      /\ (truthy (data (form (VNum 0) None)) = true ->
          payloads (trace (@ajax browser (DObject 1%positive) 1%positive
                             (form_heap (VNum 0) "text/plain" None)))
          = [data (form (VNum 0) None)])
      /\ (truthy (data (form (VNum 0) None)) = false ->
          payloads (trace (@ajax browser (DObject 1%positive) 1%positive
                             (form_heap (VNum 0) "text/plain" None)))
          = [VNull])).
Proof.
  assert (supplied (form_heap (VNum 0) "text/plain" None) 1%positive
            (form (VNum 0) None) {[ "Content-Type" := "text/plain" ]})
    as Hsup by (split; reflexivity).
  assert (typeof (data (form (VNum 0) None)) <> "object") as Hobj
    by (simpl; discriminate).
  split; [exact Hsup|]. split; [exact Hobj|].
  apply (@primitive_body_passes browser 1%positive 1%positive _ _ _ Hsup
           Hobj).
Defined.

Lemma second_call_resends_witness :
  supplied feed_heap 1%positive feed ∅
  /\ (data feed <> VNull
      \/ active_headers feed ∅ !! "Content-Type" = Some "application/json")
  /\ (let s1 := @ajax browser (DObject 1%positive) 7%positive feed_heap in
      let s2 := @ajax browser (DObject 1%positive) 8%positive (heap s1) in
      payloads (trace s2) = payloads (trace s1)
      /\ heap s2 !! 1%positive = heap s1 !! 1%positive
      /\ heap s2 !! headers_loc feed_heap feed
         = heap s1 !! headers_loc feed_heap feed).
Proof.
  assert (supplied feed_heap 1%positive feed ∅) as Hsup
    by (split; reflexivity).
  assert (data feed <> VNull
          \/ active_headers feed ∅ !! "Content-Type"
             = Some "application/json") as Hd by (left; discriminate).
  split; [exact Hsup|]. split; [exact Hd|].
  apply (@second_call_resends browser 1%positive 7%positive 8%positive
           feed_heap feed ∅ Hsup Hd).
Defined.

(** The second call sends the pairs as the first has made them. *)
Example second_call_value :
  payloads (trace (@ajax browser (DObject 1%positive) 8%positive
    (heap (@ajax browser (DObject 1%positive) 7%positive feed_heap))))
  = [VStr "foo=a%20b&bar=2"].
Proof. vm_compute. reflexivity. Qed.

Lemma pending_without_completion_witness :
  open_transaction (@ajax browser (DObject 1%positive) 7%positive feed_heap)
  = true
  /\ Forall (fun e => ~ is_terminal e) two_lines
  /\ (promise (@run browser two_lines
                 (@ajax browser (DObject 1%positive) 7%positive feed_heap))
      = Pending
      /\ settlements
           (trace (@run browser two_lines
                     (@ajax browser (DObject 1%positive) 7%positive
                        feed_heap))) = []
      /\ open_transaction
           (@run browser two_lines
              (@ajax browser (DObject 1%positive) 7%positive feed_heap))
         = true
      /\ interval (@run browser two_lines
                     (@ajax browser (DObject 1%positive) 7%positive
                        feed_heap))
         = interval (@ajax browser (DObject 1%positive) 7%positive
                       feed_heap)).
Proof.
  assert (Forall (fun e => ~ is_terminal e) two_lines) as Hes
    by (repeat constructor; simpl; tauto).
  split; [reflexivity|]. split; [exact Hes|].
  apply (@pending_without_completion browser (DObject 1%positive) 7%positive
           feed_heap two_lines); [reflexivity | exact Hes].
Defined.

Lemma without_callback_no_polling_witness :
  let h := poll_heap (VAsync "line") in
  let o := poll (VAsync "line") in
  let s0 := @ajax browser (DObject 1%positive) 7%positive h in
  let s := @run browser (two_lines ++ [EvDone 200 "OK" None]) s0 in
  supplied h 1%positive o ∅
  /\ ((is_comet_callback (comet o) = false ->
       interval s = None /\ comet_args (trace s) = []
       /\ responseComet (req s) = None)
      /\ (is_comet_callback (comet o) = true ->
          open_transaction s0 = true -> interval s0 = Some 7%positive)
      /\ ((exists name, comet o = VFun name) \/ comet o = VFunction ->
          is_comet_callback (comet o) = true)
      /\ ((exists name, comet o = VAsync name)
          \/ (exists p, comet o = VPrim p)
          \/ (exists f, comet o = VFormData f) ->
          is_comet_callback (comet o) = false)
      /\ (forall entries, comet o = VObj entries ->
          (is_comet_callback (comet o) = true
           <-> own_property "constructor" entries = Some VFunction))).
Proof.
  intros h o s0 s.
  assert (supplied h 1%positive o ∅) as Hsup by (split; reflexivity).
  split; [exact Hsup|].
  apply (@without_callback_no_polling browser 1%positive 7%positive h o ∅
           (two_lines ++ [EvDone 200 "OK" None]) Hsup).
Defined.

Lemma comet_tail_since_last_tick_witness :
  interval (@run browser one_line
              (@ajax browser (DObject 1%positive) 7%positive feed_heap))
  <> None
  /\ Forall is_no_tick more_text
  /\ open_transaction
       (@run browser more_text
          (@step browser (EvTick (Some (Error "boom")))
             (@run browser one_line
                (@ajax browser (DObject 1%positive) 7%positive feed_heap))))
     = true
  /\ (responseText
        (req (@run browser more_text
                (@step browser (EvTick (Some (Error "boom")))
                   (@run browser one_line
                      (@ajax browser (DObject 1%positive) 7%positive
                         feed_heap)))))
      = responseText
          (req (@run browser one_line
                  (@ajax browser (DObject 1%positive) 7%positive feed_heap)))
        +:+ arrived more_text
      /\ responseComet
           (req (@step browser (EvDone 200 "OK" None)
                   (@run browser more_text
                      (@step browser (EvTick (Some (Error "boom")))
                         (@run browser one_line
                            (@ajax browser (DObject 1%positive) 7%positive
                               feed_heap))))))
         = Some (arrived more_text)).
Proof.
  assert (Forall is_no_tick more_text) as Hes by (repeat constructor).
  split; [vm_compute; discriminate|]. split; [exact Hes|].
  split; [reflexivity|].
  apply (@comet_tail_since_last_tick browser (DObject 1%positive) 7%positive
           feed_heap one_line more_text (Some (Error "boom")) 200 "OK"
           None);
    [vm_compute; discriminate | exact Hes | reflexivity].
Defined.

Lemma comet_tail_without_tick_witness :
  interval (@ajax browser (DObject 1%positive) 7%positive feed_heap) <> None
  /\ Forall is_no_tick more_text
  /\ open_transaction
       (@run browser more_text
          (@ajax browser (DObject 1%positive) 7%positive feed_heap)) = true
  /\ (responseText
        (req (@run browser more_text
                (@ajax browser (DObject 1%positive) 7%positive feed_heap)))
      = arrived more_text
      /\ responseComet
           (req (@step browser (EvDone 200 "OK" None)
                   (@run browser more_text
                      (@ajax browser (DObject 1%positive) 7%positive
                         feed_heap))))
         = Some (arrived more_text)).
Proof.
  assert (Forall is_no_tick more_text) as Hes by (repeat constructor).
  split; [vm_compute; discriminate|]. split; [exact Hes|].
  split; [reflexivity|].
  apply (@comet_tail_without_tick browser (DObject 1%positive) 7%positive
           feed_heap more_text 200 "OK" None);
    [vm_compute; discriminate | exact Hes | reflexivity].
Defined.

Lemma version_1_0_agrees_witness :
  supplied (form_heap (VObj [("q", VStr "a b")]) "text/plain" None)
    1%positive (form (VObj [("q", VStr "a b")]) None)
    {[ "Content-Type" := "text/plain" ]}
  /\ is_comet_callback (comet (form (VObj [("q", VStr "a b")]) None)) = false
  /\ (@run browser (two_lines ++ [EvDone 200 "OK" None])
        (@ajax browser (DObject 1%positive) 1%positive
           (form_heap (VObj [("q", VStr "a b")]) "text/plain" None))
      = @run_v1 browser (two_lines ++ [EvDone 200 "OK" None])
          (@ajax_v1 browser (DObject 1%positive)
             (form_heap (VObj [("q", VStr "a b")]) "text/plain" None))
      /\ forall u,
           @run browser (two_lines ++ [EvDone 200 "OK" None])
             (@ajax browser (DString u) 1%positive
                (form_heap (VObj [("q", VStr "a b")]) "text/plain" None))
           = @run_v1 browser (two_lines ++ [EvDone 200 "OK" None])
               (@ajax_v1 browser (DString u)
                  (form_heap (VObj [("q", VStr "a b")]) "text/plain" None))).
Proof.
  assert (supplied (form_heap (VObj [("q", VStr "a b")]) "text/plain" None)
            1%positive (form (VObj [("q", VStr "a b")]) None)
            {[ "Content-Type" := "text/plain" ]}) as Hsup
    by (split; reflexivity).
  split; [exact Hsup|]. split; [reflexivity|].
  apply (@version_1_0_agrees browser 1%positive 1%positive _ _ _
           (two_lines ++ [EvDone 200 "OK" None]) Hsup eq_refl).
Defined.

(** What version 1.0 does on that call. *)
Example version_1_0_value :
  trace (@run_v1 browser (two_lines ++ [EvDone 404 "Not Found" None])
           (@ajax_v1 browser (DObject 1%positive)
              (form_heap (VObj [("q", VStr "a b")]) "text/plain" None)))
  = [EOpen "GET" "/form" (VBool true) None None; ESend (VStr "q=a%20b");
     EReject (Error "Not Found")].
Proof. vm_compute. reflexivity. Qed.

Lemma delivered_line_is_last_complete_witness :
  let s := @run browser more_text
             (@ajax browser (DObject 1%positive) 7%positive feed_heap) in
  trace (@step browser (EvTick (Some (Error "boom"))) s)
  = trace s ++ EComet (PStr "two") :: [EUncaught (Error "boom")]
  /\ exists x pre nls rest,
       PStr "two" = PStr x /\ x <> "" /\ newline_free x = true
       /\ responseText (req s) = pre +:+ x +:+ nls +:+ rest
       /\ line_start pre = true
       /\ nls <> "" /\ all_newlines nls = true
       /\ newline_free rest = true.
Proof.
  intros s. split; [reflexivity|].
  apply (@delivered_line_is_last_complete browser s
           (Some (Error "boom")) (PStr "two") [EUncaught (Error "boom")]).
  reflexivity.
Defined.



Lemma tick_delivers_last_complete_line_witness :
  let s := @run browser lines_at_once
             (@ajax browser (DObject 1%positive) 7%positive feed_heap) in
  let s' := @step browser (EvTick None) s in
  interval s <> None
  /\ comet_of s = Some (VFun "line")
  /\ responseText (req s) = ("one" +:+ nl) +:+ "two" +:+ nl +:+ "thr"
  /\ (cometLength s' = String.length (responseText (req s))
      /\ (lastLine s = PStr "two" ->
          trace s' = trace s /\ lastLine s' = PStr "two")
      /\ (lastLine s <> PStr "two" -> callable (VFun "line") = true ->
          (None : option error) = None ->
          trace s' = trace s ++ [EComet (PStr "two")]
          /\ lastLine s' = PStr "two")
      /\ (lastLine s <> PStr "two" -> callable (VFun "line") = true ->
          forall e, (None : option error) = Some e ->
          trace s' = trace s ++ [EComet (PStr "two"); EUncaught e]
          /\ lastLine s' = lastLine s)
      /\ (lastLine s <> PStr "two" -> callable (VFun "line") = false ->
          trace s' = trace s ++ [EUncaught not_a_function]
          /\ lastLine s' = lastLine s)).
Proof.
  intros s s'.
  assert (interval s <> None) as Hi by (vm_compute; discriminate).
  assert (comet_of s = Some (VFun "line")) as Hv by reflexivity.
  split; [exact Hi|]. split; [exact Hv|]. split; [reflexivity|].
  apply (@tick_delivers_last_complete_line browser s (VFun "line") None
           ("one" +:+ nl) "two" nl "thr" Hi Hv);
    try reflexivity; discriminate.
Defined.

Lemma uncaught_exceptions_witness :
  let es := [EvData ("one" +:+ nl); EvTick (Some (Error "boom"));
             EvDone 200 "OK" (Some "application/json")] in
  let parser_fault := fun s : state =>
    readyState (req s) = 4 /\ @json_fault browser (req s)
    /\ promise s = Pending in
  let s := @run browser es
             (@ajax browser (DObject 1%positive) 7%positive feed_heap) in
  supplied feed_heap 1%positive feed ∅
  /\ ((forall e, e ∈ faults (trace s) ->
         (e = SyntaxError "JSON.parse" /\ parser_fault s)
         \/ (is_comet_callback (comet feed) = true
             /\ callable (comet feed) = true /\ EvTick (Some e) ∈ es)
         \/ (is_comet_callback (comet feed) = true
             /\ callable (comet feed) = false /\ e = not_a_function))
      /\ (is_comet_callback (comet feed) = false
          \/ (callable (comet feed) = true /\ Forall tick_returns es) ->
          faults (trace s) = []
          \/ (faults (trace s) = [SyntaxError "JSON.parse"]
              /\ parser_fault s))
      /\ (forall u,
            let su := @run browser es
                        (@ajax browser (DString u) 7%positive feed_heap) in
            faults (trace su) = []
            \/ (faults (trace su) = [SyntaxError "JSON.parse"]
                /\ parser_fault su))).
Proof.
  intros es parser_fault s.
  assert (supplied feed_heap 1%positive feed ∅) as Hsup
    by (split; reflexivity).
  split; [exact Hsup|].
  apply (@uncaught_exceptions browser 1%positive 7%positive feed_heap feed ∅
           es Hsup).
Defined.

(** The exceptions of that run: the callback's, then the parser's. *)
Example uncaught_values :
  faults (trace (@run browser
    [EvData ("one" +:+ nl); EvTick (Some (Error "boom"));
     EvDone 200 "OK" (Some "application/json")]
    (@ajax browser (DObject 1%positive) 7%positive feed_heap)))
  = [Error "boom"; SyntaxError "JSON.parse"].
Proof. vm_compute. reflexivity. Qed.

(** The line [one] is never delivered. *)
Example skipped_line_value :
  comet_args
    (trace (@run browser
              (lines_at_once ++ [EvTick None; EvDone 200 "OK" None])
              (@ajax browser (DObject 1%positive) 7%positive feed_heap)))
  = [PStr "two"].
Proof. vm_compute. reflexivity. Qed.

Lemma shorthand_reaches_sharer_witness :
  let s1 := @ajax browser (DObject 1%positive) 7%positive shared_heap in
  let s2 := @ajax browser (DObject 3%positive) 8%positive (heap s1) in
  shared_heap !! 1%positive
  = Some (OOptions (form (VStr "x") (Some "application/json")))
  /\ shared_heap !! 3%positive
     = Some (OOptions (form (VObj [("a", VNum 1)]) None))
  /\ shared_heap !! 2%positive
     = Some (OHeaders {[ "Content-Type" := "text/plain" ]})
  /\ (requestHeaders (req s1)
      = <["Content-Type" := "application/json"]>
          {[ "Content-Type" := "text/plain" ]}
      /\ requestHeaders (req s2)
         = <["Content-Type" := "application/json"]>
             {[ "Content-Type" := "text/plain" ]}
      /\ ("application/json" = "application/json" ->
          typeof (data (form (VObj [("a", VNum 1)]) None)) = "object" ->
          exists t,
            JSON_stringify (data (form (VObj [("a", VNum 1)]) None)) = Some t
            /\ payloads (trace s2) = [VStr t])).
Proof.
  intros s1 s2.
  split; [reflexivity|]. split; [reflexivity|]. split; [reflexivity|].
  apply (@shorthand_reaches_sharer browser 1%positive 3%positive 2%positive
           7%positive 8%positive shared_heap
           (form (VStr "x") (Some "application/json"))
           (form (VObj [("a", VNum 1)]) None)
           {[ "Content-Type" := "text/plain" ]} "application/json");
    try reflexivity; try discriminate.
  by left.
Defined.

(** The second request carries the first call's shorthand, and its data
    is sent as JSON. *)
Example shared_headers_value :
  payloads
    (trace (@ajax browser (DObject 3%positive) 8%positive
              (heap (@ajax browser (DObject 1%positive) 7%positive
                       shared_heap))))
  = [VStr a_is_1].
Proof. vm_compute. reflexivity. Qed.
